(** * Auto-MAP generator for SPF packs: a shallow embedding of
      [scripts/generate-map.py] and the properties of its specification.

    Text is a [string] of characters.  The character functions below
    (white space, case, digits) are those of Python on ASCII characters;
    a character above 127 is carried through unchanged and is neither
    white space, nor cased, nor a digit. *)

From Stdlib Require Import ZArith Lia List Ascii String.
From stdpp Require Import gmap strings list fin_maps sorting pretty.

Local Open Scope string_scope.
Local Open Scope list_scope.
Local Open Scope stdpp_scope.

(** ** Python's string primitives *)

Module Py.

Definition code (c : ascii) : nat := nat_of_ascii c.

Definition between (lo hi : nat) (c : ascii) : bool :=
  (lo <=? code c)%nat && (code c <=? hi)%nat.

(** [str.isspace] and the class [\s] of [re] on a [str] pattern:
    TAB LF VT FF CR, FS GS RS US and the blank. *)
Definition is_space (c : ascii) : bool :=
  between 9 13 c || between 28 32 c.

Definition is_upper (c : ascii) : bool := between 65 90 c.
Definition is_lower (c : ascii) : bool := between 97 122 c.
Definition is_digit (c : ascii) : bool := between 48 57 c.
Definition is_cased (c : ascii) : bool := is_upper c || is_lower c.

Definition to_upper (c : ascii) : ascii :=
  if is_lower c then ascii_of_nat (code c - 32) else c.
Definition to_lower (c : ascii) : ascii :=
  if is_upper c then ascii_of_nat (code c + 32) else c.

Definition newline : ascii := ascii_of_nat 10.
Definition is_newline (c : ascii) : bool := Ascii.eqb c newline.

(** [s.upper()] *)
Fixpoint upper (s : string) : string :=
  match s with
  | EmptyString => EmptyString
  | String c s' => String (to_upper c) (upper s')
  end.

(** [s.title()]: a cased character is upper-cased when the character
    before it is not cased, and lower-cased otherwise. *)
Fixpoint title_from (prev_cased : bool) (s : string) : string :=
  match s with
  | EmptyString => EmptyString
  | String c s' =>
      String (if prev_cased then to_lower c else to_upper c)
             (title_from (is_cased c) s')
  end.
Definition title (s : string) : string := title_from false s.

(** [s.replace(a, b)] for one-character [a] and [b]. *)
Fixpoint replace (a b : ascii) (s : string) : string :=
  match s with
  | EmptyString => EmptyString
  | String c s' => String (if Ascii.eqb c a then b else c) (replace a b s')
  end.

(** [s.lstrip()], [s.rstrip()] and [s.strip()] *)
Fixpoint lstrip (s : string) : string :=
  match s with
  | EmptyString => EmptyString
  | String c s' => if is_space c then lstrip s' else s
  end.
Fixpoint rstrip (s : string) : string :=
  match s with
  | EmptyString => EmptyString
  | String c s' =>
      match rstrip s' with
      | EmptyString => if is_space c then EmptyString else String c EmptyString
      | r => String c r
      end
  end.
Definition strip (s : string) : string := rstrip (lstrip s).

(** [s.startswith(p)] *)
Definition startswith (p s : string) : bool := String.prefix p s.

(** [s[:n]] *)
Fixpoint take (n : nat) (s : string) : string :=
  match n, s with
  | S n', String c s' => String c (take n' s')
  | _, _ => EmptyString
  end.

(** [s.split(sep)] for a one-character separator: always at least one
    segment, and one more than the number of separators. *)
Fixpoint split (sep : ascii) (s : string) : list string :=
  match s with
  | EmptyString => [EmptyString]
  | String c s' =>
      if Ascii.eqb c sep then EmptyString :: split sep s'
      else match split sep s' with
           | p :: ps => String c p :: ps
           | [] => [String c EmptyString]
           end
  end.

(** [sep.join(parts)] *)
Definition join (sep : string) (parts : list string) : string :=
  String.concat sep parts.

(** [name.rfind('.')]: the index of the last dot. *)
Fixpoint rfind_dot (s : string) : option nat :=
  match s with
  | EmptyString => None
  | String c s' =>
      match rfind_dot s' with
      | Some i => Some (S i)
      | None => if Ascii.eqb c "."%char then Some 0 else None
      end
  end.

(** [PurePath.stem]: the name up to its last dot, the whole name when
    the last dot is its first or its last character or there is none. *)
Definition stem (name : string) : string :=
  match rfind_dot name with
  | Some i => if (0 <? i)%nat && (i <? String.length name - 1)%nat
              then take i name else name
  | None => name
  end.

End Py.

(** ** Regular expressions, as Python's backtracking matcher runs them

    The four patterns of the program are sequences of quantified
    one-character classes, anchors and one capture group.  A greedy
    quantifier tries the longest repetition first and gives characters
    back one at a time; a lazy one tries the shortest first. *)

Module Re.

Inductive atom : Type :=
| Rep (p : ascii -> bool) (lo : nat) (hi : option nat) (greedy : bool)
| Bos     (* ^ without MULTILINE: the start of the text *)
| Bol     (* ^ with MULTILINE: the start of the text or after a newline *)
| Eol     (* $ with MULTILINE: the end of the text or before a newline *)
| Open    (* the opening parenthesis of group 1 *)
| Close.  (* its closing parenthesis *)

(** The text captured so far. *)
Inductive capture : Type :=
| NotOpen
| Opened (acc : string)     (* characters since the parenthesis, reversed *)
| Closed (group : string).

Definition push (c : ascii) (g : capture) : capture :=
  match g with
  | Opened acc => Opened (String c acc)
  | _ => g
  end.

Definition group1 (g : capture) : string :=
  match g with
  | Closed s => s
  | _ => EmptyString
  end.

(** The matcher's position: the character before the cursor ([None] at
    the start of the text), the capture, and the text still to read. *)
Definition cont : Type := option ascii -> capture -> string -> option (string * string).

Definition orelse {A} (x y : option A) : option A :=
  match x with Some _ => x | None => y end.

Definition may_take (hi : option nat) : bool :=
  match hi with Some 0%nat => false | _ => true end.

Fixpoint rep (k : cont) (p : ascii -> bool) (greedy : bool)
    (lo : nat) (hi : option nat)
    (prev : option ascii) (g : capture) (s : string) : option (string * string) :=
  let stop := match lo with 0%nat => k prev g s | S _ => None end in
  let more :=
    match s with
    | String c s' =>
        if p c && may_take hi
        then rep k p greedy (Nat.pred lo) (Nat.pred <$> hi) (Some c) (push c g) s'
        else None
    | EmptyString => None
    end in
  if greedy then orelse more stop else orelse stop more.

Definition at_bol (prev : option ascii) : bool :=
  match prev with None => true | Some c => Py.is_newline c end.
Definition at_eol (s : string) : bool :=
  match s with EmptyString => true | String c _ => Py.is_newline c end.

(** [run r prev g s]: match the atoms of [r] at the cursor; the result
    is group 1 and the text after the match. *)
Fixpoint run (r : list atom) : cont :=
  match r with
  | [] => fun _ g s => Some (group1 g, s)
  | a :: r' =>
      let k := run r' in
      match a with
      | Rep p lo hi greedy => rep k p greedy lo hi
      | Bos => fun prev g s => match prev with None => k prev g s | Some _ => None end
      | Bol => fun prev g s => if at_bol prev then k prev g s else None
      | Eol => fun prev g s => if at_eol s then k prev g s else None
      | Open => fun prev _ s => k prev (Opened EmptyString) s
      | Close => fun prev g s =>
          k prev (match g with Opened acc => Closed (String.rev acc) | _ => g end) s
      end
  end.

(** [re.match]: at the start of the text only. *)
Definition rmatch (r : list atom) (s : string) : option (string * string) :=
  run r None NotOpen s.

(** [re.search]: the leftmost position where the pattern matches. *)
Fixpoint search_from (r : list atom) (prev : option ascii) (s : string)
  : option (string * string) :=
  match run r prev NotOpen s with
  | Some res => Some res
  | None =>
      match s with
      | String c s' => search_from r (Some c) s'
      | EmptyString => None
      end
  end.
Definition search (r : list atom) (s : string) : option (string * string) :=
  search_from r None s.

(** [re.sub(r, EmptyString, s)] for a pattern anchored by [Bos] that
    cannot match the empty text: only the start of [s] can match, and
    the match is dropped. *)
Definition sub_start (r : list atom) (s : string) : string :=
  match rmatch r s with
  | Some (_, rest) => rest
  | None => s
  end.

(** Character classes and quantifiers. *)
Definition chr (c : ascii) : ascii -> bool := Ascii.eqb c.
Definition any : ascii -> bool := fun _ => true.                 (* . with DOTALL *)
Definition dot : ascii -> bool := fun c => negb (Py.is_newline c). (* . *)

Definition one (p : ascii -> bool) : atom := Rep p 1 (Some 1%nat) true.
Definition star (p : ascii -> bool) : atom := Rep p 0 None true.
Definition plus (p : ascii -> bool) : atom := Rep p 1 None true.
Definition opt (p : ascii -> bool) : atom := Rep p 0 (Some 1%nat) true.
Definition lazy_star (p : ascii -> bool) : atom := Rep p 0 None false.

(** A literal text. *)
Fixpoint lit (s : string) : list atom :=
  match s with
  | EmptyString => []
  | String c s' => one (chr c) :: lit s'
  end.

End Re.

(** ** The patterns of the program *)

(** The text of a newline followed by [s]. *)
Definition nl (s : string) : string := String Py.newline s.

(** [r"^---\s*\n(.*?)\n---"] with [re.DOTALL] (line 40). *)
Definition frontmatter_re : list Re.atom :=
  [Re.Bos] ++ Re.lit "---" ++
  [Re.star Py.is_space; Re.one Py.is_newline;
   Re.Open; Re.lazy_star Re.any; Re.Close;
   Re.one Py.is_newline] ++ Re.lit "---".

(** [r"^##\s+\[.*?\]\s+(.+)$"] with [re.MULTILINE] (line 51). *)
Definition heading_re : list Re.atom :=
  [Re.Bol] ++ Re.lit "##" ++
  [Re.plus Py.is_space; Re.one (Re.chr "["); Re.lazy_star Re.dot;
   Re.one (Re.chr "]"); Re.plus Py.is_space;
   Re.Open; Re.plus Re.dot; Re.Close; Re.Eol].

(** [r"^[A-Z]+\.[A-Z]+\.\d+-?"] (line 59). *)
Definition id_prefix_re : list Re.atom :=
  [Re.Bos; Re.plus Py.is_upper; Re.one (Re.chr ".");
   Re.plus Py.is_upper; Re.one (Re.chr ".");
   Re.plus Py.is_digit; Re.opt (Re.chr "-")].

(** [r"Pack ID[*]*:\s*`?([A-Z]{2,4})`?"] (line 269). *)
Definition pack_id_re : list Re.atom :=
  Re.lit "Pack ID" ++
  [Re.star (Re.chr "*"); Re.one (Re.chr ":"); Re.star Py.is_space;
   Re.opt (Re.chr "`");
   Re.Open; Re.Rep Py.is_upper 2 (Some 4%nat) true; Re.Close;
   Re.opt (Re.chr "`")].

(** ** Values, dates and records *)

(** [datetime.date]: a day of the proleptic Gregorian calendar. *)
Record date : Type := mkdate { year : Z; month : Z; day : Z }.

Definition is_leap (y : Z) : bool :=
  ((y mod 4 =? 0) && (negb (y mod 100 =? 0) || (y mod 400 =? 0)))%Z.

Definition days_before_year (y : Z) : Z :=
  let p := (y - 1)%Z in (p * 365 + p / 4 - p / 100 + p / 400)%Z.

Definition days_before_month (y m : Z) : Z :=
  (nth (Z.to_nat m) [0; 0; 31; 59; 90; 120; 151; 181; 212; 243; 273; 304; 334] 0
   + (if (2 <? m) && is_leap y then 1 else 0))%Z.

(** [d.toordinal()] *)
Definition toordinal (d : date) : Z :=
  (days_before_year (year d) + days_before_month (year d) (month d) + day d)%Z.

(** [(a - b).days] *)
Definition days_between (a b : date) : Z := (toordinal a - toordinal b)%Z.

Definition pad (width : nat) (s : string) : string :=
  String.concat EmptyString (replicate (width - String.length s) "0") +:+ s.

(** [d.isoformat()] *)
Definition isoformat (d : date) : string :=
  pad 4 (pretty (year d)) +:+ "-" +:+ pad 2 (pretty (month d))
  +:+ "-" +:+ pad 2 (pretty (day d)).

(** What the program can tell of a field's value: whether it is a [str],
    a [datetime.date], a [datetime.datetime] (a subclass of [date]), or
    anything else (None, a boolean, a number, a sequence, a nested
    mapping); its truth value; and its [str()] text. *)
Inductive value : Type :=
| VStr (s : string)
| VDate (d : date)
| VDatetime (repr : string)
| VOther (repr : string) (truthy : bool).

Global Instance date_eq_dec : EqDecision date.
Proof. solve_decision. Defined.
Global Instance value_eq_dec : EqDecision value.
Proof. solve_decision. Defined.

(** [str(v)], which is what an f-string field renders. *)
Definition py_str (v : value) : string :=
  match v with
  | VStr s => s
  | VDate d => isoformat d
  | VDatetime r => r
  | VOther r _ => r
  end.

(** [bool(v)] *)
Definition truthy (v : value) : bool :=
  match v with
  | VStr s => negb (String.eqb s EmptyString)
  | VDate _ => true
  | VDatetime _ => true
  | VOther _ b => b
  end.

(** A parsed record: the mapping of the frontmatter block.  Only text
    keys are ever looked up. *)
Abbreviation record := (gmap string value).

(** What [yaml.safe_load] gives back: a mapping, some other document
    (a scalar, a sequence, nothing), a [yaml.YAMLError], or an exception
    that is not one (the library lets a [ValueError] of an impossible
    date through). *)
Inductive loaded : Type :=
| Mapping (data : record)
| NotMapping.
Inductive yaml_outcome : Type :=
| Loaded (doc : loaded)
| YAMLError
| OtherError.

(** ** Exceptions *)

(** A computation that returns or raises an exception nobody catches. *)
Inductive result (A : Type) : Type :=
| Ok (a : A)
| Raise.
Arguments Ok {A} a.
Arguments Raise {A}.

Global Instance result_ret : MRet result := fun _ a => Ok a.
Global Instance result_bind : MBind result := fun _ _ f x =>
  match x with
  | Ok a => f a
  | Raise => Raise
  end.

(** ** The pack directory *)

(** A file below the pack directory: the components of its path from
    there, the last one being its name, and what [read_text] gives
    ([None] when it raises: a directory, bytes that are not UTF-8). *)
Record file : Type := mkfile { f_parts : list string; f_text : option string }.

Definition f_name (f : file) : string := List.last (f_parts f) EmptyString.

Record pack : Type := mkpack {
  root : string;           (* str(pack_dir), resolved *)
  root_name : string;      (* pack_dir.name *)
  files : list file        (* every entry below it, in any order *)
}.

(** [str(filepath)] *)
Definition path_str (root : string) (f : file) : string :=
  root +:+ "/" +:+ Py.join "/" (f_parts f).

(** The placeholder of a missing field: an em dash, in UTF-8. *)
Definition dash : string :=
  String (ascii_of_nat 226) (String (ascii_of_nat 128)
    (String (ascii_of_nat 148) EmptyString)).

(** ** [sorted]: Python's stable sort *)

Section Sorted.
Context {A K : Type} (key : A -> K) (leb : K -> K -> bool).

(** [x] goes before the first element whose key is not below its own,
    so elements with equal keys keep their order. *)
Fixpoint insert_sorted (x : A) (l : list A) : list A :=
  match l with
  | [] => [x]
  | y :: l' => if leb (key x) (key y) then x :: l else y :: insert_sorted x l'
  end.

Definition sorted (l : list A) : list A := foldr insert_sorted [] l.

(** The order of the keys in the result. *)
Definition key_le (a b : A) : Prop := leb (key a) (key b) = true.
End Sorted.

(** The order of [str]: by character codes. *)
Definition str_leb : string -> string -> bool := String.leb.

(** The order of paths: component by component. *)
Fixpoint parts_leb (a b : list string) : bool :=
  match a, b with
  | [], _ => true
  | _ :: _, [] => false
  | x :: a', y :: b' =>
      match String.compare x y with
      | Lt => true
      | Gt => false
      | Eq => parts_leb a' b'
      end
  end.

(** [sorted(pack_dir.rglob("*.md"))] *)
Definition is_md (f : file) : bool :=
  match Py.rfind_dot (f_name f) with
  | Some i => String.eqb (String.substring i (String.length (f_name f) - i) (f_name f)) ".md"
  | None => false
  end.
Definition rglob_md (p : pack) : list file := filter (fun f => is_md f = true) (files p).
Definition sorted_md (p : pack) : list file := sorted f_parts parts_leb (rglob_md p).

(** ** The program *)

Definition has_key (k : string) (d : record) : bool :=
  match d !! k with Some _ => true | None => false end.

(** [e["id"]]; every record the program holds has the key. *)
Definition get_id (e : record) : value := default (VStr EmptyString) (e !! "id").

(** [e.get(k, dash)] rendered in an f-string. *)
Definition field (e : record) (k : string) : string :=
  match e !! k with Some v => py_str v | None => dash end.

(** [classify_kind], lines 68-73. *)
Definition classify_kind (entity_id : string) : string :=
  let parts := Py.split "." entity_id in
  if (3 <=? length parts)%nat then nth 1 parts EmptyString else "UNKNOWN".

(** The call [classify_kind(e["id"])]: a value that is not a [str] has
    no [split], and the call raises [AttributeError]. *)
Definition classify_kind_of (v : value) : result string :=
  match v with
  | VStr s => Ok (classify_kind s)
  | _ => Raise
  end.

(** [KIND_LABELS], lines 76-86. *)
Definition KIND_LABELS : gmap string string :=
  list_to_map
    [("D", "Distinctions"); ("R", "Roles"); ("M", "Methods");
     ("WP", "Work Products"); ("FM", "Failure Modes");
     ("SOTA", "SoTA Annotations"); ("MAP", "Maps");
     ("CHR", "Characteristics"); ("OA", "Objects of Attention")].

(** [KIND_LABELS.get(kind, kind)] *)
Definition label_of (kind : string) : string := default kind (KIND_LABELS !! kind).

Definition manifest_name : string := "00-pack-manifest.md".
Definition ontology_name : string := "ontology.md".

Section Program.

(** The two library parsers the program calls: [yaml.safe_load], and
    [datetime.strptime(s, "%Y-%m-%d").date()] ([None] for its
    [ValueError]). *)
Variable safe_load : string -> yaml_outcome.
Variable strptime : string -> option date.

(** The name of a record that has none, lines 50-61. *)
Definition derive_name (content : string) (filepath : file) : option string :=
  match Re.search heading_re content with
  | Some (heading, _) => Some (Py.strip heading)
  | None =>
      let slug := Py.stem (f_name filepath) in
      let slug := Re.sub_start id_prefix_re slug in
      if String.eqb slug EmptyString then None
      else Some (Py.title (Py.replace "-" " " slug))
  end.

(** [parse_frontmatter], lines 31-65. *)
Definition parse_frontmatter (root : string) (filepath : file)
  : result (option record) :=
  match f_text filepath with
  | None => Ok None
  | Some content =>
      match Re.rmatch frontmatter_re content with
      | None => Ok None
      | Some (block, _) =>
          match safe_load block with
          | OtherError => Raise
          | YAMLError => Ok None
          | Loaded NotMapping => Ok None
          | Loaded (Mapping data) =>
              if has_key "id" data then
                let data := <["_filepath" := VStr (path_str root filepath)]> data in
                if has_key "name" data then Ok (Some data)
                else
                  match derive_name content filepath with
                  | Some name => Ok (Some (<["name" := VStr name]> data))
                  | None => Ok (Some data)
                  end
              else Ok None
          end
      end
  end.

(** *** [generate_map], lines 89-224 *)

Definition warning_of (fm : record) (md_file : file) : string :=
  "Missing `summary`: " +:+ py_str (get_id fm) +:+ " (" +:+ f_name md_file +:+ ")".

(** The walk of lines 95-107, with its two lists. *)
Fixpoint map_walk (root : string) (fs : list file)
    (entities : list record) (warnings : list string)
  : result (list record * list string) :=
  match fs with
  | [] => Ok (entities, warnings)
  | md_file :: rest =>
      if Py.startswith "_" (f_name md_file) then map_walk root rest entities warnings
      else if String.eqb (f_name md_file) manifest_name
              || String.eqb (f_name md_file) ontology_name
      then map_walk root rest entities warnings
      else
        fm ← parse_frontmatter root md_file;
        match fm with
        | Some fm =>
            map_walk root rest (entities ++ [fm])
              (if has_key "summary" fm then warnings
               else warnings ++ [warning_of fm md_file])
        | None => map_walk root rest entities warnings
        end
  end.

(** Lines 110-113: [by_kind[kind].append(e)] on a [defaultdict(list)]. *)
Fixpoint group_walk (es : list record) (by_kind : gmap string (list record))
  : result (gmap string (list record)) :=
  match es with
  | [] => Ok by_kind
  | e :: rest =>
      kind ← classify_kind_of (get_id e);
      group_walk rest (<[kind := (by_kind !!! kind) ++ [e]]> by_kind)
  end.

(** The key of [sorted(..., key=lambda x: x["id"])]; where it is used
    every identifier is a [str]. *)
Definition id_text (e : record) : string :=
  match get_id e with VStr s => s | _ => EmptyString end.

Definition sorted_keys {V} (m : gmap string V) : list string :=
  sorted id str_leb (map_to_list m).*1.

Definition header_lines (domain today : string) : list string :=
  [ "---";
    "id: " +:+ domain +:+ ".MAP.001";
    "name: Pack Navigation Map";
    "scope: full-pack";
    "created: " +:+ today;
    "last_updated: " +:+ today;
    "generated: true";
    "---";
    EmptyString;
    "# [" +:+ domain +:+ ".MAP.001] Pack Navigation Map";
    EmptyString;
    "> Auto-generated from frontmatter on " +:+ today +:+ ". Do not edit manually.";
    EmptyString;
    "---";
    EmptyString;
    "## Statistics";
    EmptyString;
    "| Kind | Count |";
    "|------|-------|" ].

(** Lines 139-141: one row for each kind. *)
Definition stat_counts (by_kind : gmap string (list record)) : list (string * nat) :=
  (fun kind => (kind, length (by_kind !!! kind))) <$> sorted_keys by_kind.
Definition stat_row (kc : string * nat) : string :=
  "| " +:+ label_of kc.1 +:+ " (" +:+ kc.1 +:+ ") | " +:+ pretty kc.2 +:+ " |".
Definition total_row (entities : list record) : string :=
  "| **Total** | **" +:+ pretty (length entities) +:+ "** |".

Definition table_head : list string :=
  ["| ID | Name | Summary | Status |"; "|----|------|---------|--------|"].
Definition map_row (e : record) : string :=
  "| " +:+ py_str (get_id e) +:+ " | " +:+ field e "name" +:+ " | "
  +:+ field e "summary" +:+ " | " +:+ field e "status" +:+ " |".

(** Lines 147-163: the tables of the fixed kinds, as (kind, rows). *)
Definition section_order : list string := ["D"; "R"; "M"; "WP"; "FM"; "SOTA"; "MAP"].
Definition known_tables (by_kind : gmap string (list record))
  : list (string * list record) :=
  omap (fun kind => rows ← by_kind !! kind; Some (kind, sorted id_text str_leb rows))
       section_order.
Definition known_section (t : string * list record) : list string :=
  ["## " +:+ label_of t.1; EmptyString] ++ table_head ++ (map_row <$> t.2) ++ [EmptyString].

(** Lines 165-183: the tables of the other kinds. *)
Definition base_kinds : gset string :=
  list_to_set ["D"; "R"; "M"; "WP"; "FM"; "SOTA"; "MAP"; "CHR"; "OA"].
Definition extended_of (by_kind : gmap string (list record))
  : gmap string (list record) :=
  filter (fun kv => kv.1 ∉ base_kinds) by_kind.
Definition extended_tables (by_kind : gmap string (list record))
  : list (string * list record) :=
  let extended := extended_of by_kind in
  (fun kind => (kind, sorted id_text str_leb (extended !!! kind)))
    <$> sorted_keys extended.
Definition extended_section (t : string * list record) : list string :=
  ["### " +:+ label_of t.1; EmptyString] ++ table_head ++ (map_row <$> t.2) ++ [EmptyString].
Definition extended_lines (by_kind : gmap string (list record)) : list string :=
  match extended_tables by_kind with
  | [] => []
  | ts => ["## Domain-Specific Entities"; EmptyString] ++ (ts ≫= extended_section)
  end.

(** Lines 185-191. *)
Definition warning_lines (warnings : list string) : list string :=
  match warnings with
  | [] => []
  | _ => ["## Warnings"; EmptyString] ++ ((fun w => "- " +:+ w) <$> warnings)
         ++ [EmptyString]
  end.

(** Lines 193-209: the staleness check of one record, given the list
    so far. *)
Definition stale_step (today : date) (e : record) (stale : list (value * Z))
  : result (list (value * Z)) :=
  let check (lu : date) :=
    let days := days_between today lu in
    if (90 <? days)%Z then stale ++ [(get_id e, days)] else stale in
  match e !! "last_updated" with
  | None => Ok stale
  | Some last_updated =>
      if truthy last_updated then
        match last_updated with
        | VStr s =>
            match strptime s with
            | Some lu => Ok (check lu)
            | None => Ok stale
            end
        | VDate lu => Ok (check lu)
        | VDatetime _ => Raise      (* date - datetime: TypeError in CPython *)
        | VOther _ _ => Ok stale
        end
      else Ok stale
  end.

Fixpoint stale_walk (today : date) (es : list record) (stale : list (value * Z))
  : result (list (value * Z)) :=
  match es with
  | [] => Ok stale
  | e :: rest => stale ← stale_step today e stale; stale_walk today rest stale
  end.

(** Lines 211-218. *)
Definition sorted_stale (stale : list (value * Z)) : list (value * Z) :=
  sorted (fun x => (- x.2)%Z) Z.leb stale.
Definition stale_row (x : value * Z) : string :=
  "| " +:+ py_str x.1 +:+ " | " +:+ pretty x.2 +:+ " |".
Definition stale_lines (stale : list (value * Z)) : list string :=
  match stale with
  | [] => []
  | _ => ["## Staleness Warnings (>90 days since update)"; EmptyString;
          "| ID | Days Since Update |"; "|----|-------------------|"]
         ++ (stale_row <$> sorted_stale stale) ++ [EmptyString]
  end.

Definition footer_lines (today : string) : list string :=
  ["---"; EmptyString;
   "*Generated by `scripts/generate-map.py` on " +:+ today +:+ "*"].

(** What [generate_map] computes before it renders. *)
Record map_data : Type := mkdata {
  entities : list record;
  warnings : list string;
  by_kind : gmap string (list record);
  stale : list (value * Z)
}.

Definition collect_map (p : pack) (today : date) : result map_data :=
  ew ← map_walk (root p) (sorted_md p) [] [];
  groups ← group_walk ew.1 ∅;
  st ← stale_walk today ew.1 [];
  Ok (mkdata ew.1 ew.2 groups st).

Definition render_map (domain : string) (today : date) (d : map_data) : list string :=
  header_lines domain (isoformat today)
  ++ (stat_row <$> stat_counts (by_kind d))
  ++ [total_row (entities d); EmptyString]
  ++ (known_tables (by_kind d) ≫= known_section)
  ++ extended_lines (by_kind d)
  ++ warning_lines (warnings d)
  ++ stale_lines (stale d)
  ++ footer_lines (isoformat today).

Definition generate_map (p : pack) (domain : string) (today : date) : result string :=
  d ← collect_map p today;
  Ok (Py.join (nl EmptyString) (render_map domain today d)).

(** *** [generate_entity_index], lines 227-254 *)

Fixpoint index_walk (root : string) (fs : list file) (entities : list record)
  : result (list record) :=
  match fs with
  | [] => Ok entities
  | md_file :: rest =>
      if Py.startswith "_" (f_name md_file) then index_walk root rest entities
      else if String.eqb (f_name md_file) manifest_name
              || String.eqb (f_name md_file) ontology_name
      then index_walk root rest entities
      else
        fm ← parse_frontmatter root md_file;
        match fm with
        | Some fm => index_walk root rest (entities ++ [fm])
        | None => index_walk root rest entities
        end
  end.

Definition is_str (v : value) : bool :=
  match v with VStr _ => true | _ => false end.

(** [sorted(entities, key=lambda x: x["id"])], line 246.  When an
    identifier is not a [str], comparing the keys may raise
    [TypeError]; when it does not, [classify_kind] raises at that
    record in the loop that follows: the function raises either way. *)
Definition sorted_by_id (es : list record) : result (list record) :=
  if forallb (fun e => is_str (get_id e)) es
  then Ok (sorted id_text str_leb es) else Raise.

Definition index_row (e : record) : result string :=
  kind ← classify_kind_of (get_id e);
  Ok ("| " +:+ py_str (get_id e) +:+ " | " +:+ field e "name" +:+ " | " +:+ kind
      +:+ " | " +:+ field e "summary" +:+ " | " +:+ field e "status" +:+ " |").

Fixpoint index_rows (es : list record) : result (list string) :=
  match es with
  | [] => Ok []
  | e :: rest => row ← index_row e; rows ← index_rows rest; Ok (row :: rows)
  end.

Definition index_head : list string :=
  ["## Entity Index"; EmptyString;
   "| ID | Name | Kind | Summary | Status |";
   "|----|------|------|---------|--------|"].

Definition index_lines (p : pack) : result (list string) :=
  es ← index_walk (root p) (sorted_md p) [];
  es ← sorted_by_id es;
  rows ← index_rows es;
  Ok (index_head ++ rows).

Definition generate_entity_index (p : pack) : result string :=
  ls ← index_lines p; Ok (Py.join (nl EmptyString) ls).

(** *** [detect_domain], lines 257-284 *)

(** [manifest.exists()]: the entry of that name in the pack directory. *)
Definition find_manifest (p : pack) : option file :=
  List.find (fun f => bool_decide (f_parts f = [manifest_name])) (files p).

(** Lines 275-282. *)
Fixpoint domain_walk (root : string) (fs : list file) : result (option string) :=
  match fs with
  | [] => Ok None
  | md_file :: rest =>
      if Py.startswith "_" (f_name md_file) || String.eqb (f_name md_file) manifest_name
      then domain_walk root rest
      else
        fm ← parse_frontmatter root md_file;
        match fm with
        | Some fm =>
            match fm !! "id" with
            | Some (VStr s) =>
                let parts := Py.split "." s in
                if (2 <=? length parts)%nat then Ok (Some (nth 0 parts EmptyString))
                else domain_walk root rest
            | Some _ => Raise        (* no split: AttributeError *)
            | None => domain_walk root rest
            end
        | None => domain_walk root rest
        end
  end.

(** Lines 260-273: what the manifest gives. *)
Definition manifest_domain (p : pack) : result (option value) :=
  match find_manifest p with
  | None => Ok None
  | Some manifest =>
      fm ← parse_frontmatter (root p) manifest;
      match fm ≫= (fun fm => fm !! "pack_id") with
      | Some pack_id => Ok (Some pack_id)
      | None =>
          match f_text manifest with
          | None => Ok None
          | Some content =>
              match Re.search pack_id_re content with
              | Some (code, _) => Ok (Some (VStr code))
              | None => Ok None
              end
          end
      end
  end.

Definition detect_domain (p : pack) : result value :=
  m ← manifest_domain p;
  match m with
  | Some v => Ok v
  | None =>
      w ← domain_walk (root p) (sorted_md p);
      match w with
      | Some s => Ok (VStr s)
      | None => Ok (VStr (Py.take 2 (Py.upper (root_name p))))
      end
  end.

(** *** [main], lines 287-315 *)

(** The file system as [main] meets it: [Path(arg).resolve()] as text,
    the entries below a directory ([None] when the path is no
    directory), and whether [mkdir] and [write_text] on the map file
    succeed. *)
Record world : Type := mkworld {
  w_resolve : string -> string;
  w_dir : string -> option (list file);
  w_write_ok : bool
}.

(** How the process ends: [sys.exit(code)], the end of [main], or an
    exception nobody catches (the interpreter then exits with 1). *)
Inductive status : Type :=
| Exit (code : nat)
| Returned
| Uncaught.


(** [pack_dir.name] *)
Definition basename (path : string) : string :=
  List.last (Py.split "/" path) EmptyString.

(** The entries after [write_text] on the path [parts]. *)
Definition store (parts : list string) (content : string) (fs : list file) : list file :=
  mkfile parts (Some content) :: filter (fun f => f_parts f ≠ parts) fs.

Definition usage : string := "Usage: python generate-map.py <pack-directory> [--manifest]".

(** The printed texts, one for each [print], and how the process ends. *)
Definition main (argv : list string) (w : world) (today : date)
  : list string * status :=
  match argv with
  | [] | [_] => ([usage], Exit 1)
  | _ :: arg :: _ =>
      let pack_dir := w_resolve w arg in
      let update_manifest := bool_decide ("--manifest" ∈ argv) in
      match w_dir w pack_dir with
      | None => (["Error: " +:+ pack_dir +:+ " is not a directory"], Exit 1)
      | Some fs =>
          let p := mkpack pack_dir (basename pack_dir) fs in
          match detect_domain p with
          | Raise => ([], Uncaught)
          | Ok domain =>
              let out := ["Domain: " +:+ py_str domain;
                          "Pack directory: " +:+ pack_dir] in
              match generate_map p (py_str domain) today with
              | Raise => (out, Uncaught)
              | Ok map_content =>
                  if w_write_ok w then
                    let map_file :=
                      mkfile ("07-map" :: Py.split "/" (py_str domain +:+ ".MAP.001.md"))
                             (Some map_content) in
                    let out := out ++ ["MAP written to: " +:+ path_str pack_dir map_file] in
                    let p' := mkpack pack_dir (basename pack_dir)
                                (store (f_parts map_file) map_content fs) in
                    match generate_entity_index p' with
                    | Raise => (out, Uncaught)
                    | Ok entity_index =>
                        (out
                         ++ (if update_manifest
                             then [nl "Entity Index (for manifest):" +:+ nl EmptyString]
                             else [])
                         ++ [entity_index],
                         Returned)
                    end
                  else (out, Uncaught)
              end
          end
      end
  end.

End Program.

(** ** Notions of the specification *)

Fixpoint dot_free (s : string) : bool :=
  match s with
  | EmptyString => true
  | String c s' => negb (Ascii.eqb c ".") && dot_free s'
  end.

(** [parts] are the dot-separated segments of [s]. *)
Definition segments_of (s : string) (parts : list string) : Prop :=
  parts ≠ [] ∧ Forall (fun p => dot_free p = true) parts ∧ Py.join "." parts = s.

(** The category of a record whose identifier is a text. *)
Definition kind_of (e : record) : string := classify_kind (id_text e).

(** The files a walk looks at: the name starts with no underscore and is
    neither of the two fixed names. *)
Definition eligible (f : file) : bool :=
  negb (Py.startswith "_" (f_name f))
  && negb (String.eqb (f_name f) manifest_name)
  && negb (String.eqb (f_name f) ontology_name).

Global Instance result_fmap : FMap result := fun _ _ f x =>
  match x with
  | Ok a => Ok (f a)
  | Raise => Raise
  end.

Section Notions.
Variable safe_load : string -> yaml_outcome.

(** The record of a file, when it has one. *)
Definition record_of (root : string) (f : file) : option record :=
  match parse_frontmatter safe_load root f with
  | Ok (Some r) => Some r
  | _ => None
  end.

(** The warning of a file: it has a record, and the record has no
    summary. *)
Definition warning_for (root : string) (f : file) : option string :=
  r ← record_of root f;
  if has_key "summary" r then None else Some (warning_of r f).
End Notions.

(** How often a record stands in a list, and in the rows of tables. *)
Definition occurrences (e : record) (l : list record) : nat :=
  length (filter (fun x => x = e) l).
Definition table_occurrences (e : record) (ts : list (string * list record)) : nat :=
  sum_list ((fun t => occurrences e t.2) <$> ts).

(** The category tables of the Navigation Map, in the order of the text. *)
Definition all_tables (m : gmap string (list record)) : list (string * list record) :=
  known_tables m ++ extended_tables m.

(** ** Sample documents

    The general statements below hold for every behaviour of the two
    library parsers.  The examples run the program on concrete packs,
    with the parsers given on the few texts the examples use. *)

(** A document with a frontmatter block and a body. *)
Definition doc (block body : string) : string :=
  "---" +:+ nl block +:+ nl "---" +:+ nl body.

(** [yaml.safe_load] on the blocks of the examples.  A plain scalar with
    letters is a [str], a plain year-month-day is a [date], a quoted
    scalar is a [str], and [true] is a boolean. *)
Definition sample_blocks : list (string * list (string * value)) :=
  [ ("id: DP.CHR.001" +:+ nl "name: Latency" +:+ nl "summary: Response time",
     [("id", VStr "DP.CHR.001"); ("name", VStr "Latency");
      ("summary", VStr "Response time")]);
    ("id: DP.CHR.002", [("id", VStr "DP.CHR.002")]);
    ("id: DP.M.001", [("id", VStr "DP.M.001")]);
    ("id: NOTES", [("id", VStr "NOTES")]);
    ("id: DP.M.002" +:+ nl "last_updated: 2026-01-01",
     [("id", VStr "DP.M.002"); ("last_updated", VDate (mkdate 2026 1 1))]);
    ("id: DP.M.003" +:+ nl "last_updated: '2026-08-06'",
     [("id", VStr "DP.M.003"); ("last_updated", VStr "2026-08-06")]);
    ("id: DP.M.004" +:+ nl "last_updated: '2025-11-04'",
     [("id", VStr "DP.M.004"); ("last_updated", VStr "2025-11-04")]);
    ("id: DP.M.005" +:+ nl "last_updated: soon",
     [("id", VStr "DP.M.005"); ("last_updated", VStr "soon")]);
    ("id: DP.WP.014" +:+ nl "name: Plan" +:+ nl "summary: A plan" +:+ nl "status: draft",
     [("id", VStr "DP.WP.014"); ("name", VStr "Plan"); ("summary", VStr "A plan");
      ("status", VStr "draft")]);
    ("id: DP.PACK.000" +:+ nl "pack_id: XY",
     [("id", VStr "DP.PACK.000"); ("pack_id", VStr "XY")]);
    ("pack_id: XY", [("pack_id", VStr "XY")]);
    ("id: EM.MAP.001" +:+ nl "name: Pack Navigation Map" +:+ nl "scope: full-pack"
     +:+ nl "created: 2026-11-04" +:+ nl "last_updated: 2026-11-04"
     +:+ nl "generated: true",
     [("id", VStr "EM.MAP.001"); ("name", VStr "Pack Navigation Map");
      ("scope", VStr "full-pack"); ("created", VDate (mkdate 2026 11 4));
      ("last_updated", VDate (mkdate 2026 11 4)); ("generated", VOther "True" true)]) ].

Definition sample_yaml (block : string) : yaml_outcome :=
  match List.find (fun kv => String.eqb kv.1 block) sample_blocks with
  | Some kv => Loaded (Mapping (list_to_map kv.2))
  | None => YAMLError
  end.

Definition digit (c : ascii) : option Z :=
  if Py.is_digit c then Some (Z.of_nat (Py.code c) - 48)%Z else None.

Definition days_in_month (y m : Z) : Z :=
  (if (m =? 2) then (if is_leap y then 29 else 28)
   else if (m =? 4) || (m =? 6) || (m =? 9) || (m =? 11) then 30 else 31)%Z.

(** [strptime] with the format of the program on a text of four, two and
    two digits: the date, when the calendar has it. *)
Definition sample_strptime (s : string) : option date :=
  match s with
  | String y1 (String y2 (String y3 (String y4 (String "-"
      (String m1 (String m2 (String "-" (String d1 (String d2 EmptyString))))))))) =>
      y1 ← digit y1; y2 ← digit y2; y3 ← digit y3; y4 ← digit y4;
      m1 ← digit m1; m2 ← digit m2; d1 ← digit d1; d2 ← digit d2;
      let y := (y1 * 1000 + y2 * 100 + y3 * 10 + y4)%Z in
      let m := (m1 * 10 + m2)%Z in
      let d := (d1 * 10 + d2)%Z in
      if ((1 <=? y) && (1 <=? m) && (m <=? 12) && (1 <=? d) && (d <=? days_in_month y m))%Z
      then Some (mkdate y m d) else None
  | _ => None
  end.

(** The day of the examples. *)
Definition sample_today : date := mkdate 2026 11 4.

(** A pack whose one record is of kind CHR. *)
Definition chr_pack : pack :=
  mkpack "/packs/dp" "dp"
    [ mkfile ["04-characteristics"; "DP.CHR.001-latency.md"]
        (Some (doc ("id: DP.CHR.001" +:+ nl "name: Latency" +:+ nl "summary: Response time")
                   "# Latency")) ].

(** The same, without a summary. *)
Definition chr_pack_no_summary : pack :=
  mkpack "/packs/dp" "dp"
    [ mkfile ["04-characteristics"; "DP.CHR.002-load.md"]
        (Some (doc "id: DP.CHR.002" "# Load")) ].

(** A pack with a method, a work product and a note without kind. *)
Definition small_pack : pack :=
  mkpack "/packs/dp" "dp"
    [ mkfile ["notes.md"] (Some (doc "id: NOTES" "Some notes"));
      mkfile ["03-methods"; "DP.M.001-knowledge-extraction.md"]
        (Some (doc "id: DP.M.001" "Text of the method"));
      mkfile ["05-work-products"; "DP.WP.014-plan.md"]
        (Some (doc ("id: DP.WP.014" +:+ nl "name: Plan" +:+ nl "summary: A plan"
                    +:+ nl "status: draft") "Text"));
      mkfile ["_template.md"] (Some (doc "id: DP.M.001" "Template"));
      mkfile ["README.txt"] (Some "not a document") ].

(** What [generate_map] computes on a pack, in the examples (the empty
    data when it raises). *)
Definition data_of (r : result map_data) : map_data :=
  match r with
  | Ok d => d
  | Raise => mkdata [] [] ∅ []
  end.
Definition sample_data (p : pack) : map_data :=
  data_of (collect_map sample_yaml sample_strptime p sample_today).

(** The record of the file notes.md of [small_pack]. *)
Definition notes_record : record :=
  list_to_map [("id", VStr "NOTES"); ("_filepath", VStr "/packs/dp/notes.md");
               ("name", VStr "Notes")].

(** The records of the two packs with a characteristic. *)
Definition chr_record : record :=
  list_to_map
    [("id", VStr "DP.CHR.001"); ("name", VStr "Latency");
     ("summary", VStr "Response time");
     ("_filepath", VStr "/packs/dp/04-characteristics/DP.CHR.001-latency.md")].
Definition chr_record_no_summary : record :=
  list_to_map
    [("id", VStr "DP.CHR.002"); ("name", VStr "Load");
     ("_filepath", VStr "/packs/dp/04-characteristics/DP.CHR.002-load.md")].

Section StaleNotions.
Variable strptime : string -> option date.

(** The day a record was last updated: its field [last_updated], when
    that is a text the parser reads as a date, or a date. *)
Definition last_updated_date (e : record) : option date :=
  match e !! "last_updated" with
  | Some (VStr s) => strptime s
  | Some (VDate d) => Some d
  | _ => None
  end.

(** The staleness entry of a record: it has such a day, more than 90
    days before [today]. *)
Definition stale_entry (today : date) (e : record) : option (value * Z) :=
  lu ← last_updated_date e;
  if (90 <? days_between today lu)%Z then Some (get_id e, days_between today lu)
  else None.
End StaleNotions.

Definition stale_head : list string :=
  ["## Staleness Warnings (>90 days since update)"; EmptyString;
   "| ID | Days Since Update |"; "|----|-------------------|"].

(** A pack with five methods: updated 307 days, 90 days and 365 days
    before [sample_today], with a text that is no date, and with no
    field. *)
Definition stale_pack : pack :=
  mkpack "/packs/dp" "dp"
    [ mkfile ["m"; "DP.M.002-a.md"]
        (Some (doc ("id: DP.M.002" +:+ nl "last_updated: 2026-01-01") "A"));
      mkfile ["m"; "DP.M.003-b.md"]
        (Some (doc ("id: DP.M.003" +:+ nl "last_updated: '2026-08-06'") "B"));
      mkfile ["m"; "DP.M.004-c.md"]
        (Some (doc ("id: DP.M.004" +:+ nl "last_updated: '2025-11-04'") "C"));
      mkfile ["m"; "DP.M.005-d.md"]
        (Some (doc ("id: DP.M.005" +:+ nl "last_updated: soon") "D"));
      mkfile ["m"; "DP.M.001-e.md"] (Some (doc "id: DP.M.001" "E")) ].

(** The row of a record in the Entity Index. *)
Definition index_text (e : record) : string :=
  "| " +:+ py_str (get_id e) +:+ " | " +:+ field e "name" +:+ " | " +:+ kind_of e
  +:+ " | " +:+ field e "summary" +:+ " | " +:+ field e "status" +:+ " |".

(** The order of the identifiers of two records. *)
Definition id_le (a b : record) : Prop := str_leb (id_text a) (id_text b) = true.

(** The order of the paths of two files. *)
Definition path_le (a b : file) : Prop := parts_leb (f_parts a) (f_parts b) = true.

(** ** Notions for the patterns *)

(** A text of white space only. *)
Fixpoint all_space (s : string) : bool :=
  match s with
  | EmptyString => true
  | String c s' => Py.is_space c && all_space s'
  end.

(** [s] without its prefix [w], when it starts with [w]. *)
Fixpoint strip_prefix (w s : string) : option string :=
  match w with
  | EmptyString => Some s
  | String c w' =>
      match s with
      | String c' s' => if Ascii.eqb c c' then strip_prefix w' s' else None
      | EmptyString => None
      end
  end.

(** The character before the cursor once [w] is read. *)
Fixpoint last_char (prev : option ascii) (w : string) : option ascii :=
  match w with
  | EmptyString => prev
  | String c w' => last_char (Some c) w'
  end.

(** The first place where a newline and three hyphens stand. *)
Fixpoint find_close (s : string) : option (string * string) :=
  match strip_prefix (nl "---") s with
  | Some rest => Some (EmptyString, rest)
  | None =>
      match s with
      | String c s' =>
          match find_close s' with
          | Some (b, r) => Some (String c b, r)
          | None => None
          end
      | EmptyString => None
      end
  end.

(** The end of the frontmatter pattern, and the part after the hyphens. *)
Definition close_re : list Re.atom := [Re.Close; Re.one Py.is_newline] ++ Re.lit "---".

(** After the three hyphens: white space, the last of it a newline, and
    then the first closing place; the longest white space first. *)
Fixpoint after_dashes (s : string) : option (string * string) :=
  match s with
  | String c s' =>
      Re.orelse (if Py.is_space c then after_dashes s' else None)
                (if Py.is_newline c then find_close s' else None)
  | EmptyString => None
  end.

Definition open_re : list Re.atom :=
  [Re.one Py.is_newline; Re.Open; Re.lazy_star Re.any] ++ close_re.



(** A text of characters of the class [p]. *)
Fixpoint all_of (p : ascii -> bool) (s : string) : bool :=
  match s with
  | EmptyString => true
  | String c s' => p c && all_of p s'
  end.

(** The capture once [w] is read. *)
Fixpoint pushes (w : string) (g : Re.capture) : Re.capture :=
  match w with
  | EmptyString => g
  | String c w' => pushes w' (Re.push c g)
  end.

(** [n] repetitions are within the upper bound [hi]. *)
Definition within (hi : option nat) (n : nat) : Prop :=
  match hi with
  | None => True
  | Some h => n <= h
  end.

(** A heading line at the cursor: two hashes, white space, a bracketed
    text, white space, and the name up to the end of the line. *)
Definition heading_at (prev : option ascii) (s name after : string) : Prop :=
  exists ws1 x ws2,
    s = "##" +:+ ws1 +:+ "[" +:+ x +:+ "]" +:+ ws2 +:+ name +:+ after
    ∧ Re.at_bol prev = true
    ∧ ws1 ≠ EmptyString ∧ all_of Py.is_space ws1 = true
    ∧ all_of Re.dot x = true
    ∧ ws2 ≠ EmptyString ∧ all_of Py.is_space ws2 = true
    ∧ name ≠ EmptyString ∧ all_of Re.dot name = true
    ∧ Re.at_eol after = true.

(** The text has such a heading somewhere. *)
Definition has_heading (content name after : string) : Prop :=
  exists pre s, content = pre +:+ s ∧ heading_at (last_char None pre) s name after.

(** The heading pattern after its two hashes. *)
Definition heading_tail : list Re.atom :=
  [Re.plus Py.is_space; Re.one (Re.chr "["); Re.lazy_star Re.dot;
   Re.one (Re.chr "]"); Re.plus Py.is_space;
   Re.Open; Re.plus Re.dot; Re.Close; Re.Eol].

(** The longest prefix of characters of the class [p], and the rest. *)
Fixpoint take_while (p : ascii -> bool) (s : string) : string :=
  match s with
  | String c s' => if p c then String c (take_while p s') else EmptyString
  | EmptyString => EmptyString
  end.
Fixpoint drop_while (p : ascii -> bool) (s : string) : string :=
  match s with
  | String c s' => if p c then drop_while p s' else s
  | EmptyString => EmptyString
  end.

(** The first character of [s] is of the class [p]. *)
Definition starts_with (p : ascii -> bool) (s : string) : bool :=
  match s with
  | String c _ => p c
  | EmptyString => false
  end.

(** What is left of a file stem once its identifier is taken off. *)
Definition strip_id (stem : string) : option string :=
  if String.eqb (take_while Py.is_upper stem) EmptyString then None else
  match drop_while Py.is_upper stem with
  | String c2 s2 =>
      if Ascii.eqb "." c2 then
        if String.eqb (take_while Py.is_upper s2) EmptyString then None else
        match drop_while Py.is_upper s2 with
        | String c4 s4 =>
            if Ascii.eqb "." c4 then
              if String.eqb (take_while Py.is_digit s4) EmptyString then None else
              match drop_while Py.is_digit s4 with
              | String c6 s6 => if Ascii.eqb "-" c6 then Some s6 else Some (String c6 s6)
              | EmptyString => Some EmptyString
              end
            else None
        | EmptyString => None
        end
      else None
  | EmptyString => None
  end.

(** The identifier pattern, from its end. *)
Definition hyphen_re : list Re.atom := [Re.opt (Re.chr "-")].
Definition digits_re : list Re.atom := Re.plus Py.is_digit :: hyphen_re.
Definition second_re : list Re.atom :=
  Re.plus Py.is_upper :: Re.one (Re.chr ".") :: digits_re.
Definition first_re : list Re.atom :=
  Re.plus Py.is_upper :: Re.one (Re.chr ".") :: second_re.

(** [stem] starts with an identifier, and [slug] is what follows it:
    upper-case letters, a dot, upper-case letters, a dot, digits as far
    as they go, and a hyphen when one follows. *)
Definition id_prefixed (stem slug : string) : Prop :=
  exists a b d h,
    stem = a +:+ "." +:+ b +:+ "." +:+ d +:+ h +:+ slug
    ∧ a ≠ EmptyString ∧ all_of Py.is_upper a = true
    ∧ b ≠ EmptyString ∧ all_of Py.is_upper b = true
    ∧ d ≠ EmptyString ∧ all_of Py.is_digit d = true
    ∧ starts_with Py.is_digit (h +:+ slug) = false
    ∧ (h = "-" \/ (h = EmptyString ∧ starts_with (Ascii.eqb "-") slug = false)).

(** Two method files: one named after its identifier and a slug, one
    after its identifier alone. *)
Definition method_file : file :=
  mkfile ["03-methods"; "DP.M.001-knowledge-extraction.md"]
    (Some (doc "id: DP.M.001" "Text of the method")).
Definition bare_method_file : file :=
  mkfile ["03-methods"; "DP.M.001.md"] (Some (doc "id: DP.M.001" "Text of the method")).

(** A method file with a heading, its line ending in blanks. *)
Definition headed_method_file : file :=
  mkfile ["03-methods"; "DP.M.001-knowledge-extraction.md"]
    (Some (doc "id: DP.M.001" ("## [DP.M.001] Extraction of Knowledge  " +:+ nl "Text"))).

(** The files the domain detector looks at in its third step. *)
Definition candidate (f : file) : bool :=
  negb (Py.startswith "_" (f_name f) || String.eqb (f_name f) manifest_name).

Section DomainNotions.
Variable safe_load : string -> yaml_outcome.

(** A file from which the third step takes no domain: it has no record,
    or its identifier has no dot. *)
Definition gives_no_domain (root : string) (f : file) : Prop :=
  parse_frontmatter safe_load root f = Ok None
  \/ exists r s, parse_frontmatter safe_load root f = Ok (Some r)
                 ∧ r !! "id" = Some (VStr s) ∧ length (Py.split "." s) < 2.

(** The manifest gives no domain: there is none, or its record (if any)
    has no field pack_id and its text (if readable) no Pack ID label. *)
Definition manifest_silent (p : pack) : Prop :=
  find_manifest p = None
  \/ exists manifest o,
       find_manifest p = Some manifest
       ∧ parse_frontmatter safe_load (root p) manifest = Ok o
       ∧ o ≫= (fun r => r !! "pack_id") = None
       ∧ (f_text manifest = None
          \/ exists content, f_text manifest = Some content
                             ∧ Re.search pack_id_re content = None).
End DomainNotions.

(** Packs for the four steps of the domain detector. *)
Definition declared_pack : pack :=
  mkpack "/packs/dp" "dp"
    [ mkfile ["00-pack-manifest.md"]
        (Some (doc ("id: DP.PACK.000" +:+ nl "pack_id: XY") "**Pack ID**: `DP`"));
      mkfile ["03-methods"; "DP.M.001-knowledge-extraction.md"]
        (Some (doc "id: DP.M.001" "Text")) ].
Definition labelled_pack : pack :=
  mkpack "/packs/dp" "dp"
    [ mkfile ["00-pack-manifest.md"]
        (Some ("# Manifest" +:+ nl "**Pack ID**: `DP`" +:+ nl "Text"));
      mkfile ["03-methods"; "ZZ.M.001-other.md"] (Some "no block") ].
Definition inferred_pack : pack :=
  mkpack "/packs/digital" "digital"
    [ mkfile ["a-notes.md"] (Some (doc "id: NOTES" "Some notes"));
      mkfile ["b"; "DP.M.001-knowledge-extraction.md"] (Some (doc "id: DP.M.001" "Text")) ].
Definition unnamed_pack : pack :=
  mkpack "/packs/digital" "digital"
    [ mkfile ["a-notes.md"] (Some (doc "id: NOTES" "Some notes")) ].

Section MainNotions.
Variable safe_load : string -> yaml_outcome.

End MainNotions.

(** The path of the map file below the pack directory. *)
Definition map_parts (domain : value) : list string :=
  "07-map" :: Py.split "/" (py_str domain +:+ ".MAP.001.md").

(** A world with the one directory /packs/empty, which holds a document
    without a block and a text file; the map file can be written. *)
Definition empty_world : world :=
  mkworld id
    (fun path => if String.eqb path "/packs/empty"
                 then Some [ mkfile ["README.md"] (Some "No block here");
                             mkfile ["notes.txt"] (Some "x") ]
                 else None)
    true.

(** ** Notions for the properties of the generators *)

(** The documents a walk visits. *)
Definition visited (p : pack) (f : file) : Prop :=
  f ∈ sorted_md p ∧ eligible f = true.

Section ReturnNotions.
Variable safe_load : string -> yaml_outcome.

(** The parser raises on no visited document; every record of one has a
    text as its identifier; none has a [datetime] as [last_updated]. *)
Definition parser_returns (p : pack) : Prop :=
  forall f, visited p f -> parse_frontmatter safe_load (root p) f ≠ Raise.
Definition text_ids (p : pack) : Prop :=
  forall f r, visited p f -> parse_frontmatter safe_load (root p) f = Ok (Some r) ->
              exists s, r !! "id" = Some (VStr s).
Definition no_datetime (p : pack) : Prop :=
  forall f r t, visited p f -> parse_frontmatter safe_load (root p) f = Ok (Some r) ->
                r !! "last_updated" ≠ Some (VDatetime t).
End ReturnNotions.

(** A line of a frontmatter block: it holds no newline and does not
    start with three hyphens. *)
Definition block_line (l : string) : Prop :=
  all_of Re.dot l = true ∧ strip_prefix "---" l = None.

(** A Pack ID label at the start of [s]: the words, asterisks, a colon,
    white space, an optional backquote, a code of two to four upper-case
    letters, and an optional backquote. *)
Definition pack_id_tail : list Re.atom :=
  [Re.star (Re.chr "*"); Re.one (Re.chr ":"); Re.star Py.is_space;
   Re.opt (Re.chr "`");
   Re.Open; Re.Rep Py.is_upper 2 (Some 4%nat) true; Re.Close;
   Re.opt (Re.chr "`")].
Definition pack_id_label (s code after : string) : Prop :=
  exists stars ws tick1 tick2,
    s = "Pack ID" +:+ stars +:+ ":" +:+ ws +:+ tick1 +:+ code +:+ tick2 +:+ after
    ∧ all_of (Re.chr "*") stars = true
    ∧ all_of Py.is_space ws = true
    ∧ (tick1 = EmptyString \/ tick1 = "`")
    ∧ (tick2 = EmptyString \/ tick2 = "`")
    ∧ all_of Py.is_upper code = true
    ∧ 2 <= String.length code <= 4.

(** The frontmatter block at the head of the Navigation Map. *)
Definition map_block (domain : string) (today : date) : string :=
  Py.join (nl EmptyString)
    [ "id: " +:+ domain +:+ ".MAP.001"; "name: Pack Navigation Map";
      "scope: full-pack"; "created: " +:+ isoformat today;
      "last_updated: " +:+ isoformat today; "generated: true" ].

(** A domain code that names a file the walks visit: it holds neither a
    newline nor a slash, and does not start with an underscore. *)
Definition file_code (s : string) : bool :=
  all_of Re.dot s && all_of (fun c => negb (Ascii.eqb c "/")) s
  && negb (Py.startswith "_" s).

(** A directory without records, and [small_pack] with its entries
    listed in the reverse order. *)
Definition empty_pack : pack :=
  mkpack "/packs/empty" "empty"
    [ mkfile ["README.md"] (Some "No block here"); mkfile ["notes.txt"] (Some "x") ].
Definition small_pack_relisted : pack :=
  mkpack "/packs/dp" "dp" (reverse (files small_pack)).

(** What the loader of the examples gives on the block of the map of
    the domain EM. *)
Definition em_map_data : record :=
  list_to_map
    [("id", VStr "EM.MAP.001"); ("name", VStr "Pack Navigation Map");
     ("scope", VStr "full-pack"); ("created", VDate (mkdate 2026 11 4));
     ("last_updated", VDate (mkdate 2026 11 4)); ("generated", VOther "True" true)].

(** A heading line at the cursor with its parts named: the white space
    after the hashes, the bracketed text, and the white space before the
    name. *)
Definition heading_parts (prev : option ascii) (s ws1 x ws2 name after : string) : Prop :=
  s = "##" +:+ ws1 +:+ "[" +:+ x +:+ "]" +:+ ws2 +:+ name +:+ after
  ∧ Re.at_bol prev = true
  ∧ ws1 ≠ EmptyString ∧ all_of Py.is_space ws1 = true
  ∧ all_of Re.dot x = true
  ∧ ws2 ≠ EmptyString ∧ all_of Py.is_space ws2 = true
  ∧ name ≠ EmptyString ∧ all_of Re.dot name = true
  ∧ Re.at_eol after = true.

(** The first heading of the text, as the pattern reads it: no place
    before it has a heading; of all the ways to read a heading at that
    place, the bracketed text is the shortest, and for that bracketed
    text the white space before the name is the longest. *)
Definition first_heading (content name after : string) : Prop :=
  exists pre s ws1 x ws2,
    content = pre +:+ s
    ∧ heading_parts (last_char None pre) s ws1 x ws2 name after
    ∧ (forall pre' s' name' after',
          content = pre' +:+ s' ->
          String.length pre' < String.length pre ->
          ¬ heading_at (last_char None pre') s' name' after')
    ∧ (forall ws1' x' ws2' name' after',
          heading_parts (last_char None pre) s ws1' x' ws2' name' after' ->
          String.length x <= String.length x'
          ∧ (String.length x' = String.length x ->
             String.length ws2' <= String.length ws2)).

(** The heading pattern after the bracketed text, and after the white
    space that follows it. *)
Definition bracket_tail : list Re.atom :=
  [Re.one (Re.chr "]"); Re.plus Py.is_space;
   Re.Open; Re.plus Re.dot; Re.Close; Re.Eol].
Definition name_tail : list Re.atom :=
  [Re.Open; Re.plus Re.dot; Re.Close; Re.Eol].

(** ** A pack with a time stamp *)

(** [yaml.safe_load] on the blocks of the pack below: a year-month-day
    followed by a time of day is a [datetime.datetime]. *)
Definition datetime_yaml (block : string) : yaml_outcome :=
  if String.eqb block ("id: DP.M.006" +:+ nl "last_updated: 2026-01-01 10:00:00")
  then Loaded (Mapping (list_to_map
                 [("id", VStr "DP.M.006");
                  ("last_updated", VDatetime "2026-01-01 10:00:00")]))
  else sample_yaml block.

(** The method that was updated 307 days before [sample_today], alone
    and beside a method whose last update is a time stamp. *)
Definition dated_file : file :=
  mkfile ["m"; "DP.M.002-a.md"]
    (Some (doc ("id: DP.M.002" +:+ nl "last_updated: 2026-01-01") "A")).
Definition datetime_file : file :=
  mkfile ["m"; "DP.M.006-f.md"]
    (Some (doc ("id: DP.M.006" +:+ nl "last_updated: 2026-01-01 10:00:00") "F")).
Definition dated_pack : pack := mkpack "/packs/dp" "dp" [dated_file].
Definition datetime_pack : pack := mkpack "/packs/dp" "dp" [dated_file; datetime_file].
Definition dated_record : record :=
  list_to_map [("id", VStr "DP.M.002"); ("last_updated", VDate (mkdate 2026 1 1));
               ("_filepath", VStr "/packs/dp/m/DP.M.002-a.md"); ("name", VStr "A")].
Definition datetime_record : record :=
  list_to_map [("id", VStr "DP.M.006");
               ("last_updated", VDatetime "2026-01-01 10:00:00");
               ("_filepath", VStr "/packs/dp/m/DP.M.006-f.md"); ("name", VStr "F")].

(** * Properties *)

(** ** Sorting *)

Section SortedFacts.
Context {A K : Type} (key : A -> K) (leb : K -> K -> bool).

Lemma insert_sorted_perm (x : A) (l : list A) :
  insert_sorted key leb x l ≡ₚ x :: l.
Proof.
  induction l as [|y l IH]; simpl; [done|].
  destruct (leb (key x) (key y)); [done|].
  rewrite IH. apply perm_swap.
Qed.

Lemma sorted_perm (l : list A) : sorted key leb l ≡ₚ l.
Proof.
  induction l as [|x l IH]; simpl; [done|].
  unfold sorted in IH. rewrite insert_sorted_perm. by rewrite IH.
Qed.

Lemma sorted_elem (x : A) (l : list A) : x ∈ sorted key leb l ↔ x ∈ l.
Proof. by rewrite sorted_perm. Qed.

Lemma sorted_length (l : list A) : length (sorted key leb l) = length l.
Proof. by rewrite sorted_perm. Qed.

Hypothesis leb_total : forall a b, leb a b = true \/ leb b a = true.
Hypothesis leb_trans : forall a b c, leb a b = true -> leb b c = true -> leb a c = true.

Lemma insert_sorted_ordered (x : A) (l : list A) :
  StronglySorted (key_le key leb) l -> StronglySorted (key_le key leb) (insert_sorted key leb x l).
Proof.
  induction 1 as [|y l Hl IH Hy]; simpl.
  - repeat constructor.
  - destruct (leb (key x) (key y)) eqn:Hxy.
    + constructor; [by constructor|].
      constructor; [done|].
      eapply Forall_impl; [exact Hy|]. intros z Hz. by eapply leb_trans.
    + constructor; [done|].
      rewrite insert_sorted_perm. constructor; [|done].
      destruct (leb_total (key x) (key y)) as [H|H]; [congruence|done].
Qed.

Lemma sorted_ordered (l : list A) : StronglySorted (key_le key leb) (sorted key leb l).
Proof.
  induction l as [|x l IH]; simpl; [constructor|].
  by apply insert_sorted_ordered.
Qed.
End SortedFacts.

Lemma str_leb_total (a b : string) : str_leb a b = true \/ str_leb b a = true.
Proof. apply String.leb_total. Qed.

Lemma str_leb_trans (a b c : string) :
  str_leb a b = true -> str_leb b c = true -> str_leb a c = true.
Proof.
  intros H1 H2. apply Is_true_true.
  apply (@transitivity _ String.le _ a b c); by apply Is_true_true.
Qed.

(** ** Splitting on dots *)

Lemma split_nonempty (sep : ascii) (s : string) : Py.split sep s ≠ [].
Proof.
  induction s as [|c s IH]; simpl; [done|].
  destruct (Ascii.eqb c sep); [done|]. by destruct (Py.split sep s).
Qed.

Lemma split_dot_free (s : string) : Forall (fun p => dot_free p = true) (Py.split "." s).
Proof.
  induction s as [|c s IH]; simpl; [by repeat constructor|].
  destruct (Ascii.eqb c ".") eqn:Hc; [by constructor|].
  destruct (Py.split "." s) as [|p ps]; [by repeat constructor; simpl; rewrite Hc|].
  inversion IH; subst. constructor; [|done]. simpl. by rewrite Hc.
Qed.

Lemma join_cons (sep p : string) (ps : list string) :
  ps ≠ [] -> Py.join sep (p :: ps) = p +:+ sep +:+ Py.join sep ps.
Proof. by destruct ps. Qed.

Lemma join_split (s : string) : Py.join "." (Py.split "." s) = s.
Proof.
  induction s as [|c s IH]; simpl; [done|].
  destruct (Ascii.eqb c ".") eqn:Hc.
  - apply Ascii.eqb_eq in Hc as ->.
    rewrite join_cons by apply split_nonempty. simpl. by rewrite IH.
  - pose proof (split_nonempty "." s) as Hne.
    destruct (Py.split "." s) as [|p ps]; [done|].
    destruct ps as [|q ps]; simpl in *; by rewrite <- IH.
Qed.

Lemma split_dot_free_one (p : string) : dot_free p = true -> Py.split "." p = [p].
Proof.
  induction p as [|c p IH]; simpl; [done|].
  intros [Hc Hp]%andb_true_iff. apply negb_true_iff in Hc. rewrite Hc.
  by rewrite IH.
Qed.

Lemma split_app_dot (p rest : string) :
  dot_free p = true ->
  Py.split "." (p +:+ "." +:+ rest) = p :: Py.split "." rest.
Proof.
  induction p as [|c p IH]; simpl; [done|].
  intros [Hc Hp]%andb_true_iff. apply negb_true_iff in Hc. rewrite Hc.
  by rewrite IH.
Qed.

Lemma split_join (parts : list string) :
  parts ≠ [] -> Forall (fun p => dot_free p = true) parts ->
  Py.split "." (Py.join "." parts) = parts.
Proof.
  induction parts as [|p ps IH]; [done|].
  intros _ Hall. inversion Hall as [|? ? Hp Hps]; subst.
  destruct ps as [|q ps].
  - simpl. by apply split_dot_free_one.
  - rewrite join_cons by done. rewrite split_app_dot by done.
    by rewrite IH.
Qed.

Lemma segments_of_split (s : string) : segments_of s (Py.split "." s).
Proof.
  split; [apply split_nonempty|]. split; [apply split_dot_free|apply join_split].
Qed.

Lemma segments_of_unique (s : string) (parts : list string) :
  segments_of s parts -> parts = Py.split "." s.
Proof. intros (Hne & Hfree & <-). by rewrite split_join. Qed.

(** ** The entity classifier *)

Lemma label_of_WP : label_of "WP" = "Work Products".
Proof. by vm_compute. Qed.

(** C8: [classify_kind] is a function of the identifier alone.  Every
    identifier has exactly one list of dot-separated segments (dot-free
    texts whose join with dots is the identifier); the function returns
    the second segment when there are at least three, and the sentinel
    code UNKNOWN otherwise.  DP.WP.014 classifies to WP, and the row of
    WP in the statistics table carries the label Work Products. *)
Theorem classify_kind_correct :
  (forall s : string, exists parts : list string,
      segments_of s parts
      ∧ (forall parts', segments_of s parts' -> parts' = parts)
      ∧ classify_kind s =
          if (3 <=? length parts)%nat then nth 1 parts EmptyString else "UNKNOWN")
  ∧ classify_kind "DP.WP.014" = "WP"
  ∧ (forall n : nat,
        stat_row ("WP", n) = "| Work Products (WP) | " +:+ pretty n +:+ " |").
Proof.
  split; [|split].
  - intros s. exists (Py.split "." s). split; [apply segments_of_split|].
    split; [|done]. intros parts' H. by apply segments_of_unique.
  - by vm_compute.
  - intros n. unfold stat_row. simpl. by rewrite label_of_WP.
Qed.

(** ** The two walks over the pack directory *)

Section Walks.
Variable safe_load : string -> yaml_outcome.

Lemma map_walk_index_walk (root : string) (fs : list file)
    (es : list record) (ws : list string) :
  fst <$> map_walk safe_load root fs es ws = index_walk safe_load root fs es.
Proof.
  revert es ws. induction fs as [|f fs IH]; intros es ws; simpl; [done|].
  destruct (Py.startswith "_" (f_name f)); [apply IH|].
  destruct (String.eqb (f_name f) manifest_name || String.eqb (f_name f) ontology_name);
    [apply IH|].
  destruct (parse_frontmatter safe_load root f) as [[r|]|]; simpl; [apply IH..|done].
Qed.

Lemma eligible_false (f : file) :
  eligible f = false <->
  Py.startswith "_" (f_name f) = true
  \/ String.eqb (f_name f) manifest_name || String.eqb (f_name f) ontology_name = true.
Proof.
  unfold eligible.
  destruct (Py.startswith "_" (f_name f)), (String.eqb (f_name f) manifest_name),
    (String.eqb (f_name f) ontology_name); simpl; intuition discriminate.
Qed.

Lemma omap_cons {A B} (f : A -> option B) (x : A) (l : list A) :
  omap f (x :: l) = match f x with Some y => y :: omap f l | None => omap f l end.
Proof. done. Qed.

Lemma map_walk_spec (root : string) (fs : list file)
    (es es' : list record) (ws ws' : list string) :
  map_walk safe_load root fs es ws = Ok (es', ws') ->
  es' = es ++ omap (record_of safe_load root) (filter (fun f => eligible f = true) fs)
  ∧ ws' = ws ++ omap (warning_for safe_load root) (filter (fun f => eligible f = true) fs).
Proof.
  revert es ws es' ws'. induction fs as [|f fs IH]; intros es ws es' ws'; simpl.
  - intros [= <- <-]. by rewrite !app_nil_r.
  - destruct (eligible f) eqn:He.
    + rewrite filter_cons_True by done. rewrite !omap_cons.
      unfold eligible in He. apply andb_true_iff in He as [He H3].
      apply andb_true_iff in He as [H1 H2].
      apply negb_true_iff in H1, H2, H3. rewrite H1, H2, H3. simpl.
      destruct (parse_frontmatter safe_load root f) as [[r|]|] eqn:Hp; simpl; [| |done].
      * assert (record_of safe_load root f = Some r) as Hr
          by (unfold record_of; by rewrite Hp).
        assert (warning_for safe_load root f
                = if has_key "summary" r then None else Some (warning_of r f)) as Hw
          by (unfold warning_for; by rewrite Hr).
        rewrite Hr, Hw. intros H. apply IH in H as [-> ->].
        rewrite <- !app_assoc. split; [done|].
        destruct (has_key "summary" r); [done|]. by rewrite <- app_assoc.
      * assert (record_of safe_load root f = None) as Hr
          by (unfold record_of; by rewrite Hp).
        unfold warning_for. rewrite Hr. apply IH.
    + rewrite filter_cons_False by congruence.
      apply eligible_false in He as [-> | ->]; [apply IH|].
      destruct (Py.startswith "_" (f_name f)); apply IH.
Qed.

(** The walk raises only when the parser of some file does. *)
Lemma map_walk_ok (root : string) (fs : list file)
    (es : list record) (ws : list string) :
  Forall (fun f => parse_frontmatter safe_load root f ≠ Raise) fs ->
  exists es' ws', map_walk safe_load root fs es ws = Ok (es', ws').
Proof.
  revert es ws. induction fs as [|f fs IH]; intros es ws Hall; simpl; [by eauto|].
  inversion Hall as [|? ? Hf Hfs]; subst.
  destruct (Py.startswith "_" (f_name f)); [by apply IH|].
  destruct (String.eqb (f_name f) manifest_name || String.eqb (f_name f) ontology_name);
    [by apply IH|].
  destruct (parse_frontmatter safe_load root f) as [[r|]|]; simpl; [by apply IH..|done].
Qed.
End Walks.

(** ** Grouping by kind *)

Lemma classify_kind_of_str (e : record) (kind : string) :
  classify_kind_of (get_id e) = Ok kind ->
  is_str (get_id e) = true ∧ kind = kind_of e.
Proof.
  unfold kind_of, id_text. destruct (get_id e); simpl; try done.
  by intros [= <-].
Qed.

Lemma group_walk_lookup (es : list record) (m m' : gmap string (list record)) :
  group_walk es m = Ok m' ->
  forall k, m' !! k =
    match m !! k, filter (fun e => kind_of e = k) es with
    | None, [] => None
    | o, l => Some (default [] o ++ l)
    end.
Proof.
  revert m m'. induction es as [|e es IH]; intros m m'; simpl.
  - intros [= <-] k. destruct (m !! k); simpl; [by rewrite app_nil_r|done].
  - destruct (classify_kind_of (get_id e)) as [kind|] eqn:Hk; simpl; [|done].
    apply classify_kind_of_str in Hk as [_ ->].
    intros H k. rewrite (IH _ _ H k).
    destruct (decide (kind_of e = k)) as [<-|Hne].
    + rewrite lookup_insert_eq, filter_cons_True by done.
      rewrite lookup_total_alt. simpl. rewrite <- app_assoc. simpl.
      by destruct (m !! kind_of e).
    + rewrite lookup_insert_ne, filter_cons_False by done. done.
Qed.

Lemma group_walk_str (es : list record) (m m' : gmap string (list record)) :
  group_walk es m = Ok m' -> Forall (fun e => is_str (get_id e) = true) es.
Proof.
  revert m. induction es as [|e es IH]; intros m; simpl; [by constructor|].
  destruct (classify_kind_of (get_id e)) as [kind|] eqn:Hk; simpl; [|done].
  apply classify_kind_of_str in Hk as [Hs _].
  intros H. constructor; [done|]. by eapply IH.
Qed.

Lemma group_walk_ok (es : list record) (m : gmap string (list record)) :
  Forall (fun e => is_str (get_id e) = true) es -> exists m', group_walk es m = Ok m'.
Proof.
  revert m. induction es as [|e es IH]; intros m Hall; simpl; [by eauto|].
  inversion Hall as [|? ? He Hes]; subst.
  destruct (get_id e); simpl in *; try done. by apply IH.
Qed.

(** The group of a kind holds the records of that kind, in the order of
    collection, and a kind has a group when some record is of it. *)
Lemma by_kind_group (es : list record) (m : gmap string (list record)) (k : string) :
  group_walk es ∅ = Ok m -> m !!! k = filter (fun e => kind_of e = k) es.
Proof.
  intros H. rewrite lookup_total_alt, (group_walk_lookup _ _ _ H k), lookup_empty.
  by destruct (filter _ es).
Qed.

Lemma by_kind_is_Some (es : list record) (m : gmap string (list record)) (k : string) :
  group_walk es ∅ = Ok m -> is_Some (m !! k) <-> exists e, e ∈ es ∧ kind_of e = k.
Proof.
  intros H. rewrite (group_walk_lookup _ _ _ H k), lookup_empty.
  destruct (filter (fun e => kind_of e = k) es) as [|e l] eqn:Hf; simpl.
  - split; [by intros [? ?]|]. intros (e & He & Hk).
    assert (e ∈ filter (fun e => kind_of e = k) es) as Hin by (by apply list_elem_of_filter).
    rewrite Hf in Hin. by apply elem_of_nil in Hin.
  - split; [|by eauto]. intros _. exists e.
    assert (e ∈ filter (fun e => kind_of e = k) es) as Hin by (rewrite Hf; left).
    apply list_elem_of_filter in Hin as [? ?]. done.
Qed.

(** ** The sorted keys of a dictionary *)

Lemma sorted_keys_elem {V} (m : gmap string V) (k : string) :
  k ∈ sorted_keys m <-> is_Some (m !! k).
Proof.
  unfold sorted_keys. rewrite sorted_elem. rewrite list_elem_of_fmap. split.
  - intros ([k' v] & -> & Hin). apply elem_of_map_to_list in Hin. by eexists.
  - intros [v Hv]. exists (k, v). split; [done|]. by apply elem_of_map_to_list.
Qed.

Lemma sorted_keys_NoDup {V} (m : gmap string V) : NoDup (sorted_keys m).
Proof.
  unfold sorted_keys. rewrite sorted_perm. apply NoDup_fst_map_to_list.
Qed.

Lemma sorted_keys_ordered {V} (m : gmap string V) :
  StronglySorted (fun a b => str_leb a b = true) (sorted_keys m).
Proof.
  apply (sorted_ordered id str_leb str_leb_total str_leb_trans).
Qed.

(** ** The counts of the statistics table *)

Lemma sum_indicator (x : string) (ks : list string) :
  NoDup ks ->
  sum_list ((fun k => if decide (x = k) then 1 else 0) <$> ks)
  = if decide (x ∈ ks) then 1 else 0.
Proof.
  induction 1 as [|k ks Hk Hks IH]; csimpl; [done|].
  rewrite IH. destruct (decide (x = k)) as [->|Hne].
  - rewrite (decide_True (P := k ∈ k :: ks)) by left.
    by rewrite (decide_False (P := k ∈ ks)).
  - destruct (decide (x ∈ ks)) as [Hin|Hin].
    + by rewrite (decide_True (P := x ∈ k :: ks)) by (by right).
    + rewrite (decide_False (P := x ∈ k :: ks)); [done|].
      by intros [?|?]%elem_of_cons.
Qed.

Lemma sum_group_sizes (es : list record) (ks : list string) :
  NoDup ks ->
  (forall e, e ∈ es -> kind_of e ∈ ks) ->
  sum_list ((fun k => length (filter (fun e => kind_of e = k) es)) <$> ks) = length es.
Proof.
  intros Hnd. induction es as [|e es IH]; intros Hin; csimpl.
  - clear. induction ks as [|k ks IHk]; csimpl; done.
  - assert (forall ks' : list string,
      sum_list ((fun k => length (filter (fun e0 => kind_of e0 = k) (e :: es))) <$> ks')
      = sum_list ((fun k => if decide (kind_of e = k) then 1 else 0) <$> ks')
        + sum_list ((fun k => length (filter (fun e0 => kind_of e0 = k) es)) <$> ks'))
      as Hsplit.
    { induction ks' as [|k ks' IHk]; csimpl; [done|]. rewrite IHk.
      destruct (decide (kind_of e = k)) as [Hk|Hk].
      - rewrite filter_cons_True by done. simpl. lia.
      - rewrite filter_cons_False by done. lia. }
    rewrite Hsplit, sum_indicator by done.
    rewrite decide_True by (apply Hin; left).
    rewrite IH; [done|]. intros e' He'. apply Hin. by right.
Qed.

(** The counts of the kinds add up to the number of records. *)
Lemma stat_counts_sum (es : list record) (m : gmap string (list record)) :
  group_walk es ∅ = Ok m -> sum_list ((stat_counts m).*2) = length es.
Proof.
  intros H. unfold stat_counts. rewrite <- list_fmap_compose.
  rewrite <- (sum_group_sizes es (sorted_keys m)).
  - f_equal. apply list_fmap_ext. intros _ k _. simpl. by rewrite (by_kind_group es).
  - apply sorted_keys_NoDup.
  - intros e He. apply sorted_keys_elem. apply (by_kind_is_Some es); [done|]. by exists e.
Qed.

(** ** The category tables *)

Lemma occurrences_perm (e : record) (l l' : list record) :
  l ≡ₚ l' -> occurrences e l = occurrences e l'.
Proof. intros H. unfold occurrences. by rewrite H. Qed.

Lemma occurrences_kind (e : record) (k : string) (es : list record) :
  occurrences e (filter (fun x => kind_of x = k) es)
  = if decide (kind_of e = k) then occurrences e es else 0.
Proof.
  unfold occurrences. induction es as [|x es IH]; simpl; [by destruct (decide _)|].
  destruct (decide (kind_of x = k)) as [Hx|Hx].
  - rewrite filter_cons_True by done.
    destruct (decide (x = e)) as [->|Hne].
    + rewrite !filter_cons_True by done. simpl. rewrite IH.
      by destruct (decide (kind_of e = k)).
    + rewrite !filter_cons_False by done. done.
  - rewrite filter_cons_False by done. rewrite IH.
    destruct (decide (kind_of e = k)) as [He|He]; [|done].
    rewrite (filter_cons_False _ x); [done|]. congruence.
Qed.

Lemma occurrences_pos (e : record) (l : list record) :
  e ∈ l <-> 0 < occurrences e l.
Proof.
  unfold occurrences. split.
  - intros H. assert (e ∈ filter (fun x => x = e) l) as Hin
      by (by apply list_elem_of_filter).
    destruct (filter _ l); [by apply elem_of_nil in Hin|simpl; lia].
  - intros H. destruct (filter (fun x => x = e) l) as [|x l'] eqn:Hf; [simpl in H; lia|].
    assert (x ∈ filter (fun x => x = e) l) as Hin by (rewrite Hf; left).
    apply list_elem_of_filter in Hin as [-> ?]. done.
Qed.

Lemma table_occurrences_kinds (es : list record) (e : record)
    (ts : list (string * list record)) :
  NoDup ts.*1 ->
  (forall k rows, (k, rows) ∈ ts -> rows ≡ₚ filter (fun x => kind_of x = k) es) ->
  table_occurrences e ts = if decide (kind_of e ∈ ts.*1) then occurrences e es else 0.
Proof.
  unfold table_occurrences.
  induction ts as [|[k rows] ts IH]; csimpl; intros Hnd Hrows.
  - done.
  - apply NoDup_cons in Hnd as [Hk Hnd].
    rewrite IH; [|done|intros k' rows' H; apply Hrows; by right].
    rewrite (occurrences_perm e rows _ (Hrows k rows ltac:(left))), occurrences_kind.
    destruct (decide (kind_of e = k)) as [He|He].
    + rewrite (decide_True (P := kind_of e ∈ k :: ts.*1)) by (rewrite He; left).
      rewrite (decide_False (P := kind_of e ∈ ts.*1)) by congruence. lia.
    + destruct (decide (kind_of e ∈ ts.*1)) as [Hin|Hin].
      * by rewrite (decide_True (P := kind_of e ∈ k :: ts.*1)) by (by right).
      * rewrite (decide_False (P := kind_of e ∈ k :: ts.*1)); [done|].
        intros [?|?]%elem_of_cons; done.
Qed.

(** The tables of the fixed kinds: one for each kind of the list, in its
    order, that has a group. *)
Lemma known_tables_keys (m : gmap string (list record)) :
  (known_tables m).*1 = filter (fun k => is_Some (m !! k)) section_order.
Proof.
  unfold known_tables. induction section_order as [|k ks IH]; [done|].
  rewrite omap_cons. destruct (m !! k) as [rows|] eqn:Hk; csimpl.
  - rewrite filter_cons_True by (by rewrite Hk). by rewrite IH.
  - rewrite filter_cons_False by (rewrite Hk; by intros [? ?]). done.
Qed.

Lemma known_tables_elem (m : gmap string (list record)) (k : string) (rows : list record) :
  (k, rows) ∈ known_tables m <->
  k ∈ section_order ∧ exists l, m !! k = Some l ∧ rows = sorted id_text str_leb l.
Proof.
  unfold known_tables. rewrite list_elem_of_omap. split.
  - intros (k' & Hin & H). destruct (m !! k') as [l|] eqn:Hl; simplify_eq/=.
    split; [done|]. by exists l.
  - intros (Hin & l & Hl & ->). exists k. split; [done|]. by rewrite Hl.
Qed.

(** The tables of the other kinds. *)
Lemma extended_lookup (m : gmap string (list record)) (k : string) :
  extended_of m !! k = if decide (k ∈ base_kinds) then None else m !! k.
Proof.
  unfold extended_of. destruct (decide (k ∈ base_kinds)) as [Hb|Hb].
  - apply map_lookup_filter_None. right. intros x _ H. by apply H.
  - destruct (m !! k) as [l|] eqn:Hl.
    + by apply map_lookup_filter_Some.
    + apply map_lookup_filter_None. by left.
Qed.

Lemma extended_tables_keys (m : gmap string (list record)) :
  (extended_tables m).*1 = sorted_keys (extended_of m).
Proof.
  unfold extended_tables. rewrite <- list_fmap_compose.
  rewrite <- (list_fmap_id (sorted_keys (extended_of m))) at 2.
  by apply list_fmap_ext.
Qed.

Lemma extended_tables_elem (m : gmap string (list record)) (k : string) (rows : list record) :
  (k, rows) ∈ extended_tables m <->
  (k ∉ base_kinds) ∧ exists l, m !! k = Some l ∧ rows = sorted id_text str_leb l.
Proof.
  unfold extended_tables. rewrite list_elem_of_fmap. split.
  - intros (k' & Heq & Hin). injection Heq as -> ->.
    apply sorted_keys_elem in Hin as [l Hl].
    rewrite lookup_total_alt, Hl. simpl.
    rewrite extended_lookup in Hl. destruct (decide (k' ∈ base_kinds)); [done|].
    split; [done|]. by exists l.
  - intros (Hb & l & Hl & ->). exists k.
    assert (extended_of m !! k = Some l) as He
      by (rewrite extended_lookup; by rewrite decide_False).
    split; [by rewrite lookup_total_alt, He|]. apply sorted_keys_elem. by eexists.
Qed.

Lemma section_order_NoDup : NoDup section_order.
Proof. apply (bool_decide_unpack _). by vm_compute. Qed.

Lemma section_order_base (k : string) : k ∈ section_order -> k ∈ base_kinds.
Proof.
  intros H. unfold section_order in H. unfold base_kinds.
  apply elem_of_list_to_set.
  repeat (apply elem_of_cons in H as [->|H]; [set_solver|]).
  by apply elem_of_nil in H.
Qed.

Lemma base_kinds_cases (k : string) :
  k ∈ base_kinds <-> k ∈ section_order \/ k = "CHR" \/ k = "OA".
Proof.
  unfold base_kinds, section_order. rewrite elem_of_list_to_set.
  rewrite !elem_of_cons, elem_of_nil. tauto.
Qed.

Lemma all_tables_rows (es : list record) (m : gmap string (list record))
    (k : string) (rows : list record) :
  group_walk es ∅ = Ok m ->
  (k, rows) ∈ all_tables m ->
  rows = sorted id_text str_leb (filter (fun x => kind_of x = k) es).
Proof.
  intros Hm Hin. unfold all_tables in Hin. apply elem_of_app in Hin as [Hin|Hin].
  - apply known_tables_elem in Hin as (_ & l & Hl & ->).
    rewrite <- (by_kind_group es m k Hm), lookup_total_alt, Hl. done.
  - apply extended_tables_elem in Hin as (_ & l & Hl & ->).
    rewrite <- (by_kind_group es m k Hm), lookup_total_alt, Hl. done.
Qed.

Lemma all_tables_keys (m : gmap string (list record)) (k : string) :
  k ∈ (all_tables m).*1 <->
  is_Some (m !! k) ∧ (k ∈ section_order \/ k ∉ base_kinds).
Proof.
  unfold all_tables. rewrite fmap_app, elem_of_app.
  rewrite known_tables_keys, extended_tables_keys.
  rewrite list_elem_of_filter, sorted_keys_elem, extended_lookup.
  destruct (decide (k ∈ base_kinds)) as [Hb|Hb]; split.
  - intros [[? ?]|[? ?]]; [tauto|done].
  - intros [? [?|?]]; [tauto|done].
  - intros [[? ?]|?]; tauto.
  - intros [? _]. by right.
Qed.

Lemma all_tables_NoDup (m : gmap string (list record)) : NoDup (all_tables m).*1.
Proof.
  unfold all_tables. rewrite fmap_app. apply NoDup_app. split; [|split].
  - rewrite known_tables_keys. apply NoDup_filter, section_order_NoDup.
  - intros k. rewrite known_tables_keys, extended_tables_keys.
    rewrite list_elem_of_filter, sorted_keys_elem, extended_lookup.
    intros [_ Hk%section_order_base]. rewrite decide_True by done. by intros [? ?].
  - rewrite extended_tables_keys. apply sorted_keys_NoDup.
Qed.

(** A record of a kind other than CHR and OA stands in the tables as
    often as among the collected records: once, when it was collected
    once. *)
Lemma tables_partition (es : list record) (m : gmap string (list record)) (e : record) :
  group_walk es ∅ = Ok m ->
  e ∈ es -> kind_of e ≠ "CHR" -> kind_of e ≠ "OA" ->
  table_occurrences e (all_tables m) = occurrences e es.
Proof.
  intros Hm He H1 H2.
  rewrite (table_occurrences_kinds es) by
    (try apply all_tables_NoDup; intros k rows Hin;
     rewrite (all_tables_rows es m k rows Hm Hin); apply sorted_perm).
  rewrite decide_True; [done|]. apply all_tables_keys. split.
  - apply (by_kind_is_Some es); [done|]. by exists e.
  - destruct (decide (kind_of e ∈ section_order)); [by left|right].
    rewrite base_kinds_cases. tauto.
Qed.

(** A record of kind CHR or OA stands in no table. *)
Lemma tables_omit (es : list record) (m : gmap string (list record)) (e : record) :
  group_walk es ∅ = Ok m ->
  kind_of e = "CHR" \/ kind_of e = "OA" ->
  table_occurrences e (all_tables m) = 0.
Proof.
  intros Hm He.
  rewrite (table_occurrences_kinds es) by
    (try apply all_tables_NoDup; intros k rows Hin;
     rewrite (all_tables_rows es m k rows Hm Hin); apply sorted_perm).
  rewrite decide_False; [done|]. rewrite all_tables_keys. intros [_ [Hs|Hb]].
  - destruct He as [He|He]; rewrite He in Hs; unfold section_order in Hs;
      by repeat (apply elem_of_cons in Hs as [?|Hs]; [done|]); apply elem_of_nil in Hs.
  - apply Hb, base_kinds_cases. tauto.
Qed.

(** ** The Navigation Map *)

Section MapFacts.
Variable safe_load : string -> yaml_outcome.
Variable strptime : string -> option date.

Lemma collect_map_inv (p : pack) (today : date) (d : map_data) :
  collect_map safe_load strptime p today = Ok d ->
  map_walk safe_load (root p) (sorted_md p) [] [] = Ok (entities d, warnings d)
  ∧ group_walk (entities d) ∅ = Ok (by_kind d)
  ∧ stale_walk strptime today (entities d) [] = Ok (stale d).
Proof.
  unfold collect_map.
  destruct (map_walk safe_load (root p) (sorted_md p) [] []) as [[es ws]|] eqn:Hw;
    simpl; [|done].
  destruct (group_walk es ∅) as [m|] eqn:Hg; simpl; [|done].
  destruct (stale_walk strptime today es []) as [st|] eqn:Hs; simpl; [|done].
  intros [= <-]. simpl. by rewrite Hg, Hs.
Qed.

Lemma extended_lines_split (m : gmap string (list record))
    (t : string * list record) :
  t ∈ extended_tables m ->
  exists before after,
    extended_lines m =
      ["## Domain-Specific Entities"; EmptyString] ++ before
      ++ extended_section t ++ after.
Proof.
  intros Hin. unfold extended_lines.
  destruct (extended_tables m) as [|t0 ts] eqn:Hts; [by apply elem_of_nil in Hin|].
  apply list_elem_of_split in Hin as (t1 & t2 & Heq). rewrite Heq.
  exists (t1 ≫= extended_section), (t2 ≫= extended_section).
  by rewrite bind_app, bind_cons.
Qed.

End MapFacts.

(** *** The partition into category tables *)

(** C1, at a pack whose one document is the characteristic DP.CHR.001.
    The record is collected and counted: the statistics table has the
    row of CHR with count 1, and the total is 1.  It stands in no
    category table: the text has no table at all, neither of a fixed
    kind nor under the domain-specific heading.  The partition that the
    specification states does not hold for the kinds CHR and OA, which
    are among [base_kinds] and missing from [section_order]. *)
Theorem chr_record_in_no_table :
  collect_map sample_yaml sample_strptime chr_pack sample_today
    = Ok (sample_data chr_pack)
  ∧ entities (sample_data chr_pack) = [chr_record]
  ∧ kind_of chr_record = "CHR"
  ∧ stat_counts (by_kind (sample_data chr_pack)) = [("CHR", 1)]
  ∧ all_tables (by_kind (sample_data chr_pack)) = []
  ∧ table_occurrences chr_record (all_tables (by_kind (sample_data chr_pack))) = 0
  ∧ render_map "DP" sample_today (sample_data chr_pack) =
      [ "---"; "id: DP.MAP.001"; "name: Pack Navigation Map"; "scope: full-pack";
        "created: 2026-11-04"; "last_updated: 2026-11-04"; "generated: true"; "---";
        EmptyString; "# [DP.MAP.001] Pack Navigation Map"; EmptyString;
        "> Auto-generated from frontmatter on 2026-11-04. Do not edit manually.";
        EmptyString; "---"; EmptyString; "## Statistics"; EmptyString;
        "| Kind | Count |"; "|------|-------|";
        "| Characteristics (CHR) | 1 |"; "| **Total** | **1** |"; EmptyString;
        "---"; EmptyString;
        "*Generated by `scripts/generate-map.py` on 2026-11-04*" ].
Proof. repeat split; by vm_compute. Qed.

(** C6, at a pack whose one document is the characteristic DP.CHR.002
    without a summary.  The warning that names the identifier and the
    file is there once, and the record is counted; it stands in no
    category table, for the reason given at C1. *)
Theorem chr_record_warned_but_in_no_table :
  collect_map sample_yaml sample_strptime chr_pack_no_summary sample_today
    = Ok (sample_data chr_pack_no_summary)
  ∧ entities (sample_data chr_pack_no_summary) = [chr_record_no_summary]
  ∧ chr_record_no_summary !! "summary" = None
  ∧ warnings (sample_data chr_pack_no_summary)
      = ["Missing `summary`: DP.CHR.002 (DP.CHR.002-load.md)"]
  ∧ stat_counts (by_kind (sample_data chr_pack_no_summary)) = [("CHR", 1)]
  ∧ all_tables (by_kind (sample_data chr_pack_no_summary)) = []
  ∧ render_map "DP" sample_today (sample_data chr_pack_no_summary) =
      [ "---"; "id: DP.MAP.001"; "name: Pack Navigation Map"; "scope: full-pack";
        "created: 2026-11-04"; "last_updated: 2026-11-04"; "generated: true"; "---";
        EmptyString; "# [DP.MAP.001] Pack Navigation Map"; EmptyString;
        "> Auto-generated from frontmatter on 2026-11-04. Do not edit manually.";
        EmptyString; "---"; EmptyString; "## Statistics"; EmptyString;
        "| Kind | Count |"; "|------|-------|";
        "| Characteristics (CHR) | 1 |"; "| **Total** | **1** |"; EmptyString;
        "## Warnings"; EmptyString;
        "- Missing `summary`: DP.CHR.002 (DP.CHR.002-load.md)"; EmptyString;
        "---"; EmptyString;
        "*Generated by `scripts/generate-map.py` on 2026-11-04*" ].
Proof. repeat split; by vm_compute. Qed.


(** *** Staleness *)

Lemma Zleb_total (a b : Z) : Z.leb a b = true \/ Z.leb b a = true.
Proof. destruct (Z.leb_spec a b); [by left|right]. apply Z.leb_le. lia. Qed.

Lemma Zleb_trans (a b c : Z) :
  Z.leb a b = true -> Z.leb b c = true -> Z.leb a c = true.
Proof. rewrite !Z.leb_le. lia. Qed.

Lemma StronglySorted_weaken {A} (R S : A -> A -> Prop) (l : list A) :
  (forall a b, R a b -> S a b) -> StronglySorted R l -> StronglySorted S l.
Proof.
  intros HRS. induction 1 as [|x l Hl IH Hx]; constructor; [done|].
  eapply Forall_impl; [exact Hx|]. intros y. apply HRS.
Qed.

Lemma sorted_stale_descending (st : list (value * Z)) :
  StronglySorted (fun x y => (y.2 <= x.2)%Z) (sorted_stale st).
Proof.
  eapply StronglySorted_weaken;
    [|apply (sorted_ordered (fun x : value * Z => (- x.2)%Z) Z.leb Zleb_total Zleb_trans)].
  intros a b. unfold key_le. rewrite Z.leb_le. lia.
Qed.

Section StaleFacts.
Variable safe_load : string -> yaml_outcome.
Variable strptime : string -> option date.
Hypothesis strptime_empty : strptime EmptyString = None.

Lemma stale_step_spec (today : date) (e : record) (st st' : list (value * Z)) :
  stale_step strptime today e st = Ok st' ->
  st' = st ++ option_list (stale_entry strptime today e).
Proof using strptime_empty.
  unfold stale_step, stale_entry, last_updated_date.
  destruct (e !! "last_updated") as [v|]; simpl; [|intros [= <-]; by rewrite app_nil_r].
  destruct v as [s|lu|r|r b]; simpl.
  - destruct (String.eqb_spec s EmptyString) as [->|Hs]; simpl.
    + rewrite strptime_empty. simpl. intros [= <-]. by rewrite app_nil_r.
    + destruct (strptime s) as [lu|]; simpl; intros [= <-]; [|by rewrite app_nil_r].
      destruct (90 <? days_between today lu)%Z; simpl; [done|by rewrite app_nil_r].
  - intros [= <-].
    destruct (90 <? days_between today lu)%Z; simpl; [done|by rewrite app_nil_r].
  - done.
  - destruct b; intros [= <-]; by rewrite app_nil_r.
Qed.

Lemma stale_walk_spec (today : date) (es : list record) (st st' : list (value * Z)) :
  stale_walk strptime today es st = Ok st' ->
  st' = st ++ omap (stale_entry strptime today) es.
Proof using strptime_empty.
  revert st st'. induction es as [|e es IH]; intros st st'; simpl.
  - intros [= <-]. by rewrite app_nil_r.
  - destruct (stale_step strptime today e st) as [st1|] eqn:H1; simpl; [|done].
    apply stale_step_spec in H1 as ->. intros H. apply IH in H as ->.
    rewrite <- app_assoc. f_equal.
    by destruct (stale_entry strptime today e).
Qed.

(** The staleness table of a run in which [generate_map] returns, which
    it does only when no record has a time stamp as [last_updated]: the
    entries are those of the collected records whose field
    [last_updated] is a date, or a text that parses as one, more than 90
    days before the day of the run: each such
    record has its entry of identifier and days, every entry comes
    from such a record, and a record whose date is 90 days back, or
    whose field is missing or does not parse, has none.  The table is
    in the order of descending days, and the text carries its rows in
    that order under the staleness heading. *)
Theorem staleness_table (p : pack) (today : date) (domain : string) (d : map_data) :
  collect_map safe_load strptime p today = Ok d ->
  (forall e lu, e ∈ entities d -> last_updated_date strptime e = Some lu ->
     (90 < days_between today lu)%Z ->
     (get_id e, days_between today lu) ∈ sorted_stale (stale d))
  ∧ (forall x, x ∈ sorted_stale (stale d) ->
       (90 < x.2)%Z
       ∧ exists e lu, e ∈ entities d ∧ last_updated_date strptime e = Some lu
                      ∧ x = (get_id e, days_between today lu))
  ∧ sorted_stale (stale d) ≡ₚ omap (stale_entry strptime today) (entities d)
  ∧ (forall e lu, last_updated_date strptime e = Some lu ->
       days_between today lu = 90%Z -> stale_entry strptime today e = None)
  ∧ (forall e, last_updated_date strptime e = None ->
       stale_entry strptime today e = None)
  ∧ StronglySorted (fun x y => (y.2 <= x.2)%Z) (sorted_stale (stale d))
  ∧ (sorted_stale (stale d) ≠ [] ->
     exists before,
       render_map domain today d =
         before ++ stale_head ++ (stale_row <$> sorted_stale (stale d))
         ++ [EmptyString] ++ footer_lines (isoformat today)).
Proof using strptime_empty.
  intros Hd. apply collect_map_inv in Hd as (_ & _ & Hs).
  apply stale_walk_spec in Hs. simpl in Hs.
  assert (sorted_stale (stale d) ≡ₚ omap (stale_entry strptime today) (entities d))
    as Hperm by (unfold sorted_stale; by rewrite sorted_perm, Hs).
  split; [|split; [|split; [done|split; [|split; [|split]]]]].
  - intros e lu He Hlu Hdays. rewrite Hperm. apply list_elem_of_omap.
    exists e. split; [done|]. unfold stale_entry. rewrite Hlu. simpl.
    by rewrite (proj2 (Z.ltb_lt _ _) Hdays).
  - intros x Hx. rewrite Hperm in Hx. apply list_elem_of_omap in Hx as (e & He & Hx).
    unfold stale_entry in Hx.
    destruct (last_updated_date strptime e) as [lu|] eqn:Hlu; simpl in Hx; [|done].
    destruct (Z.ltb_spec 90 (days_between today lu)); [|done].
    injection Hx as <-. split; [done|]. by exists e, lu.
  - intros e lu Hlu Hdays. unfold stale_entry. rewrite Hlu. simpl. by rewrite Hdays.
  - intros e Hlu. unfold stale_entry. by rewrite Hlu.
  - apply sorted_stale_descending.
  - intros Hne. unfold render_map, stale_lines.
    destruct (stale d) as [|x st] eqn:Hst; [done|].
    exists (header_lines domain (isoformat today)
            ++ (stat_row <$> stat_counts (by_kind d))
            ++ [total_row (entities d); EmptyString]
            ++ (known_tables (by_kind d) ≫= known_section)
            ++ extended_lines (by_kind d) ++ warning_lines (warnings d)).
    unfold stale_head. by rewrite <- !app_assoc.
Qed.
End StaleFacts.

(** The five methods of [stale_pack]: the two updated 365 and 307 days
    ago are in the table, in that order; the one updated 90 days ago,
    the one whose text is no date and the one without the field are
    not. *)
Example stale_pack_table :
  sorted_stale (stale (sample_data stale_pack))
    = [(VStr "DP.M.004", 365%Z); (VStr "DP.M.002", 307%Z)]
  ∧ length (entities (sample_data stale_pack)) = 5
  ∧ stale_lines (stale (sample_data stale_pack))
    = stale_head ++ ["| DP.M.004 | 365 |"; "| DP.M.002 | 307 |"; EmptyString].
Proof. repeat split; by vm_compute. Qed.

(** The staleness table of [stale_pack], with the sample parsers. *)
Lemma staleness_table_witness :
  sample_strptime EmptyString = None
  ∧ collect_map sample_yaml sample_strptime stale_pack sample_today
      = Ok (sample_data stale_pack)
  ∧ (forall e lu, e ∈ entities (sample_data stale_pack) ->
       last_updated_date sample_strptime e = Some lu ->
       (90 < days_between sample_today lu)%Z ->
       (get_id e, days_between sample_today lu)
         ∈ sorted_stale (stale (sample_data stale_pack)))
  ∧ (forall x, x ∈ sorted_stale (stale (sample_data stale_pack)) ->
       (90 < x.2)%Z
       ∧ exists e lu, e ∈ entities (sample_data stale_pack)
                      ∧ last_updated_date sample_strptime e = Some lu
                      ∧ x = (get_id e, days_between sample_today lu))
  ∧ sorted_stale (stale (sample_data stale_pack))
      ≡ₚ omap (stale_entry sample_strptime sample_today) (entities (sample_data stale_pack))
  ∧ (forall e lu, last_updated_date sample_strptime e = Some lu ->
       days_between sample_today lu = 90%Z ->
       stale_entry sample_strptime sample_today e = None)
  ∧ (forall e, last_updated_date sample_strptime e = None ->
       stale_entry sample_strptime sample_today e = None)
  ∧ StronglySorted (fun x y => (y.2 <= x.2)%Z)
      (sorted_stale (stale (sample_data stale_pack)))
  ∧ (sorted_stale (stale (sample_data stale_pack)) ≠ [] ->
     exists before,
       render_map "DP" sample_today (sample_data stale_pack) =
         before ++ stale_head
         ++ (stale_row <$> sorted_stale (stale (sample_data stale_pack)))
         ++ [EmptyString] ++ footer_lines (isoformat sample_today)).
Proof.
  assert (sample_strptime EmptyString = None) as H1 by reflexivity.
  assert (collect_map sample_yaml sample_strptime stale_pack sample_today
          = Ok (sample_data stale_pack)) as H2 by (by vm_compute).
  split; [exact H1|]. split; [exact H2|].
  exact (staleness_table sample_yaml sample_strptime H1 stale_pack sample_today "DP"
           (sample_data stale_pack) H2).
Defined.

(** ** The Entity Index *)

Lemma compare_lt_trans (x y z : string) :
  String.compare x y = Lt -> String.compare y z = Lt -> String.compare x z = Lt.
Proof.
  intros Hxy Hyz.
  assert (str_leb x z = true) as Hle.
  { apply (str_leb_trans x y z); unfold str_leb, String.leb; by rewrite ?Hxy, ?Hyz. }
  unfold str_leb, String.leb in Hle.
  destruct (String.compare x z) eqn:Hxz; [|done|done].
  apply String.compare_eq_iff in Hxz as ->.
  rewrite String.compare_antisym, Hyz in Hxy. done.
Qed.

Lemma parts_leb_total (a b : list string) :
  parts_leb a b = true \/ parts_leb b a = true.
Proof.
  revert b. induction a as [|x a IH]; intros [|y b]; simpl; auto.
  rewrite (String.compare_antisym y x).
  destruct (String.compare x y); simpl; auto.
Qed.

Lemma parts_leb_trans (a b c : list string) :
  parts_leb a b = true -> parts_leb b c = true -> parts_leb a c = true.
Proof.
  revert b c. induction a as [|x a IH]; intros [|y b] [|z c]; simpl; try done.
  destruct (String.compare x y) eqn:Hxy; [|destruct (String.compare y z) eqn:Hyz|done].
  - apply String.compare_eq_iff in Hxy as ->.
    destruct (String.compare y z); [apply IH|done|done].
  - apply String.compare_eq_iff in Hyz as <-. by rewrite Hxy.
  - by rewrite (compare_lt_trans x y z).
  - done.
Qed.

Lemma sorted_md_ordered (p : pack) : StronglySorted path_le (sorted_md p).
Proof. apply (sorted_ordered f_parts parts_leb parts_leb_total parts_leb_trans). Qed.

Lemma sorted_md_perm (p : pack) :
  sorted_md p ≡ₚ filter (fun f => is_md f = true) (files p).
Proof. apply sorted_perm. Qed.

Lemma index_rows_spec (es : list record) :
  Forall (fun e => is_str (get_id e) = true) es ->
  index_rows es = Ok (index_text <$> es).
Proof.
  induction 1 as [|e es He Hes IH]; simpl; [done|].
  rewrite IH. unfold index_row, index_text, kind_of, id_text.
  by destruct (get_id e).
Qed.

Lemma sorted_by_id_spec (es : list record) :
  Forall (fun e => is_str (get_id e) = true) es ->
  sorted_by_id es = Ok (sorted id_text str_leb es).
Proof.
  intros H. unfold sorted_by_id.
  by rewrite (proj2 (forallb_forall _ _)) by (intros e He%list_elem_of_In;
    by apply (proj1 (Forall_forall _ _) H)).
Qed.

Section IndexFacts.
Variable safe_load : string -> yaml_outcome.
Variable strptime : string -> option date.

Lemma index_walk_of_map_walk (root : string) (fs : list file)
    (es : list record) (ws : list string) :
  map_walk safe_load root fs [] [] = Ok (es, ws) ->
  index_walk safe_load root fs [] = Ok es.
Proof. intros H. rewrite <- (map_walk_index_walk safe_load root fs [] []). by rewrite H. Qed.

(** C5: the two walks apply the same rules.  Whatever the files, the
    walk of [generate_entity_index] gives the records of the walk of
    [generate_map], or raises when it does.  Both go through the entries
    named *.md in the order of their paths, and the records are those of
    the files whose name starts with no underscore and is neither
    00-pack-manifest.md nor ontology.md, in that order.  When the
    Navigation Map is produced, so is the Entity Index, and the rows of
    its table are the rows of all these records, in the ascending order
    of their identifiers. *)
Theorem entity_index_consistent (p : pack) (today : date) (d : map_data) :
  collect_map safe_load strptime p today = Ok d ->
  fst <$> map_walk safe_load (root p) (sorted_md p) [] []
    = index_walk safe_load (root p) (sorted_md p) []
  ∧ index_walk safe_load (root p) (sorted_md p) [] = Ok (entities d)
  ∧ sorted_md p ≡ₚ filter (fun f => is_md f = true) (files p)
  ∧ StronglySorted path_le (sorted_md p)
  ∧ entities d
    = omap (record_of safe_load (root p)) (filter (fun f => eligible f = true) (sorted_md p))
  ∧ exists rows : list record,
      index_lines safe_load p = Ok (index_head ++ (index_text <$> rows))
      ∧ rows ≡ₚ entities d
      ∧ StronglySorted id_le rows.
Proof.
  intros Hd. apply collect_map_inv in Hd as (Hw & Hg & _).
  pose proof (index_walk_of_map_walk _ _ _ _ Hw) as Hi.
  pose proof (group_walk_str _ _ _ Hg) as Hstr.
  split; [apply map_walk_index_walk|]. split; [done|].
  split; [apply sorted_md_perm|]. split; [apply sorted_md_ordered|].
  split; [by apply map_walk_spec in Hw as [-> _]|].
  exists (sorted id_text str_leb (entities d)). split; [|split].
  - unfold index_lines. rewrite Hi. simpl.
    rewrite (sorted_by_id_spec _ Hstr). simpl.
    rewrite index_rows_spec; [done|].
    apply Forall_forall. intros e He%sorted_elem.
    by apply (proj1 (Forall_forall _ _) Hstr).
  - apply sorted_perm.
  - apply (sorted_ordered id_text str_leb str_leb_total str_leb_trans).
Qed.
End IndexFacts.

(** The two walks on [small_pack]. *)
Lemma entity_index_consistent_witness :
  collect_map sample_yaml sample_strptime small_pack sample_today
    = Ok (sample_data small_pack)
  ∧ fst <$> map_walk sample_yaml (root small_pack) (sorted_md small_pack) [] []
    = index_walk sample_yaml (root small_pack) (sorted_md small_pack) []
  ∧ index_walk sample_yaml (root small_pack) (sorted_md small_pack) []
    = Ok (entities (sample_data small_pack))
  ∧ sorted_md small_pack ≡ₚ filter (fun f => is_md f = true) (files small_pack)
  ∧ StronglySorted path_le (sorted_md small_pack)
  ∧ entities (sample_data small_pack)
    = omap (record_of sample_yaml (root small_pack))
        (filter (fun f => eligible f = true) (sorted_md small_pack))
  ∧ exists rows : list record,
      index_lines sample_yaml small_pack = Ok (index_head ++ (index_text <$> rows))
      ∧ rows ≡ₚ entities (sample_data small_pack)
      ∧ StronglySorted id_le rows.
Proof.
  assert (collect_map sample_yaml sample_strptime small_pack sample_today
          = Ok (sample_data small_pack)) as H1 by (by vm_compute).
  split; [exact H1|].
  exact (entity_index_consistent sample_yaml sample_strptime small_pack sample_today
           (sample_data small_pack) H1).
Defined.

(** The Entity Index of [small_pack]. *)
Example small_pack_index :
  index_lines sample_yaml small_pack
  = Ok (index_head
        ++ [ "| DP.M.001 | Knowledge Extraction | M | " +:+ dash +:+ " | " +:+ dash +:+ " |";
             "| DP.WP.014 | Plan | WP | A plan | draft |";
             "| NOTES | Notes | UNKNOWN | " +:+ dash +:+ " | " +:+ dash +:+ " |" ]).
Proof. by vm_compute. Qed.

(** ** The patterns *)

Lemma rep_star_nil k p greedy prev g :
  Re.rep k p greedy 0 None prev g EmptyString = k prev g EmptyString.
Proof.
  simpl. destruct greedy; simpl; [done|].
  unfold Re.orelse. by destruct (k prev g EmptyString).
Qed.

Lemma rep_star_greedy k p prev g c s :
  Re.rep k p true 0 None prev g (String c s)
  = Re.orelse (if p c then Re.rep k p true 0 None (Some c) (Re.push c g) s else None)
              (k prev g (String c s)).
Proof. simpl. by rewrite andb_true_r. Qed.

Lemma rep_star_lazy k p prev g c s :
  Re.rep k p false 0 None prev g (String c s)
  = Re.orelse (k prev g (String c s))
              (if p c then Re.rep k p false 0 None (Some c) (Re.push c g) s else None).
Proof. simpl. by rewrite andb_true_r. Qed.

Lemma rep_plus k p greedy prev g s :
  Re.rep k p greedy 1 None prev g s
  = match s with
    | String c s' => if p c then Re.rep k p greedy 0 None (Some c) (Re.push c g) s' else None
    | EmptyString => None
    end.
Proof.
  destruct s as [|c s]; simpl; [by destruct greedy|]. rewrite andb_true_r.
  destruct greedy; simpl; [|done].
  unfold Re.orelse. by destruct (if p c then _ else _).
Qed.

Lemma rep_one k p prev g s :
  Re.rep k p true 1 (Some 1) prev g s
  = match s with
    | String c s' => if p c then k (Some c) (Re.push c g) s' else None
    | EmptyString => None
    end.
Proof.
  destruct s as [|c s]; simpl; [done|]. rewrite andb_true_r.
  destruct (p c); simpl; [|done].
  destruct s as [|c' s]; simpl.
  - unfold Re.orelse. by destruct (k _ _ _).
  - rewrite andb_false_r. simpl. unfold Re.orelse. by destruct (k _ _ _).
Qed.

Lemma strip_prefix_cons (c c' : ascii) (w s : string) :
  strip_prefix (String c w) (String c' s)
  = if Ascii.eqb c c' then strip_prefix w s else None.
Proof. reflexivity. Qed.

Lemma strip_prefix_Some w s s' : strip_prefix w s = Some s' <-> s = w +:+ s'.
Proof.
  revert s. induction w as [|c w IH]; intros s; simpl.
  - split; [by intros [= ->]|by intros ->].
  - destruct s as [|c' s]; [by split|].
    destruct (Ascii.eqb_spec c c') as [->|Hne].
    + rewrite IH. split; [by intros ->|by intros [= ->]].
    + split; [done|]. intros [= ? ?]. done.
Qed.

Lemma run_lit (w : string) (r : list Re.atom) prev g s :
  (forall c, Re.push c g = g) ->
  Re.run (Re.lit w ++ r) prev g s
  = match strip_prefix w s with
    | Some s' => Re.run r (last_char prev w) g s'
    | None => None
    end.
Proof.
  intros Hg. revert prev s. induction w as [|c w IH]; intros prev s; [done|].
  change (Re.run (Re.lit (String c w) ++ r) prev g s)
    with (Re.rep (Re.run (Re.lit w ++ r)) (Re.chr c) true 1 (Some 1) prev g s).
  rewrite rep_one. simpl. destruct s as [|c' s]; [done|].
  unfold Re.chr. destruct (Ascii.eqb_spec c c') as [<-|]; [|done].
  rewrite Hg. apply IH.
Qed.

Lemma app_cons_s (x : ascii) (a b : string) : String x a +:+ b = String x (a +:+ b).
Proof. reflexivity. Qed.

Lemma app_nil_l_s (b : string) : EmptyString +:+ b = b.
Proof. reflexivity. Qed.

Lemma app_nil_r_s (a : string) : a +:+ EmptyString = a.
Proof. induction a as [|x a IH]; [reflexivity|]. by rewrite app_cons_s, IH. Qed.

Lemma app_assoc_s (a b c : string) : (a +:+ b) +:+ c = a +:+ b +:+ c.
Proof.
  induction a as [|x a IH]; [reflexivity|]. by rewrite !app_cons_s, IH.
Qed.

Lemma rev_app_app (a b : string) : String.rev_app a b = String.rev a +:+ b.
Proof.
  unfold String.rev. revert b. induction a as [|c a IH]; intros b; simpl; [done|].
  rewrite (IH (String c b)), (IH (String c EmptyString)).
  by rewrite app_assoc_s.
Qed.

Lemma rev_cons (c : ascii) (a : string) :
  String.rev (String c a) = String.rev a +:+ String c EmptyString.
Proof. unfold String.rev at 1. simpl. apply rev_app_app. Qed.

Lemma run_end (g : Re.capture) prev s : Re.run [] prev g s = Some (Re.group1 g, s).
Proof. done. Qed.

Lemma run_close prev acc s :
  Re.run close_re prev (Re.Opened acc) s
  = match strip_prefix (nl "---") s with
    | Some rest => Some (String.rev acc, rest)
    | None => None
    end.
Proof.
  unfold close_re.
  change (Re.run ([Re.Close; Re.one Py.is_newline] ++ Re.lit "---") prev (Re.Opened acc) s)
    with (Re.rep (Re.run (Re.lit "---" ++ [])) Py.is_newline true 1 (Some 1)
            prev (Re.Closed (String.rev acc)) s).
  rewrite rep_one. destruct s as [|c s]; [done|].
  unfold nl. rewrite strip_prefix_cons. unfold Py.is_newline. rewrite Ascii.eqb_sym.
  destruct (Ascii.eqb Py.newline c); [|done].
  rewrite run_lit by done. by destruct (strip_prefix "---" s).
Qed.

Lemma lazy_any_find prev acc s :
  Re.rep (Re.run close_re) Re.any false 0 None prev (Re.Opened acc) s
  = match find_close s with
    | Some (b, r) => Some (String.rev acc +:+ b, r)
    | None => None
    end.
Proof.
  revert prev acc. induction s as [|c s IH]; intros prev acc.
  - rewrite rep_star_nil, run_close. simpl. done.
  - rewrite rep_star_lazy, run_close. cbn [find_close].
    destruct (strip_prefix (nl "---") (String c s)) as [rest|] eqn:Hp.
    + simpl. by rewrite app_nil_r_s.
    + simpl. rewrite IH. destruct (find_close s) as [[b r]|]; [|done].
      by rewrite rev_cons, app_assoc_s.
Qed.

Lemma run_open prev s :
  Re.run open_re prev Re.NotOpen s
  = match s with
    | String c s' => if Py.is_newline c then find_close s' else None
    | EmptyString => None
    end.
Proof.
  change (Re.run open_re prev Re.NotOpen s)
    with (Re.rep (fun prev _ s => Re.rep (Re.run close_re) Re.any false 0 None prev
                                   (Re.Opened EmptyString) s)
            Py.is_newline true 1 (Some 1) prev Re.NotOpen s).
  rewrite rep_one. destruct s as [|c s]; [done|].
  destruct (Py.is_newline c); [|done].
  rewrite lazy_any_find. by destruct (find_close s) as [[b r]|].
Qed.

Lemma star_space_open prev s :
  Re.rep (Re.run open_re) Py.is_space true 0 None prev Re.NotOpen s = after_dashes s.
Proof.
  revert prev. induction s as [|c s IH]; intros prev.
  - by rewrite rep_star_nil, run_open.
  - rewrite rep_star_greedy, run_open. cbn [after_dashes Re.push]. by rewrite IH.
Qed.

Lemma frontmatter_re_eq :
  frontmatter_re = Re.Bos :: (Re.lit "---" ++ Re.star Py.is_space :: open_re).
Proof. reflexivity. Qed.

Lemma run_bos (r : list Re.atom) (g : Re.capture) (s : string) :
  Re.run (Re.Bos :: r) None g s = Re.run r None g s.
Proof. reflexivity. Qed.

Lemma frontmatter_re_run (s : string) :
  Re.rmatch frontmatter_re s
  = match strip_prefix "---" s with
    | Some s' => after_dashes s'
    | None => None
    end.
Proof.
  unfold Re.rmatch. rewrite frontmatter_re_eq, run_bos.
  rewrite run_lit by done. destruct (strip_prefix "---" s) as [s'|]; [|done].
  apply star_space_open.
Qed.

Lemma find_close_sound (s b r : string) :
  find_close s = Some (b, r) -> s = b +:+ nl ("---" +:+ r).
Proof.
  revert b r. induction s as [|c s IH]; intros b r.
  - done.
  - cbn [find_close].
    destruct (strip_prefix (nl "---") (String c s)) as [rest|] eqn:Hp.
    + intros [= <- <-]. by apply strip_prefix_Some in Hp.
    + destruct (find_close s) as [[b' r']|]; [|done].
      intros [= <- <-]. by rewrite (IH b' r' eq_refl).
Qed.

Lemma find_close_complete (b r : string) :
  is_Some (find_close (b +:+ nl ("---" +:+ r))).
Proof.
  induction b as [|c b IH].
  - rewrite app_nil_l_s. unfold nl. cbn [find_close].
    rewrite (proj2 (strip_prefix_Some (String Py.newline "---") _ r)) by done. by eexists.
  - rewrite app_cons_s. cbn [find_close].
    destruct (strip_prefix (nl "---") _); [by eexists|].
    destruct IH as [[b' r'] ->]. by eexists.
Qed.


Lemma after_dashes_complete (ws b r : string) :
  all_space ws = true ->
  is_Some (after_dashes (ws +:+ nl (b +:+ nl ("---" +:+ r)))).
Proof.
  induction ws as [|c ws IH]; intros Hws.
  - rewrite app_nil_l_s. unfold nl at 1. cbn [after_dashes].
    replace (Py.is_newline Py.newline) with true by done.
    destruct (find_close_complete b r) as [x Hx]. rewrite Hx.
    destruct (if Py.is_space Py.newline then _ else _); by eexists.
  - simpl in Hws. apply andb_true_iff in Hws as [Hc Hws].
    rewrite app_cons_s. cbn [after_dashes]. rewrite Hc.
    destruct (IH Hws) as [x ->]. by eexists.
Qed.



(** ** The frontmatter parser *)

Section ParserFacts.
Variable safe_load : string -> yaml_outcome.

Lemma has_key_true (k : string) (d : record) : has_key k d = true <-> is_Some (d !! k).
Proof. unfold has_key. destruct (d !! k) as [v|]; split; done. Qed.

Lemma has_key_false (k : string) (d : record) : has_key k d = false <-> d !! k = None.
Proof. unfold has_key. by destruct (d !! k). Qed.

(** A block with an identifier gives a record, whatever else it holds. *)
Lemma parse_frontmatter_record (root : string) (f : file)
    (content block rest : string) (data : record) :
  f_text f = Some content ->
  Re.rmatch frontmatter_re content = Some (block, rest) ->
  safe_load block = Loaded (Mapping data) ->
  is_Some (data !! "id") ->
  exists r, parse_frontmatter safe_load root f = Ok (Some r)
            ∧ r !! "id" = data !! "id"
            ∧ r !! "_filepath" = Some (VStr (path_str root f))
            ∧ (forall k, k ≠ "_filepath" -> k ≠ "name" -> r !! k = data !! k).
Proof.
  intros Ht Hm Hl Hid. unfold parse_frontmatter. rewrite Ht, Hm, Hl.
  rewrite (proj2 (has_key_true "id" data) Hid).
  destruct (has_key "name" _); [|destruct (derive_name content f)];
    eexists; (split; [done|]);
    repeat (rewrite ?lookup_insert_eq; rewrite ?lookup_insert_ne by done);
    (split; [done|]); (split; [done|]); intros k H1 H2;
    by repeat (rewrite lookup_insert_ne by done).
Qed.

End ParserFacts.


(** *** Quantifiers in general, the heading and the identifier prefix *)

Lemma orelse_Some {A} (x y : option A) (r : A) :
  Re.orelse x y = Some r -> x = Some r \/ y = Some r.
Proof. destruct x; simpl; auto. Qed.

Lemma orelse_is_Some {A} (x y : option A) :
  is_Some x \/ is_Some y -> is_Some (Re.orelse x y).
Proof. destruct x; simpl; [by eauto|]. by intros [[? ?]|?]. Qed.

Lemma rep_unfold k p greedy lo hi prev g s :
  Re.rep k p greedy lo hi prev g s
  = let stop := match lo with 0 => k prev g s | S _ => None end in
    let more :=
      match s with
      | String c s' =>
          if p c && Re.may_take hi
          then Re.rep k p greedy (Nat.pred lo) (Nat.pred <$> hi) (Some c) (Re.push c g) s'
          else None
      | EmptyString => None
      end in
    if greedy then Re.orelse more stop else Re.orelse stop more.
Proof. by destruct s. Qed.

Lemma rep_sound k p greedy lo hi prev g s res :
  Re.rep k p greedy lo hi prev g s = Some res ->
  exists w s', s = w +:+ s' ∧ all_of p w = true ∧ lo <= String.length w
    ∧ within hi (String.length w)
    ∧ k (last_char prev w) (pushes w g) s' = Some res.
Proof.
  revert lo hi prev g. induction s as [|c s IH]; intros lo hi prev g; rewrite rep_unfold; cbv zeta.
  - intros H. assert (match lo with 0 => k prev g EmptyString | S _ => None end = Some res) as Hs.
    { destruct greedy; apply orelse_Some in H as [H|H]; done. }
    destruct lo; [|done]. exists EmptyString, EmptyString.
    repeat split; [simpl; lia|by destruct hi; simpl; lia|done].
  - intros H.
    assert (match lo with 0 => k prev g (String c s) | S _ => None end = Some res
            \/ (if p c && Re.may_take hi
                then Re.rep k p greedy (Nat.pred lo) (Nat.pred <$> hi) (Some c) (Re.push c g) s
                else None) = Some res) as [Hs|Hm].
    { destruct greedy; apply orelse_Some in H as [H|H]; auto. }
    + destruct lo; [|done]. exists EmptyString, (String c s).
      repeat split; [simpl; lia|by destruct hi; simpl; lia|done].
    + destruct (p c) eqn:Hc; [|done]. destruct (Re.may_take hi) eqn:Hh; [|done].
      simpl in Hm. apply IH in Hm as (w & s' & -> & Hw & Hlo & Hhi & Hk).
      exists (String c w), s'. repeat split.
      * simpl. by rewrite Hc.
      * simpl. lia.
      * destruct hi as [[|h]|]; simpl in *; [done|lia|done].
      * done.
Qed.

Lemma rep_complete k p greedy lo hi prev g w s' :
  all_of p w = true -> lo <= String.length w -> within hi (String.length w) ->
  is_Some (k (last_char prev w) (pushes w g) s') ->
  is_Some (Re.rep k p greedy lo hi prev g (w +:+ s')).
Proof.
  revert lo hi prev g. induction w as [|c w IH]; intros lo hi prev g Hw Hlo Hhi Hk;
    rewrite rep_unfold; cbv zeta.
  - simpl in Hlo. assert (lo = 0) as -> by lia. simpl in Hk.
    change (EmptyString +:+ s') with s'.
    destruct greedy; apply orelse_is_Some; auto.
  - simpl in Hw. apply andb_true_iff in Hw as [Hc Hw].
    change (String c w +:+ s') with (String c (w +:+ s')). cbv iota. rewrite Hc.
    assert (Re.may_take hi = true) as ->.
    { destruct hi as [[|h]|]; simpl in *; [lia|done|done]. }
    simpl andb. cbv iota.
    assert (is_Some (Re.rep k p greedy (Nat.pred lo) (Nat.pred <$> hi) (Some c)
                       (Re.push c g) (w +:+ s'))) as Hm.
    { apply IH; [done|simpl in Hlo; lia| |done].
      destruct hi as [[|h]|]; simpl in *; [lia|lia|done]. }
    destruct greedy; apply orelse_is_Some; auto.
Qed.

Lemma search_sound r prev s res :
  Re.search_from r prev s = Some res ->
  exists pre s', s = pre +:+ s' ∧ Re.run r (last_char prev pre) Re.NotOpen s' = Some res.
Proof.
  revert prev. induction s as [|c s IH]; intros prev; simpl.
  - destruct (Re.run r prev Re.NotOpen EmptyString) eqn:Hr; [|done].
    intros [= <-]. by exists EmptyString, EmptyString.
  - destruct (Re.run r prev Re.NotOpen (String c s)) eqn:Hr.
    + intros [= <-]. by exists EmptyString, (String c s).
    + intros (pre & s' & -> & H)%IH. by exists (String c pre), s'.
Qed.

Lemma search_complete r prev pre s' :
  is_Some (Re.run r (last_char prev pre) Re.NotOpen s') ->
  is_Some (Re.search_from r prev (pre +:+ s')).
Proof.
  revert prev. induction pre as [|c pre IH]; intros prev H.
  - change (EmptyString +:+ s') with s'. simpl in H. destruct H as [x Hx].
    destruct s'; simpl; rewrite Hx; by eexists.
  - change (String c pre +:+ s') with (String c (pre +:+ s')). simpl.
    destruct (Re.run r prev Re.NotOpen _); [by eexists|]. by apply IH.
Qed.

Lemma run_rep p lo hi gr r prev g s :
  Re.run (Re.Rep p lo hi gr :: r) prev g s = Re.rep (Re.run r) p gr lo hi prev g s.
Proof. reflexivity. Qed.
Lemma run_bol r prev g s :
  Re.run (Re.Bol :: r) prev g s = if Re.at_bol prev then Re.run r prev g s else None.
Proof. reflexivity. Qed.
Lemma run_eol r prev g s :
  Re.run (Re.Eol :: r) prev g s = if Re.at_eol s then Re.run r prev g s else None.
Proof. reflexivity. Qed.
Lemma run_group_open r prev g s :
  Re.run (Re.Open :: r) prev g s = Re.run r prev (Re.Opened EmptyString) s.
Proof. reflexivity. Qed.
Lemma run_group_close r prev acc s :
  Re.run (Re.Close :: r) prev (Re.Opened acc) s
  = Re.run r prev (Re.Closed (String.rev acc)) s.
Proof. reflexivity. Qed.

Lemma pushes_NotOpen (w : string) : pushes w Re.NotOpen = Re.NotOpen.
Proof. by induction w. Qed.

Lemma pushes_Opened (w acc : string) :
  pushes w (Re.Opened acc) = Re.Opened (String.rev_app w acc).
Proof. revert acc. induction w as [|c w IH]; intros acc; simpl; [done|]. apply IH. Qed.

Lemma rev_app_rev_app (a b c : string) :
  String.rev_app (String.rev_app a b) c = String.rev_app b (a +:+ c).
Proof.
  revert b c. induction a as [|x a IH]; intros b c; simpl; [done|].
  by rewrite IH.
Qed.

Lemma rev_rev_app (w : string) : String.rev (String.rev_app w EmptyString) = w.
Proof.
  unfold String.rev. rewrite rev_app_rev_app. simpl.
  induction w as [|x w IH]; [done|].
  change (String x w +:+ EmptyString) with (String x (w +:+ EmptyString)). by rewrite IH.
Qed.

Lemma length_pos (s : string) : 1 <= String.length s <-> s ≠ EmptyString.
Proof. destruct s; simpl; split; try done; lia. Qed.

Lemma heading_re_eq : heading_re = Re.Bol :: (Re.lit "##" ++ heading_tail).
Proof. reflexivity. Qed.

Lemma heading_run_sound prev s name after :
  Re.run heading_re prev Re.NotOpen s = Some (name, after) ->
  heading_at prev s name after.
Proof.
  rewrite heading_re_eq, run_bol. destruct (Re.at_bol prev) eqn:Hb; [|done].
  rewrite run_lit by done.
  destruct (strip_prefix "##" s) as [s1|] eqn:Hp; [|done].
  apply strip_prefix_Some in Hp as ->.
  unfold heading_tail, Re.plus, Re.lazy_star. rewrite run_rep.
  intros (ws1 & s2 & -> & Hws1 & Hl1 & _ & H)%rep_sound.
  rewrite pushes_NotOpen in H. unfold Re.one in H. rewrite run_rep, rep_one in H.
  destruct s2 as [|c2 s3]; [done|]. unfold Re.chr in H.
  destruct (Ascii.eqb_spec "[" c2) as [<-|]; [|done].
  rewrite run_rep in H. apply rep_sound in H as (x & s4 & -> & Hx & _ & _ & H).
  rewrite pushes_NotOpen in H. rewrite run_rep, rep_one in H.
  destruct s4 as [|c4 s5]; [done|].
  destruct (Ascii.eqb_spec "]" c4) as [<-|]; [|done].
  rewrite run_rep in H. apply rep_sound in H as (ws2 & s6 & -> & Hws2 & Hl2 & _ & H).
  rewrite pushes_NotOpen in H. rewrite run_group_open, run_rep in H.
  apply rep_sound in H as (nm & s7 & -> & Hnm & Hl3 & _ & H).
  rewrite pushes_Opened, run_group_close, run_eol in H.
  destruct (Re.at_eol s7) eqn:He; [|done].
  simpl in H. rewrite rev_rev_app in H. injection H as <- <-.
  exists ws1, x, ws2. apply length_pos in Hl1, Hl2, Hl3.
  repeat split; try done.
Qed.

Lemma heading_run_complete prev s name after :
  heading_at prev s name after ->
  is_Some (Re.run heading_re prev Re.NotOpen s).
Proof.
  intros (ws1 & x & ws2 & -> & Hb & Hn1 & Hws1 & Hx & Hn2 & Hws2 & Hn3 & Hnm & He).
  apply length_pos in Hn1, Hn2, Hn3.
  rewrite heading_re_eq, run_bol, Hb. rewrite run_lit by done.
  rewrite (proj2 (strip_prefix_Some "##" _
            (ws1 +:+ "[" +:+ x +:+ "]" +:+ ws2 +:+ name +:+ after))) by done.
  unfold heading_tail, Re.plus, Re.lazy_star, Re.one. rewrite run_rep.
  apply rep_complete; [done..|]. rewrite pushes_NotOpen.
  rewrite run_rep, rep_one.
  change ("[" +:+ x +:+ "]" +:+ ws2 +:+ name +:+ after)
    with (String "[" (x +:+ "]" +:+ ws2 +:+ name +:+ after)).
  cbv iota. unfold Re.chr at 1. rewrite Ascii.eqb_refl. rewrite run_rep.
  apply rep_complete; [done|simpl; lia|done|]. rewrite pushes_NotOpen.
  rewrite run_rep, rep_one.
  change ("]" +:+ ws2 +:+ name +:+ after) with (String "]" (ws2 +:+ name +:+ after)).
  cbv iota. unfold Re.chr at 1. rewrite Ascii.eqb_refl. rewrite run_rep.
  apply rep_complete; [done..|]. rewrite pushes_NotOpen.
  rewrite run_group_open, run_rep.
  apply rep_complete; [done..|].
  rewrite pushes_Opened, run_group_close, run_eol, He. by eexists.
Qed.

Lemma heading_search_sound content name after :
  Re.search heading_re content = Some (name, after) -> has_heading content name after.
Proof.
  intros (pre & s & -> & H)%search_sound. exists pre, s. split; [done|].
  by apply heading_run_sound.
Qed.

Lemma heading_search_complete content name after :
  has_heading content name after -> is_Some (Re.search heading_re content).
Proof.
  intros (pre & s & -> & H). apply search_complete. by eapply heading_run_complete.
Qed.

Lemma orelse_None_r {A} (x : option A) : Re.orelse x None = x.
Proof. by destruct x. Qed.

Lemma rep_greedy_fail k p lo prev g s :
  (forall prev' g' c s', p c = true -> k prev' g' (String c s') = None) ->
  (forall c, Re.push c g = g) ->
  Re.rep k p true lo None prev g s
  = if (lo <=? String.length (take_while p s))%nat
    then k (last_char prev (take_while p s)) g (drop_while p s) else None.
Proof.
  intros Hk Hg. revert lo prev. induction s as [|c s IH]; intros lo prev;
    rewrite rep_unfold; cbv zeta.
  - simpl. by destruct lo.
  - simpl take_while. simpl drop_while. destruct (p c) eqn:Hc.
    + simpl andb. cbv iota. rewrite Hg, IH.
      replace (match lo with 0 => k prev g (String c s) | S _ => None end)
        with (@None (string * string)) by (destruct lo; [by rewrite Hk|done]).
      rewrite orelse_None_r. simpl String.length. simpl last_char.
      by destruct lo.
    + simpl. by destruct lo.
Qed.

Lemma rep_greedy_total k p lo prev g s :
  (forall prev' g' s', is_Some (k prev' g' s')) ->
  (forall c, Re.push c g = g) ->
  Re.rep k p true lo None prev g s
  = if (lo <=? String.length (take_while p s))%nat
    then k (last_char prev (take_while p s)) g (drop_while p s) else None.
Proof.
  intros Hk Hg. revert lo prev. induction s as [|c s IH]; intros lo prev;
    rewrite rep_unfold; cbv zeta.
  - simpl. by destruct lo.
  - simpl take_while. simpl drop_while. destruct (p c) eqn:Hc.
    + simpl andb. cbv iota. rewrite Hg, IH. simpl String.length. simpl last_char.
      destruct lo as [|lo]; simpl Nat.pred.
      * simpl. by destruct (Hk (last_char (Some c) (take_while p s)) g (drop_while p s)) as [x ->].
      * change (S lo <=? S (String.length (take_while p s)))%nat
          with (lo <=? String.length (take_while p s))%nat.
        destruct (lo <=? String.length (take_while p s))%nat; [|done].
        by destruct (Hk (last_char (Some c) (take_while p s)) g (drop_while p s)) as [x ->].
    + simpl. by destruct lo.
Qed.

Lemma run_hyphen prev g s :
  Re.run hyphen_re prev g s
  = Some (Re.group1 g,
          match s with
          | String c s' => if Ascii.eqb "-" c then s' else s
          | EmptyString => EmptyString
          end).
Proof.
  unfold hyphen_re, Re.opt. rewrite run_rep, rep_unfold. cbv zeta.
  destruct s as [|c s]; [done|]. unfold Re.chr.
  destruct (Ascii.eqb "-" c); simpl andb; cbv iota; [|done].
  rewrite rep_unfold. cbv zeta.
  replace (match s with
           | String c0 s' =>
               if ("-" =? c0)%char && Re.may_take (Nat.pred <$> Some 1)
               then Re.rep (Re.run []) (Ascii.eqb "-") true (Nat.pred (Nat.pred 0))
                      (Nat.pred <$> (Nat.pred <$> Some 1)) (Some c0)
                      (Re.push c0 (Re.push c g)) s'
               else None
           | EmptyString => None
           end) with (@None (string * string))
    by (destruct s; [done|]; by rewrite andb_false_r).
  simpl. by destruct g.
Qed.

Lemma le_1_length (s : string) :
  (1 <=? String.length s)%nat = negb (String.eqb s EmptyString).
Proof. by destruct s. Qed.

Lemma run_digits prev g s :
  (forall c, Re.push c g = g) ->
  Re.run digits_re prev g s
  = if String.eqb (take_while Py.is_digit s) EmptyString then None
    else Some (Re.group1 g,
               match drop_while Py.is_digit s with
               | String c s' => if Ascii.eqb "-" c then s' else String c s'
               | EmptyString => EmptyString
               end).
Proof.
  intros Hg. unfold digits_re, Re.plus. rewrite run_rep.
  rewrite rep_greedy_total; [|intros; rewrite run_hyphen; by eexists|done].
  rewrite le_1_length. destruct (String.eqb _ _); [done|]. simpl negb. cbv iota.
  rewrite run_hyphen. by destruct (drop_while Py.is_digit s).
Qed.

Lemma dot_not_upper prev g c s r :
  Py.is_upper c = true -> Re.run (Re.one (Re.chr ".") :: r) prev g (String c s) = None.
Proof.
  intros Hc. unfold Re.one. rewrite run_rep, rep_one. unfold Re.chr.
  destruct (Ascii.eqb_spec "." c) as [<-|]; [|done]. by vm_compute in Hc.
Qed.

Lemma run_upper_dot (r : list Re.atom) prev g s :
  (forall c, Re.push c g = g) ->
  Re.run (Re.plus Py.is_upper :: Re.one (Re.chr ".") :: r) prev g s
  = if String.eqb (take_while Py.is_upper s) EmptyString then None
    else match drop_while Py.is_upper s with
         | String c s' => if Ascii.eqb "." c then Re.run r (Some c) g s' else None
         | EmptyString => None
         end.
Proof.
  intros Hg. unfold Re.plus. rewrite run_rep.
  rewrite rep_greedy_fail; [|intros; by apply dot_not_upper|done].
  rewrite le_1_length. destruct (String.eqb _ _); [done|]. simpl negb. cbv iota.
  unfold Re.one. rewrite run_rep, rep_one.
  destruct (drop_while Py.is_upper s) as [|c s']; [done|].
  unfold Re.chr. by rewrite Hg.
Qed.

Lemma id_prefix_re_eq : id_prefix_re = Re.Bos :: first_re.
Proof. reflexivity. Qed.

Lemma id_prefix_run (stem : string) :
  Re.rmatch id_prefix_re stem = (fun rest => (EmptyString, rest)) <$> strip_id stem.
Proof.
  unfold Re.rmatch. rewrite id_prefix_re_eq, run_bos. unfold first_re, strip_id.
  rewrite run_upper_dot by done.
  destruct (String.eqb (take_while Py.is_upper stem) EmptyString); [done|].
  destruct (drop_while Py.is_upper stem) as [|c2 s2]; [done|].
  destruct (Ascii.eqb "." c2); [|done].
  unfold second_re. rewrite run_upper_dot by done.
  destruct (String.eqb (take_while Py.is_upper s2) EmptyString); [done|].
  destruct (drop_while Py.is_upper s2) as [|c4 s4]; [done|].
  destruct (Ascii.eqb "." c4); [|done].
  rewrite run_digits by done.
  destruct (String.eqb (take_while Py.is_digit s4) EmptyString); [done|].
  destruct (drop_while Py.is_digit s4) as [|c6 s6]; [done|].
  by destruct (Ascii.eqb "-" c6).
Qed.

Lemma sub_start_id_prefix (stem : string) :
  Re.sub_start id_prefix_re stem = default stem (strip_id stem).
Proof. unfold Re.sub_start. rewrite id_prefix_run. by destruct (strip_id stem). Qed.

Lemma take_drop (p : ascii -> bool) (s : string) :
  s = take_while p s +:+ drop_while p s
  ∧ all_of p (take_while p s) = true
  ∧ starts_with p (drop_while p s) = false.
Proof.
  induction s as [|c s (IH1 & IH2 & IH3)]; simpl; [done|].
  destruct (p c) eqn:Hc; simpl; [|by rewrite Hc].
  rewrite Hc, IH2. split; [|done]. rewrite app_cons_s. by rewrite <- IH1.
Qed.

Lemma take_drop_unique (p : ascii -> bool) (w s : string) :
  all_of p w = true -> starts_with p s = false ->
  take_while p (w +:+ s) = w ∧ drop_while p (w +:+ s) = s.
Proof.
  intros Hw Hs. induction w as [|c w IH].
  - rewrite app_nil_l_s. destruct s as [|c s]; [done|]. simpl in *. by rewrite Hs.
  - simpl in Hw. apply andb_true_iff in Hw as [Hc Hw]. rewrite app_cons_s. simpl.
    rewrite Hc. destruct (IH Hw) as [-> ->]. done.
Qed.

Lemma eqb_empty_false (s : string) : s ≠ EmptyString -> String.eqb s EmptyString = false.
Proof. by destruct s. Qed.

Lemma strip_id_complete (stem slug : string) :
  id_prefixed stem slug -> strip_id stem = Some slug.
Proof.
  intros (a & b & d & h & -> & Ha & Hua & Hb & Hub & Hd & Hdd & Hnd & Hh).
  unfold strip_id.
  destruct (take_drop_unique Py.is_upper a ("." +:+ b +:+ "." +:+ d +:+ h +:+ slug) Hua eq_refl)
    as [-> ->].
  rewrite (eqb_empty_false a Ha).
  change ("." +:+ b +:+ "." +:+ d +:+ h +:+ slug)
    with (String "." (b +:+ "." +:+ d +:+ h +:+ slug)). cbv iota.
  rewrite Ascii.eqb_refl.
  destruct (take_drop_unique Py.is_upper b ("." +:+ d +:+ h +:+ slug) Hub eq_refl)
    as [-> ->].
  rewrite (eqb_empty_false b Hb).
  change ("." +:+ d +:+ h +:+ slug) with (String "." (d +:+ h +:+ slug)). cbv iota.
  rewrite Ascii.eqb_refl.
  destruct (take_drop_unique Py.is_digit d (h +:+ slug) Hdd Hnd) as [-> ->].
  rewrite (eqb_empty_false d Hd).
  destruct Hh as [->|[-> Hs]].
  - change ("-" +:+ slug) with (String "-" slug). cbv iota. by rewrite Ascii.eqb_refl.
  - rewrite app_nil_l_s. destruct slug as [|c s]; [done|].
    unfold starts_with in Hs. by rewrite Hs.
Qed.

Lemma eqb_empty_true (s : string) : String.eqb s EmptyString = false -> s ≠ EmptyString.
Proof. by destruct s. Qed.

Lemma strip_id_sound (stem slug : string) :
  strip_id stem = Some slug -> id_prefixed stem slug.
Proof.
  unfold strip_id.
  destruct (take_drop Py.is_upper stem) as (E1 & U1 & _).
  destruct (String.eqb (take_while Py.is_upper stem) EmptyString) eqn:N1; [done|].
  destruct (drop_while Py.is_upper stem) as [|c2 s2]; [done|].
  destruct (Ascii.eqb_spec "." c2) as [<-|]; [|done].
  destruct (take_drop Py.is_upper s2) as (E2 & U2 & _).
  destruct (String.eqb (take_while Py.is_upper s2) EmptyString) eqn:N2; [done|].
  destruct (drop_while Py.is_upper s2) as [|c4 s4]; [done|].
  destruct (Ascii.eqb_spec "." c4) as [<-|]; [|done].
  destruct (take_drop Py.is_digit s4) as (E3 & U3 & S3).
  destruct (String.eqb (take_while Py.is_digit s4) EmptyString) eqn:N3; [done|].
  apply eqb_empty_true in N1, N2, N3.
  destruct (drop_while Py.is_digit s4) as [|c6 s6] eqn:D3.
  - intros [= <-].
    exists (take_while Py.is_upper stem), (take_while Py.is_upper s2),
           (take_while Py.is_digit s4), EmptyString.
    repeat split; try done; [|by right].
    rewrite E1 at 1. rewrite E2 at 1. by rewrite E3 at 1.
  - destruct (Ascii.eqb_spec "-" c6) as [<-|Hne].
    + intros [= <-].
      exists (take_while Py.is_upper stem), (take_while Py.is_upper s2),
             (take_while Py.is_digit s4), "-".
      repeat split; try done; [|by left].
      rewrite E1 at 1. rewrite E2 at 1. by rewrite E3 at 1.
    + intros [= <-].
      exists (take_while Py.is_upper stem), (take_while Py.is_upper s2),
             (take_while Py.is_digit s4), EmptyString.
      repeat split; try done.
      * rewrite E1 at 1. rewrite E2 at 1. by rewrite E3 at 1.
      * right. split; [done|]. unfold starts_with. by apply Ascii.eqb_neq.
Qed.

(** *** The first match, the shortest and the longest repetition *)

Lemma all_of_app (p : ascii -> bool) (a b : string) :
  all_of p (a +:+ b) = all_of p a && all_of p b.
Proof.
  induction a as [|x a IH]; [done|]. rewrite app_cons_s. cbn [all_of].
  by rewrite IH, andb_assoc.
Qed.

Lemma app_split_le (a b c d : string) :
  a +:+ b = c +:+ d -> String.length a <= String.length c ->
  exists e, c = a +:+ e ∧ b = e +:+ d.
Proof.
  revert c. induction a as [|x a IH]; intros c H Hlen.
  - exists c. by rewrite app_nil_l_s in H |- *.
  - destruct c as [|y c]; [simpl in Hlen; lia|].
    rewrite !app_cons_s in H. injection H as -> H.
    destruct (IH c H) as (e & -> & ->); [simpl in Hlen; lia|].
    exists e. by rewrite app_cons_s.
Qed.

Lemma app_split_lt (a b c d : string) :
  a +:+ b = c +:+ d -> String.length a < String.length c ->
  exists e, e ≠ EmptyString ∧ c = a +:+ e ∧ b = e +:+ d.
Proof.
  intros H Hlen. destruct (app_split_le a b c d H) as (e & -> & ->); [lia|].
  exists e. split; [|done]. intros ->. rewrite app_nil_r_s in Hlen. lia.
Qed.

Lemma app_eq_length (a b c d : string) :
  a +:+ b = c +:+ d -> String.length a = String.length c -> a = c ∧ b = d.
Proof.
  intros H Hlen. destruct (app_split_le a b c d H) as (e & -> & ->); [lia|].
  assert (String.length e = 0) as He.
  { clear H. induction a as [|x a IH]; [by rewrite app_nil_l_s in Hlen|].
    rewrite app_cons_s in Hlen. simpl in Hlen. apply IH. lia. }
  destruct e; [|done]. by rewrite app_nil_r_s, app_nil_l_s.
Qed.

Lemma app_inv_head_s (a b c : string) : a +:+ b = a +:+ c -> b = c.
Proof.
  induction a as [|x a IH]; [done|]. rewrite !app_cons_s. intros [= H]. by apply IH.
Qed.

Lemma search_first r prev s res :
  Re.search_from r prev s = Some res ->
  exists pre s', s = pre +:+ s'
    ∧ Re.run r (last_char prev pre) Re.NotOpen s' = Some res
    ∧ forall pre1 pre2, pre = pre1 +:+ pre2 -> pre2 ≠ EmptyString ->
        Re.run r (last_char prev pre1) Re.NotOpen (pre2 +:+ s') = None.
Proof.
  revert prev. induction s as [|c s IH]; intros prev; simpl.
  - destruct (Re.run r prev Re.NotOpen EmptyString) eqn:Hr; [|done].
    intros [= <-]. exists EmptyString, EmptyString. split; [done|]. split; [done|].
    intros [|? ?] [|? ?]; done.
  - destruct (Re.run r prev Re.NotOpen (String c s)) eqn:Hr.
    + intros [= <-]. exists EmptyString, (String c s). split; [done|]. split; [done|].
      intros [|? ?] [|? ?]; done.
    + intros (pre & s' & -> & H & Hmin)%IH. exists (String c pre), s'.
      split; [done|]. split; [done|]. intros [|x pre1] pre2 Heq Hne.
      * rewrite app_nil_l_s in Heq. subst pre2. by rewrite app_cons_s.
      * rewrite app_cons_s in Heq. injection Heq as <- ->. by apply Hmin.
Qed.

(** A lazy star stops at the first place where the rest matches. *)
Lemma rep_lazy_min k p prev g s res :
  Re.rep k p false 0 None prev g s = Some res ->
  exists w s', s = w +:+ s' ∧ all_of p w = true
    ∧ k (last_char prev w) (pushes w g) s' = Some res
    ∧ forall w1 w2, w = w1 +:+ w2 -> w2 ≠ EmptyString ->
        k (last_char prev w1) (pushes w1 g) (w2 +:+ s') = None.
Proof.
  revert prev g. induction s as [|c s IH]; intros prev g.
  - rewrite rep_star_nil. intros H. exists EmptyString, EmptyString.
    split; [done|]. split; [done|]. split; [done|]. intros [|? ?] [|? ?]; done.
  - rewrite rep_star_lazy. destruct (k prev g (String c s)) eqn:Hk; simpl.
    + intros [= <-]. exists EmptyString, (String c s).
      split; [done|]. split; [done|]. split; [done|]. intros [|? ?] [|? ?]; done.
    + destruct (p c) eqn:Hc; [|done].
      intros (w & s' & -> & Hw & Hres & Hmin)%IH. exists (String c w), s'.
      split; [done|]. split; [by simpl; rewrite Hc|]. split; [done|].
      intros [|x w1] w2 Heq Hne.
      * rewrite app_nil_l_s in Heq. subst w2. by rewrite app_cons_s.
      * rewrite app_cons_s in Heq. injection Heq as <- ->. by apply Hmin.
Qed.

(** A greedy repetition without upper bound stops at the last place
    where the rest matches. *)
Lemma rep_greedy_max k p lo prev g s res :
  Re.rep k p true lo None prev g s = Some res ->
  exists w s', s = w +:+ s' ∧ all_of p w = true ∧ lo <= String.length w
    ∧ k (last_char prev w) (pushes w g) s' = Some res
    ∧ forall w2 s2, s' = w2 +:+ s2 -> w2 ≠ EmptyString -> all_of p w2 = true ->
        k (last_char prev (w +:+ w2)) (pushes (w +:+ w2) g) s2 = None.
Proof.
  revert lo prev g. induction s as [|c s IH]; intros lo prev g;
    rewrite rep_unfold; cbv zeta.
  - simpl. destruct lo; [|done]. intros H. exists EmptyString, EmptyString.
    split; [done|]. split; [done|]. split; [done|]. split; [done|].
    intros [|? ?] s2; done.
  - destruct (p c) eqn:Hc; simpl andb; cbv iota.
    + destruct (Re.rep k p true (Nat.pred lo) (Nat.pred <$> None) (Some c)
                  (Re.push c g) s) eqn:Hmore; simpl.
      * intros [= <-]. apply IH in Hmore as (w & s' & -> & Hw & Hlo & Hres & Hmax).
        exists (String c w), s'. split; [done|]. split; [by simpl; rewrite Hc|].
        split; [simpl; lia|]. split; [done|]. intros w2 s2 Heq Hne Hw2.
        rewrite app_cons_s. by apply Hmax.
      * destruct lo; [|done]. intros Hk. exists EmptyString, (String c s).
        split; [done|]. split; [done|]. split; [done|]. split; [done|].
        intros [|x w2] s2 Heq Hne Hw2; [done|].
        rewrite app_cons_s in Heq. injection Heq as <- ->. rewrite app_nil_l_s.
        simpl in Hw2. apply andb_true_iff in Hw2 as [_ Hw2].
        destruct (k (last_char prev (String c w2)) (pushes (String c w2) g) s2) eqn:Hk2;
          [|done].
        destruct (rep_complete k p true 0 None (Some c) (Re.push c g) w2 s2 Hw2)
          as [y Hy]; [simpl; lia|done|by eexists|].
        simpl in Hmore. congruence.
    + simpl. destruct lo; [|done]. intros Hk. exists EmptyString, (String c s).
      split; [done|]. split; [done|]. split; [done|]. split; [done|].
      intros [|x w2] s2 Heq Hne Hw2; [done|].
      rewrite app_cons_s in Heq. injection Heq as <- ->.
      simpl in Hw2. rewrite Hc in Hw2. done.
Qed.

Lemma heading_tail_eq :
  heading_tail
  = Re.plus Py.is_space :: Re.one (Re.chr "[") :: Re.lazy_star Re.dot :: bracket_tail.
Proof. reflexivity. Qed.

Lemma bracket_tail_eq :
  bracket_tail = Re.one (Re.chr "]") :: Re.plus Py.is_space :: name_tail.
Proof. reflexivity. Qed.

Lemma name_tail_complete prev g name after :
  name ≠ EmptyString -> all_of Re.dot name = true -> Re.at_eol after = true ->
  is_Some (Re.run name_tail prev g (name +:+ after)).
Proof.
  intros Hne Hn He. apply length_pos in Hne.
  unfold name_tail, Re.plus. rewrite run_group_open, run_rep.
  apply rep_complete; [done..|].
  rewrite pushes_Opened, run_group_close, run_eol, He. by eexists.
Qed.

Lemma bracket_tail_complete prev g ws2 name after :
  ws2 ≠ EmptyString -> all_of Py.is_space ws2 = true ->
  name ≠ EmptyString -> all_of Re.dot name = true -> Re.at_eol after = true ->
  is_Some (Re.run bracket_tail prev g ("]" +:+ ws2 +:+ name +:+ after)).
Proof.
  intros Hne Hws Hn1 Hn He. apply length_pos in Hne.
  rewrite bracket_tail_eq. unfold Re.one, Re.plus. rewrite run_rep, rep_one.
  change ("]" +:+ ws2 +:+ name +:+ after) with (String "]" (ws2 +:+ name +:+ after)).
  cbv iota. unfold Re.chr at 1. rewrite Ascii.eqb_refl, run_rep.
  apply rep_complete; [done..|]. by apply name_tail_complete.
Qed.

Lemma at_eol_not_dot (after : string) :
  Re.at_eol after = true -> starts_with Re.dot after = false.
Proof. destruct after as [|c after]; [done|]. simpl. unfold Re.dot. by intros ->. Qed.

Lemma space_prefix_unique (ws ws' s s' : string) :
  all_of Py.is_space ws = true -> all_of Py.is_space ws' = true ->
  ws +:+ "[" +:+ s = ws' +:+ "[" +:+ s' -> ws = ws' ∧ s = s'.
Proof.
  intros Hws Hws' Heq.
  destruct (take_drop_unique Py.is_space ws ("[" +:+ s) Hws eq_refl) as [H1 H2].
  destruct (take_drop_unique Py.is_space ws' ("[" +:+ s') Hws' eq_refl) as [H3 H4].
  rewrite Heq in H1, H2. rewrite H3 in H1. rewrite H4 in H2.
  split; [done|]. by injection H2.
Qed.

(** The parts of the heading that the pattern reads at the cursor. *)
Lemma heading_run_first prev s name after :
  Re.run heading_re prev Re.NotOpen s = Some (name, after) ->
  exists ws1 x ws2,
    heading_parts prev s ws1 x ws2 name after
    ∧ forall ws1' x' ws2' name' after',
        heading_parts prev s ws1' x' ws2' name' after' ->
        String.length x <= String.length x'
        ∧ (String.length x' = String.length x ->
           String.length ws2' <= String.length ws2).
Proof.
  rewrite heading_re_eq, run_bol. destruct (Re.at_bol prev) eqn:Hb; [|done].
  rewrite run_lit by done.
  destruct (strip_prefix "##" s) as [s1|] eqn:Hp; [|done].
  apply strip_prefix_Some in Hp as ->.
  rewrite heading_tail_eq. unfold Re.plus at 1, Re.lazy_star, Re.one at 1. rewrite run_rep.
  intros (ws1 & s2 & -> & Hws1 & Hl1 & _ & H)%rep_sound.
  rewrite pushes_NotOpen, run_rep, rep_one in H.
  destruct s2 as [|c2 s3]; [done|]. unfold Re.chr at 1 in H.
  destruct (Ascii.eqb_spec "[" c2) as [<-|]; [|done].
  rewrite run_rep in H. cbn [Re.push] in H.
  apply rep_lazy_min in H as (x & s4 & -> & Hx & H & Hmin).
  rewrite pushes_NotOpen in H. rewrite bracket_tail_eq in H.
  unfold Re.one, Re.plus at 1 in H. rewrite run_rep, rep_one in H.
  destruct s4 as [|c4 s5]; [done|]. unfold Re.chr at 1 in H.
  destruct (Ascii.eqb_spec "]" c4) as [<-|]; [|done].
  rewrite run_rep in H. cbn [Re.push] in H.
  apply rep_greedy_max in H as (ws2 & s6 & -> & Hws2 & Hl2 & H & Hmax).
  rewrite pushes_NotOpen in H.
  unfold name_tail, Re.plus in H. rewrite run_group_open, run_rep in H.
  apply rep_sound in H as (nm & s7 & -> & Hnm & Hl3 & _ & H).
  rewrite pushes_Opened, run_group_close, run_eol in H.
  destruct (Re.at_eol s7) eqn:He; [|done].
  simpl in H. rewrite rev_rev_app in H. injection H as <- <-.
  apply length_pos in Hl1, Hl2, Hl3.
  exists ws1, x, ws2. split; [by repeat split|].
  intros ws1' x' ws2' name' after'
    (Heq & _ & Hn1' & Hws1' & Hx' & Hn2' & Hws2' & Hn3' & Hnm' & He').
  apply app_inv_head_s in Heq.
  apply (space_prefix_unique ws1 ws1') in Heq as [<- Heq]; [|done..].
  assert (String.length x <= String.length x') as Hle.
  { destruct (le_lt_dec (String.length x) (String.length x')) as [?|Hlt]; [done|].
    symmetry in Heq. apply app_split_lt in Heq as (e & Hne & -> & Hrest); [|done].
    specialize (Hmin x' e eq_refl Hne). rewrite pushes_NotOpen in Hmin.
    rewrite <- Hrest in Hmin.
    destruct (bracket_tail_complete (last_char (Some "["%char) x') Re.NotOpen
                ws2' name' after') as [y Hy]; [done..|].
    congruence. }
  split; [done|]. intros Hlen.
  destruct (app_eq_length _ _ _ _ Heq (eq_sym Hlen)) as [_ Heq2]. clear Heq.
  injection Heq2 as Heq. rewrite ?app_nil_l_s in Heq.
  destruct (le_lt_dec (String.length ws2') (String.length ws2)) as [?|Hlt]; [done|].
  apply app_split_lt in Heq as (e & Hne & -> & Hrest); [|done].
  rewrite all_of_app in Hws2'. apply andb_true_iff in Hws2' as [_ Hwe].
  specialize (Hmax e (name' +:+ after') Hrest Hne Hwe). rewrite pushes_NotOpen in Hmax.
  destruct (name_tail_complete
              (last_char (Some "]"%char) (ws2 +:+ e)) Re.NotOpen name' after')
    as [y Hy]; [done..|].
  congruence.
Qed.

Lemma heading_parts_at prev s ws1 x ws2 name after :
  heading_parts prev s ws1 x ws2 name after -> heading_at prev s name after.
Proof. intros H. by exists ws1, x, ws2. Qed.

Lemma heading_search_first content name after :
  Re.search heading_re content = Some (name, after) -> first_heading content name after.
Proof.
  intros (pre & s & -> & H & Hmin)%search_first.
  apply heading_run_first in H as (ws1 & x & ws2 & Hparts & Hprio).
  exists pre, s, ws1, x, ws2. split; [done|]. split; [done|]. split; [|done].
  intros pre' s' name' after' Heq Hlen Hat. symmetry in Heq.
  apply app_split_lt in Heq as (e & Hne & -> & ->); [|done].
  destruct (heading_run_complete _ _ _ _ Hat) as [y Hy].
  by rewrite (Hmin pre' e eq_refl Hne) in Hy.
Qed.

(** The first heading is one heading: its name and what follows are
    determined by the text. *)
Lemma first_heading_unique content name after name' after' :
  first_heading content name after -> first_heading content name' after' ->
  name = name' ∧ after = after'.
Proof.
  intros (pre & s & ws1 & x & ws2 & -> & Hp & Hfirst & Hprio)
         (pre' & s' & ws1' & x' & ws2' & Heq & Hp' & Hfirst' & Hprio').
  assert (String.length pre = String.length pre') as Hlen.
  { destruct (lt_eq_lt_dec (String.length pre) (String.length pre')) as [[Hlt|?]|Hlt];
      [|done|].
    - destruct (Hfirst' pre s name after eq_refl Hlt). by eapply heading_parts_at.
    - destruct (Hfirst pre' s' name' after' Heq Hlt). by eapply heading_parts_at. }
  apply app_eq_length in Heq as [<- <-]; [|done].
  destruct (Hprio _ _ _ _ _ Hp') as [Hx1 Hw1].
  destruct (Hprio' _ _ _ _ _ Hp) as [Hx2 Hw2].
  assert (String.length x = String.length x') as Hx by lia.
  assert (String.length ws2 = String.length ws2') as Hw by (specialize (Hw1 (eq_sym Hx));
    specialize (Hw2 Hx); lia).
  destruct Hp as (Hs & _ & _ & Hws1 & _ & _ & _ & _ & Hnm & He).
  destruct Hp' as (Hs' & _ & _ & Hws1' & _ & _ & _ & _ & Hnm' & He').
  rewrite Hs in Hs'. apply app_inv_head_s in Hs'.
  apply (space_prefix_unique ws1 ws1') in Hs' as [_ Hs']; [|done..].
  apply app_eq_length in Hs' as [_ Hs']; [|done].
  injection Hs' as Hs'. rewrite ?app_nil_l_s in Hs'.
  apply app_eq_length in Hs' as [_ Hs']; [|done].
  destruct (take_drop_unique Re.dot name after Hnm (at_eol_not_dot _ He)) as [H1 H2].
  destruct (take_drop_unique Re.dot name' after' Hnm' (at_eol_not_dot _ He')) as [H3 H4].
  rewrite Hs' in H1, H2. split; congruence.
Qed.

Lemma first_heading_search content name after :
  first_heading content name after -> Re.search heading_re content = Some (name, after).
Proof.
  intros Hf.
  assert (has_heading content name after) as Hh.
  { destruct Hf as (pre & s & ws1 & x & ws2 & -> & Hp & _).
    exists pre, s. split; [done|]. by eapply heading_parts_at. }
  destruct (heading_search_complete _ _ _ Hh) as [[name' after'] Hs].
  destruct (first_heading_unique _ _ _ _ _ Hf (heading_search_first _ _ _ Hs)) as [-> ->].
  done.
Qed.

(** ** The name of a record without one *)

Lemma id_prefixed_strip_id (stem slug : string) :
  id_prefixed stem slug <-> strip_id stem = Some slug.
Proof. split; [apply strip_id_complete|apply strip_id_sound]. Qed.

Section NameFacts.
Variable safe_load : string -> yaml_outcome.

Lemma parse_frontmatter_name (root : string) (f : file)
    (content block rest : string) (data : record) :
  f_text f = Some content ->
  Re.rmatch frontmatter_re content = Some (block, rest) ->
  safe_load block = Loaded (Mapping data) ->
  is_Some (data !! "id") ->
  data !! "name" = None ->
  exists r, parse_frontmatter safe_load root f = Ok (Some r)
            ∧ r !! "name" = VStr <$> derive_name content f.
Proof.
  intros Ht Hm Hl Hid Hname. unfold parse_frontmatter. rewrite Ht, Hm, Hl.
  rewrite (proj2 (has_key_true "id" data) Hid).
  assert (has_key "name" (<["_filepath":=VStr (path_str root f)]> data) = false) as ->.
  { apply has_key_false. by rewrite lookup_insert_ne. }
  destruct (derive_name content f) as [name|]; eexists; (split; [done|]); simpl.
  - by rewrite lookup_insert_eq.
  - by rewrite lookup_insert_ne.
Qed.

(** C7, as the code has it.  For a document with a block that has an
    identifier and no name: when the text has a heading (at the start of
    a line two hashes, white space, a bracketed text, white space, and a
    name up to the end of the line), the name is the captured text of
    the first heading without its outer white space.  The first heading
    is the one the pattern finds: no place of the text before it has a
    heading, the bracketed text is the shortest that leaves a heading,
    and the white space before the name the longest; there is one such
    heading, and the pattern finds exactly it.  Otherwise the name
    comes from the file stem: the stem after its identifier prefix, or
    the whole stem when it has none, with hyphens turned into blanks and
    title-cased; and when nothing is left of the stem after the prefix,
    the record gets no name at all. *)
Theorem derived_name (root : string) (f : file)
    (content block rest : string) (data : record) :
  f_text f = Some content ->
  Re.rmatch frontmatter_re content = Some (block, rest) ->
  safe_load block = Loaded (Mapping data) ->
  is_Some (data !! "id") ->
  data !! "name" = None ->
  exists r, parse_frontmatter safe_load root f = Ok (Some r)
    ∧ (forall heading after,
          Re.search heading_re content = Some (heading, after) ->
          has_heading content heading after
          ∧ first_heading content heading after
          ∧ r !! "name" = Some (VStr (Py.strip heading)))
    ∧ (forall heading after,
          first_heading content heading after ->
          Re.search heading_re content = Some (heading, after))
    ∧ (forall heading after,
          has_heading content heading after -> is_Some (Re.search heading_re content))
    ∧ (Re.search heading_re content = None ->
       (forall slug, id_prefixed (Py.stem (f_name f)) slug -> slug ≠ EmptyString ->
          r !! "name" = Some (VStr (Py.title (Py.replace "-" " " slug))))
       ∧ (id_prefixed (Py.stem (f_name f)) EmptyString -> r !! "name" = None)
       ∧ ((forall slug, ¬ id_prefixed (Py.stem (f_name f)) slug) ->
          Py.stem (f_name f) ≠ EmptyString ->
          r !! "name"
          = Some (VStr (Py.title (Py.replace "-" " " (Py.stem (f_name f))))))).
Proof.
  intros Ht Hm Hl Hid Hname.
  destruct (parse_frontmatter_name root f content block rest data Ht Hm Hl Hid Hname)
    as (r & Hr & Hn).
  exists r. split; [done|]. unfold derive_name in Hn. split; [|split; [|split]].
  - intros heading after Hs. split; [by apply heading_search_sound|].
    split; [by apply heading_search_first|]. by rewrite Hn, Hs.
  - intros heading after. apply first_heading_search.
  - intros heading after. apply heading_search_complete.
  - intros Hs. rewrite Hs, sub_start_id_prefix in Hn. split; [|split].
    + intros slug Hp%id_prefixed_strip_id Hne. rewrite Hn, Hp. simpl.
      by rewrite (eqb_empty_false slug Hne).
    + intros Hp%id_prefixed_strip_id. by rewrite Hn, Hp.
    + intros Hno Hne. rewrite Hn.
      destruct (strip_id (Py.stem (f_name f))) as [slug|] eqn:Hp.
      * by apply id_prefixed_strip_id, Hno in Hp.
      * simpl. by rewrite (eqb_empty_false _ Hne).
Qed.
End NameFacts.

(** The example of the specification: the method DP.M.001 in the file
    DP.M.001-knowledge-extraction.md, with no name and no heading. *)
Example knowledge_extraction_name :
  parse_frontmatter sample_yaml "/packs/dp" method_file
  = Ok (Some (list_to_map
      [("id", VStr "DP.M.001");
       ("_filepath", VStr "/packs/dp/03-methods/DP.M.001-knowledge-extraction.md");
       ("name", VStr "Knowledge Extraction")]))
  ∧ parse_frontmatter sample_yaml "/packs/dp" headed_method_file
  = Ok (Some (list_to_map
      [("id", VStr "DP.M.001");
       ("_filepath", VStr "/packs/dp/03-methods/DP.M.001-knowledge-extraction.md");
       ("name", VStr "Extraction of Knowledge")])).
Proof. split; vm_compute; reflexivity. Qed.

(** C7, as the specification has it, fails at the file DP.M.001.md:
    nothing is left of the stem after the identifier, the title-cased
    text would be empty, and the record has no name field. *)
Lemma bare_identifier_file_has_no_name :
  Re.search heading_re (doc "id: DP.M.001" "Text of the method") = None
  ∧ Py.title (Py.replace "-" " " (Re.sub_start id_prefix_re (Py.stem "DP.M.001.md")))
    = EmptyString
  ∧ parse_frontmatter sample_yaml "/packs/dp" bare_method_file
    = Ok (Some (list_to_map
        [("id", VStr "DP.M.001");
         ("_filepath", VStr "/packs/dp/03-methods/DP.M.001.md")]))
  ∧ (list_to_map
       [("id", VStr "DP.M.001");
        ("_filepath", VStr "/packs/dp/03-methods/DP.M.001.md")] : record) !! "name" = None.
Proof. repeat split; vm_compute; reflexivity. Qed.

(** The name of the method of [method_file]. *)
Lemma derived_name_witness :
  f_text method_file = Some (doc "id: DP.M.001" "Text of the method")
  ∧ Re.rmatch frontmatter_re (doc "id: DP.M.001" "Text of the method")
    = Some ("id: DP.M.001", nl "Text of the method")
  ∧ sample_yaml "id: DP.M.001" = Loaded (Mapping (list_to_map [("id", VStr "DP.M.001")]))
  ∧ is_Some ((list_to_map [("id", VStr "DP.M.001")] : record) !! "id")
  ∧ (list_to_map [("id", VStr "DP.M.001")] : record) !! "name" = None
  ∧ exists r, parse_frontmatter sample_yaml "/packs/dp" method_file = Ok (Some r)
    ∧ (forall heading after,
          Re.search heading_re (doc "id: DP.M.001" "Text of the method")
          = Some (heading, after) ->
          has_heading (doc "id: DP.M.001" "Text of the method") heading after
          ∧ first_heading (doc "id: DP.M.001" "Text of the method") heading after
          ∧ r !! "name" = Some (VStr (Py.strip heading)))
    ∧ (forall heading after,
          first_heading (doc "id: DP.M.001" "Text of the method") heading after ->
          Re.search heading_re (doc "id: DP.M.001" "Text of the method")
          = Some (heading, after))
    ∧ (forall heading after,
          has_heading (doc "id: DP.M.001" "Text of the method") heading after ->
          is_Some (Re.search heading_re (doc "id: DP.M.001" "Text of the method")))
    ∧ (Re.search heading_re (doc "id: DP.M.001" "Text of the method") = None ->
       (forall slug, id_prefixed (Py.stem (f_name method_file)) slug ->
          slug ≠ EmptyString ->
          r !! "name" = Some (VStr (Py.title (Py.replace "-" " " slug))))
       ∧ (id_prefixed (Py.stem (f_name method_file)) EmptyString -> r !! "name" = None)
       ∧ ((forall slug, ¬ id_prefixed (Py.stem (f_name method_file)) slug) ->
          Py.stem (f_name method_file) ≠ EmptyString ->
          r !! "name"
          = Some (VStr (Py.title (Py.replace "-" " " (Py.stem (f_name method_file))))))).
Proof.
  assert (f_text method_file = Some (doc "id: DP.M.001" "Text of the method")) as H1
    by reflexivity.
  assert (Re.rmatch frontmatter_re (doc "id: DP.M.001" "Text of the method")
          = Some ("id: DP.M.001", nl "Text of the method")) as H2
    by (vm_compute; reflexivity).
  assert (sample_yaml "id: DP.M.001"
          = Loaded (Mapping (list_to_map [("id", VStr "DP.M.001")]))) as H3
    by (vm_compute; reflexivity).
  assert (is_Some ((list_to_map [("id", VStr "DP.M.001")] : record) !! "id")) as H4
    by (vm_compute; by eexists).
  assert ((list_to_map [("id", VStr "DP.M.001")] : record) !! "name" = None) as H5
    by (vm_compute; reflexivity).
  split; [exact H1|]. split; [exact H2|]. split; [exact H3|]. split; [exact H4|].
  split; [exact H5|].
  exact (derived_name sample_yaml "/packs/dp" method_file _ _ _ _ H1 H2 H3 H4 H5).
Defined.

(** The first heading wins, its bracketed text is the shortest, and the
    white space before the name may run over the end of a line. *)
Example first_heading_choice :
  Re.search heading_re ("Text" +:+ nl ("## [a] b] c" +:+ nl "## [d] e"))
    = Some ("b] c", nl "## [d] e")
  ∧ Re.search heading_re ("## [a] " +:+ nl ("Name" +:+ nl "Text"))
    = Some ("Name", nl "Text").
Proof. split; vm_compute; reflexivity. Qed.

(** ** The domain detector *)

Section DomainFacts.
Variable safe_load : string -> yaml_outcome.

Lemma bind_Ok {A B} (a : A) (f : A -> result B) : Ok a ≫= f = f a.
Proof. reflexivity. Qed.

Lemma domain_walk_cons (root : string) (f : file) (rest : list file) :
  domain_walk safe_load root (f :: rest)
  = if Py.startswith "_" (f_name f) || String.eqb (f_name f) manifest_name
    then domain_walk safe_load root rest
    else
      parse_frontmatter safe_load root f ≫= fun fm =>
      match fm with
      | Some fm =>
          match fm !! "id" with
          | Some (VStr s) =>
              if (2 <=? length (Py.split "." s))%nat
              then Ok (Some (nth 0 (Py.split "." s) EmptyString))
              else domain_walk safe_load root rest
          | Some _ => Raise
          | None => domain_walk safe_load root rest
          end
      | None => domain_walk safe_load root rest
      end.
Proof. reflexivity. Qed.

Lemma domain_walk_skip (root : string) (before rest : list file) :
  (forall f, f ∈ before -> candidate f = true -> gives_no_domain safe_load root f) ->
  domain_walk safe_load root (before ++ rest) = domain_walk safe_load root rest.
Proof.
  induction before as [|f before IH]; intros Hall; [done|].
  assert (domain_walk safe_load root (before ++ rest) = domain_walk safe_load root rest)
    as IH' by (apply IH; intros f' Hf'; apply Hall; by right).
  rewrite <- app_comm_cons, domain_walk_cons. unfold candidate in Hall.
  destruct (Py.startswith "_" (f_name f) || String.eqb (f_name f) manifest_name) eqn:Hc;
    [done|].
  destruct (Hall f) as [Hn|(r & s & Hr & Hid & Hlen)]; [left|by rewrite Hc| |].
  - by rewrite Hn, bind_Ok.
  - rewrite Hr, bind_Ok, Hid. by rewrite (proj2 (Nat.leb_gt _ _) Hlen).
Qed.

Lemma domain_walk_found (root : string) (f : file) (rest : list file)
    (r : record) (s : string) :
  candidate f = true ->
  parse_frontmatter safe_load root f = Ok (Some r) ->
  r !! "id" = Some (VStr s) ->
  2 <= length (Py.split "." s) ->
  domain_walk safe_load root (f :: rest) = Ok (Some (nth 0 (Py.split "." s) EmptyString)).
Proof.
  intros Hc Hr Hid Hlen. rewrite domain_walk_cons.
  unfold candidate in Hc. apply negb_true_iff in Hc.
  rewrite Hc, Hr, bind_Ok, Hid. by rewrite (proj2 (Nat.leb_le _ _) Hlen).
Qed.

Lemma manifest_silent_domain (p : pack) :
  manifest_silent safe_load p -> manifest_domain safe_load p = Ok None.
Proof.
  unfold manifest_domain.
  intros [->|(manifest & o & -> & -> & Ho & Ht)]; [done|]. simpl. rewrite Ho.
  destruct Ht as [->|(content & -> & ->)]; done.
Qed.

(** C3, as the code has it.  The domain is the result of the first of
    four steps that gives one.  (1) The manifest exists, its block is a
    record (it has an identifier) and has a field pack_id: that field.
    (2) The manifest exists and its text has a Pack ID label followed by
    two to four upper-case letters: these letters.  (3) In the order of
    the paths, among the documents whose name starts with no underscore
    and is not the name of the manifest, the first with a record whose
    identifier contains a dot: the text of the identifier before its
    first dot.  (4) The first two characters of the name of the
    directory, in upper case. *)
Theorem detect_domain_order (p : pack) :
  (forall manifest r v,
      find_manifest p = Some manifest ->
      parse_frontmatter safe_load (root p) manifest = Ok (Some r) ->
      r !! "pack_id" = Some v ->
      detect_domain safe_load p = Ok v)
  ∧ (forall manifest o content code after,
        find_manifest p = Some manifest ->
        parse_frontmatter safe_load (root p) manifest = Ok o ->
        o ≫= (fun r => r !! "pack_id") = None ->
        f_text manifest = Some content ->
        Re.search pack_id_re content = Some (code, after) ->
        detect_domain safe_load p = Ok (VStr code))
  ∧ (forall before f after r s,
        manifest_silent safe_load p ->
        sorted_md p = before ++ f :: after ->
        (forall f', f' ∈ before -> candidate f' = true ->
                    gives_no_domain safe_load (root p) f') ->
        candidate f = true ->
        parse_frontmatter safe_load (root p) f = Ok (Some r) ->
        r !! "id" = Some (VStr s) ->
        2 <= length (Py.split "." s) ->
        segments_of s (Py.split "." s)
        ∧ detect_domain safe_load p = Ok (VStr (nth 0 (Py.split "." s) EmptyString)))
  ∧ (manifest_silent safe_load p ->
     (forall f, f ∈ sorted_md p -> candidate f = true ->
                gives_no_domain safe_load (root p) f) ->
     detect_domain safe_load p = Ok (VStr (Py.take 2 (Py.upper (root_name p))))).
Proof.
  unfold detect_domain, manifest_domain. split; [|split; [|split]].
  - intros manifest r v -> -> Hv. simpl. by rewrite Hv.
  - intros manifest o content code after -> -> Ho -> ->. simpl. by rewrite Ho.
  - intros before f after r s Hm Hs Hb Hc Hr Hid Hlen.
    split; [apply segments_of_split|].
    apply manifest_silent_domain in Hm. unfold manifest_domain in Hm. rewrite Hm. simpl.
    rewrite Hs, (domain_walk_skip _ _ _ Hb).
    by rewrite (domain_walk_found _ _ _ _ _ Hc Hr Hid Hlen).
  - intros Hm Hall.
    apply manifest_silent_domain in Hm. unfold manifest_domain in Hm. rewrite Hm. simpl.
    rewrite <- (app_nil_r (sorted_md p)), (domain_walk_skip _ _ _ Hall). done.
Qed.
End DomainFacts.

(** The four steps on sample packs, and the example of the
    specification: a manifest with the line of the Pack ID label and no
    field pack_id gives DP. *)
Example detect_domain_steps :
  detect_domain sample_yaml declared_pack = Ok (VStr "XY")
  ∧ detect_domain sample_yaml labelled_pack = Ok (VStr "DP")
  ∧ detect_domain sample_yaml inferred_pack = Ok (VStr "DP")
  ∧ detect_domain sample_yaml unnamed_pack = Ok (VStr "DI").
Proof. repeat split; vm_compute; reflexivity. Qed.

(** C3, as the specification has it, fails at [inferred_pack]: its first
    document with a record is a-notes.md, whose identifier NOTES has the
    one segment NOTES; the detector passes it over, for want of a dot,
    and answers DP from the next document. *)
Lemma first_record_without_dot_is_passed_over :
  f_parts <$> sorted_md inferred_pack
    = [["a-notes.md"]; ["b"; "DP.M.001-knowledge-extraction.md"]]
  ∧ find_manifest inferred_pack = None
  ∧ get_id <$> record_of sample_yaml "/packs/digital"
                 (mkfile ["a-notes.md"] (Some (doc "id: NOTES" "Some notes")))
    = Some (VStr "NOTES")
  ∧ nth 0 (Py.split "." "NOTES") EmptyString = "NOTES"
  ∧ detect_domain sample_yaml inferred_pack = Ok (VStr "DP").
Proof. repeat split; vm_compute; reflexivity. Qed.

(** ** The command line *)

Section MainFacts.
Variable safe_load : string -> yaml_outcome.
Variable strptime : string -> option date.


Lemma sorted_md_elem (p : pack) (f : file) : f ∈ sorted_md p -> f ∈ files p.
Proof.
  unfold sorted_md, rglob_md. rewrite sorted_elem, list_elem_of_filter. tauto.
Qed.






End MainFacts.

Section MainSafety.
Variable safe_load : string -> yaml_outcome.

End MainSafety.


(** The three ways of the command line, in a world with the one
    directory /packs/empty, which has no record: the usage, the error,
    and a run that returns.  The map shows a total of 0; the Entity
    Index, made after the map file was written, lists the map itself. *)
Example main_runs :
  main sample_yaml sample_strptime ["generate-map.py"] empty_world sample_today
    = ([usage], Exit 1)
  ∧ main sample_yaml sample_strptime ["generate-map.py"; "/nowhere"] empty_world sample_today
    = (["Error: /nowhere is not a directory"], Exit 1)
  ∧ main sample_yaml sample_strptime ["generate-map.py"; "/packs/empty"] empty_world
      sample_today
    = ([ "Domain: EM"; "Pack directory: /packs/empty";
         "MAP written to: /packs/empty/07-map/EM.MAP.001.md";
         Py.join (nl EmptyString)
           (index_head
            ++ ["| EM.MAP.001 | Pack Navigation Map | MAP | " +:+ dash +:+ " | "
                +:+ dash +:+ " |"]) ],
       Returned)
  ∧ (render_map "EM" sample_today
       <$> collect_map sample_yaml sample_strptime
             (mkpack "/packs/empty" "empty"
                [ mkfile ["README.md"] (Some "No block here");
                  mkfile ["notes.txt"] (Some "x") ]) sample_today)
    = Ok (header_lines "EM" "2026-11-04"
          ++ ["| **Total** | **0** |"; EmptyString]
          ++ footer_lines "2026-11-04").
Proof. repeat split; vm_compute; reflexivity. Qed.


(** ** Warnings *)

Section WarningFacts.
Variable safe_load : string -> yaml_outcome.
Variable strptime : string -> option date.

Lemma warnings_count_files (root : string) (fs : list file) :
  length (omap (warning_for safe_load root) fs)
  = length (filter (fun e : record => has_key "summary" e = false)
              (omap (record_of safe_load root) fs)).
Proof.
  induction fs as [|f fs IH]; [done|]. rewrite !omap_cons. unfold warning_for at 1.
  destruct (record_of safe_load root f) as [r|]; simpl; [|done].
  destruct (has_key "summary" r) eqn:Hs.
  - by rewrite filter_cons_False by congruence.
  - rewrite filter_cons_True by done. simpl. by rewrite IH.
Qed.

(** The warnings are those of the collected records without a summary,
    one for each, in the order of collection; every collected record,
    with or without a summary, is among the entities, in the group of
    its kind and in the counts, whose sum is the total. *)
Lemma warnings_for_each_record (p : pack) (today : date) (d : map_data) :
  collect_map safe_load strptime p today = Ok d ->
  entities d
    = omap (record_of safe_load (root p)) (filter (fun f => eligible f = true) (sorted_md p))
  ∧ warnings d
    = omap (warning_for safe_load (root p)) (filter (fun f => eligible f = true) (sorted_md p))
  ∧ length (warnings d)
    = length (filter (fun e : record => has_key "summary" e = false) (entities d))
  ∧ (forall e, e ∈ entities d -> e ∈ by_kind d !!! kind_of e)
  ∧ sum_list ((stat_counts (by_kind d)).*2) = length (entities d).
Proof.
  intros Hd. apply collect_map_inv in Hd as (Hw & Hg & _).
  apply map_walk_spec in Hw as [He Hws]. simpl in He, Hws.
  split; [done|]. split; [done|]. split; [|split].
  - rewrite Hws, He. apply warnings_count_files.
  - intros e Hin. rewrite (by_kind_group _ _ _ Hg). by apply list_elem_of_filter.
  - by apply stat_counts_sum.
Qed.
End WarningFacts.

(** The third step on [inferred_pack]: the note is passed over, the
    method gives DP. *)
Lemma detect_domain_order_witness :
  manifest_silent sample_yaml inferred_pack
  ∧ sorted_md inferred_pack
    = [mkfile ["a-notes.md"] (Some (doc "id: NOTES" "Some notes"))]
      ++ mkfile ["b"; "DP.M.001-knowledge-extraction.md"] (Some (doc "id: DP.M.001" "Text"))
         :: []
  ∧ gives_no_domain sample_yaml (root inferred_pack)
      (mkfile ["a-notes.md"] (Some (doc "id: NOTES" "Some notes")))
  ∧ segments_of "DP.M.001" (Py.split "." "DP.M.001")
  ∧ detect_domain sample_yaml inferred_pack
    = Ok (VStr (nth 0 (Py.split "." "DP.M.001") EmptyString)).
Proof.
  assert (manifest_silent sample_yaml inferred_pack) as H1 by (by left).
  assert (sorted_md inferred_pack
          = [mkfile ["a-notes.md"] (Some (doc "id: NOTES" "Some notes"))]
            ++ mkfile ["b"; "DP.M.001-knowledge-extraction.md"]
                 (Some (doc "id: DP.M.001" "Text")) :: []) as H2
    by (vm_compute; reflexivity).
  assert (gives_no_domain sample_yaml (root inferred_pack)
            (mkfile ["a-notes.md"] (Some (doc "id: NOTES" "Some notes")))) as H3.
  { right.
    exists (list_to_map [("id", VStr "NOTES"); ("_filepath", VStr "/packs/digital/a-notes.md");
                         ("name", VStr "A Notes")]), "NOTES".
    split; [vm_compute; reflexivity|]. split; [vm_compute; reflexivity|]. vm_compute. lia. }
  split; [exact H1|]. split; [exact H2|]. split; [exact H3|].
  destruct (detect_domain_order sample_yaml inferred_pack) as (_ & _ & Hthird & _).
  apply (Hthird _ _ _
           (list_to_map [("id", VStr "DP.M.001");
                         ("_filepath",
                          VStr "/packs/digital/b/DP.M.001-knowledge-extraction.md");
                         ("name", VStr "Knowledge Extraction")])
           "DP.M.001" H1 H2).
  - intros f' Hf' _. apply list_elem_of_singleton in Hf' as ->. exact H3.
  - reflexivity.
  - vm_compute; reflexivity.
  - vm_compute; reflexivity.
  - vm_compute. lia.
Defined.

(** ** When the map is produced *)

Section Returns.
Variable safe_load : string -> yaml_outcome.
Variable strptime : string -> option date.

Lemma stale_walk_ok (today : date) (es : list record) (st : list (value * Z)) :
  Forall (fun e : record => forall t, e !! "last_updated" ≠ Some (VDatetime t)) es ->
  exists st', stale_walk strptime today es st = Ok st'.
Proof.
  revert st. induction es as [|e es IH]; intros st Hall; simpl; [by eauto|].
  inversion Hall as [|? ? He Hes]; subst.
  assert (exists st1, stale_step strptime today e st = Ok st1) as [st1 ->].
  { unfold stale_step. destruct (e !! "last_updated") as [v|] eqn:Hv; [|by eauto].
    destruct v as [s|lu|t|t b]; simpl.
    - destruct (negb _); [|by eauto]. destruct (strptime s); by eauto.
    - by eauto.
    - by destruct (He t).
    - destruct b; by eauto. }
  simpl. by apply IH.
Qed.

(** [generate_map] returns when the loader raises on no file, every
    identifier is a text and no [last_updated] is a [datetime]. *)
Lemma collect_map_ok (p : pack) (today : date) :
  (forall f, f ∈ sorted_md p -> parse_frontmatter safe_load (root p) f ≠ Raise) ->
  (forall f r, f ∈ sorted_md p -> parse_frontmatter safe_load (root p) f = Ok (Some r) ->
     is_str (get_id r) = true ∧ forall t, r !! "last_updated" ≠ Some (VDatetime t)) ->
  exists d, collect_map safe_load strptime p today = Ok d.
Proof.
  intros Hno Hrec. unfold collect_map.
  destruct (map_walk_ok safe_load (root p) (sorted_md p) [] []) as (es & ws & Hw);
    [by apply Forall_forall|].
  rewrite Hw. simpl. apply map_walk_spec in Hw as [-> _]. simpl.
  assert (forall e, e ∈ omap (record_of safe_load (root p))
                        (filter (fun f => eligible f = true) (sorted_md p)) ->
            is_str (get_id e) = true
            ∧ forall t, e !! "last_updated" ≠ Some (VDatetime t)) as Hes.
  { intros e (f & [_ Hf]%list_elem_of_filter & Hr)%list_elem_of_omap.
    unfold record_of in Hr.
    destruct (parse_frontmatter safe_load (root p) f) as [[r|]|] eqn:Hp; [|done..].
    injection Hr as ->. by apply (Hrec f). }
  destruct (group_walk_ok
              (omap (record_of safe_load (root p))
                 (filter (fun f => eligible f = true) (sorted_md p))) ∅) as [m ->].
  { apply Forall_forall. intros e He. by apply Hes. }
  simpl.
  destruct (stale_walk_ok today
              (omap (record_of safe_load (root p))
                 (filter (fun f => eligible f = true) (sorted_md p))) []) as [st ->].
  { apply Forall_forall. intros e He. by apply Hes. }
  by eexists.
Qed.
End Returns.

(** * Properties of the generators beyond the specification *)

(** ** The sort keeps the order of equal keys *)

Section SortedStable.
Context {A K : Type} `{EqDecision K} (key : A -> K) (leb : K -> K -> bool).
Hypothesis leb_refl : forall a, leb a a = true.

Lemma insert_sorted_stable (k : K) (x : A) (l : list A) :
  filter (fun y => key y = k) (insert_sorted key leb x l)
  = filter (fun y => key y = k) (x :: l).
Proof.
  induction l as [|y l IH]; simpl; [done|].
  destruct (leb (key x) (key y)) eqn:Hxy; [done|].
  destruct (decide (key y = k)) as [Hy|Hy].
  - assert (key x ≠ k) as Hx by (intros Hx; by rewrite Hx, <- Hy, leb_refl in Hxy).
    rewrite (filter_cons_True _ y) by done. rewrite IH.
    rewrite !(filter_cons_False _ x) by done. by rewrite filter_cons_True.
  - rewrite (filter_cons_False _ y) by done. rewrite IH.
    destruct (decide (key x = k)) as [Hx|Hx].
    + rewrite !(filter_cons_True _ x) by done. by rewrite filter_cons_False.
    + rewrite !(filter_cons_False _ x) by done. by rewrite filter_cons_False.
Qed.

Lemma sorted_stable (k : K) (l : list A) :
  filter (fun y => key y = k) (sorted key leb l) = filter (fun y => key y = k) l.
Proof.
  induction l as [|x l IH]; [done|].
  change (sorted key leb (x :: l)) with (insert_sorted key leb x (sorted key leb l)).
  rewrite insert_sorted_stable.
  destruct (decide (key x = k)) as [Hx|Hx].
  - rewrite !(filter_cons_True _ x) by done. by rewrite IH.
  - rewrite !(filter_cons_False _ x) by done. done.
Qed.
End SortedStable.

Lemma str_leb_refl (a : string) : str_leb a a = true.
Proof. destruct (str_leb_total a a); done. Qed.

(** ** The statistics table and the category tables *)

Section TableFacts.
Variable safe_load : string -> yaml_outcome.
Variable strptime : string -> option date.

(** X1: in every run in which [generate_map] returns, the statistics
    table has one row for each kind that some collected record has, and
    for no other; the count of a row is the number of collected records
    of that kind, so it is never zero; the rows stand in ascending order
    of the kind code, each kind once; the counts add up to the number
    of the total row, which follows the rows directly. *)
Theorem statistics_rows (p : pack) (today : date) (domain : string) (d : map_data) :
  collect_map safe_load strptime p today = Ok d ->
  (forall k n, (k, n) ∈ stat_counts (by_kind d) <->
     0 < n ∧ n = length (filter (fun e => kind_of e = k) (entities d)))
  ∧ NoDup (stat_counts (by_kind d)).*1
  ∧ StronglySorted (fun a b => str_leb a b = true) (stat_counts (by_kind d)).*1
  ∧ sum_list (stat_counts (by_kind d)).*2 = length (entities d)
  ∧ exists after,
      render_map domain today d =
        header_lines domain (isoformat today)
        ++ (stat_row <$> stat_counts (by_kind d))
        ++ ["| **Total** | **" +:+ pretty (length (entities d)) +:+ "** |"; EmptyString]
        ++ after.
Proof.
  intros Hd. apply collect_map_inv in Hd as (_ & Hg & _).
  assert ((stat_counts (by_kind d)).*1 = sorted_keys (by_kind d)) as Hkeys.
  { unfold stat_counts. rewrite <- list_fmap_compose.
    rewrite <- (list_fmap_id (sorted_keys (by_kind d))) at 2. by apply list_fmap_ext. }
  split; [|split; [|split; [|split]]].
  - intros k n. unfold stat_counts. rewrite list_elem_of_fmap. split.
    + intros (k' & [= -> ->] & Hin). rewrite (by_kind_group _ _ _ Hg). split; [|done].
      apply sorted_keys_elem, (by_kind_is_Some _ _ _ Hg) in Hin as (e & He & Hk).
      assert (e ∈ filter (fun e => kind_of e = k') (entities d)) as Hf
        by (by apply list_elem_of_filter).
      destruct (filter _ (entities d)); [by apply elem_of_nil in Hf|simpl; lia].
    + intros [Hpos ->]. exists k. split; [by rewrite (by_kind_group _ _ _ Hg)|].
      apply sorted_keys_elem, (by_kind_is_Some _ _ _ Hg).
      destruct (filter (fun e => kind_of e = k) (entities d)) as [|e l] eqn:Hf;
        [simpl in Hpos; lia|].
      assert (e ∈ filter (fun e => kind_of e = k) (entities d)) as Hin
        by (rewrite Hf; left).
      apply list_elem_of_filter in Hin as [? ?]. by exists e.
  - rewrite Hkeys. apply sorted_keys_NoDup.
  - rewrite Hkeys. apply sorted_keys_ordered.
  - by apply stat_counts_sum.
  - by eexists.
Qed.

(** X2: in every run in which [generate_map] returns, a collected
    record of a kind other than CHR and OA stands in the category
    tables as often as among the collected records, in the table of its
    own kind and in no other; no kind has two tables; the table is one
    of the fixed kinds when the kind is among D, R, M, WP, FM, SOTA and
    MAP, and a domain-specific one otherwise; and the text has the row
    of the record. *)
Theorem record_in_the_table_of_its_kind (p : pack) (today : date) (domain : string)
    (d : map_data) (e : record) :
  collect_map safe_load strptime p today = Ok d ->
  e ∈ entities d ->
  kind_of e ≠ "CHR" ->
  kind_of e ≠ "OA" ->
  table_occurrences e (all_tables (by_kind d)) = occurrences e (entities d)
  ∧ (exists rows, (kind_of e, rows) ∈ all_tables (by_kind d) ∧ e ∈ rows
       ∧ ((kind_of e, rows) ∈ known_tables (by_kind d) <-> kind_of e ∈ section_order)
       ∧ ((kind_of e, rows) ∈ extended_tables (by_kind d) <-> kind_of e ∉ section_order))
  ∧ (forall k rows, (k, rows) ∈ all_tables (by_kind d) -> e ∈ rows -> k = kind_of e)
  ∧ NoDup (all_tables (by_kind d)).*1
  ∧ map_row e ∈ render_map domain today d.
Proof.
  intros Hd He H1 H2. apply collect_map_inv in Hd as (_ & Hg & _).
  assert (is_Some (by_kind d !! kind_of e)) as [l Hl]
    by (apply (by_kind_is_Some _ _ _ Hg); by exists e).
  assert (e ∈ l) as Hel.
  { pose proof (by_kind_group _ _ (kind_of e) Hg) as Hgr.
    rewrite lookup_total_alt, Hl in Hgr. simpl in Hgr. rewrite Hgr.
    by apply list_elem_of_filter. }
  assert (kind_of e ∈ base_kinds <-> kind_of e ∈ section_order) as Hbase
    by (rewrite base_kinds_cases; tauto).
  assert ((kind_of e, sorted id_text str_leb l) ∈ known_tables (by_kind d)
          <-> kind_of e ∈ section_order) as Hknown.
  { rewrite known_tables_elem. split; [tauto|]. intros ?. split; [done|]. by exists l. }
  assert ((kind_of e, sorted id_text str_leb l) ∈ extended_tables (by_kind d)
          <-> kind_of e ∉ section_order) as Hext.
  { rewrite extended_tables_elem, Hbase. split; [tauto|].
    intros ?. split; [done|]. by exists l. }
  split; [by apply tables_partition|]. split; [|split; [|split]].
  - exists (sorted id_text str_leb l). split; [|split; [by apply sorted_elem|done]].
    unfold all_tables. rewrite elem_of_app.
    destruct (decide (kind_of e ∈ section_order)); tauto.
  - intros k rows Hin Hrow. rewrite (all_tables_rows _ _ _ _ Hg Hin) in Hrow.
    apply sorted_elem, list_elem_of_filter in Hrow as [Hk _]. done.
  - apply all_tables_NoDup.
  - unfold render_map. rewrite !elem_of_app. right. right. right.
    destruct (decide (kind_of e ∈ section_order)) as [Hs|Hs].
    + left. apply list_elem_of_bind. eexists. split; [|by apply Hknown].
      unfold known_section. rewrite !elem_of_app. right. right. left.
      apply list_elem_of_fmap. exists e. split; [done|]. by apply sorted_elem.
    + right. left. apply Hext in Hs.
      apply extended_lines_split in Hs as (before & after & ->).
      rewrite !elem_of_app. right. right. left.
      unfold extended_section. rewrite !elem_of_app. right. right. left.
      apply list_elem_of_fmap. exists e. split; [done|]. by apply sorted_elem.
Qed.

Lemma index_lines_sorted (p : pack) (today : date) (d : map_data) :
  collect_map safe_load strptime p today = Ok d ->
  index_lines safe_load p
  = Ok (index_head ++ (index_text <$> sorted id_text str_leb (entities d))).
Proof.
  intros Hd. apply collect_map_inv in Hd as (Hw & Hg & _).
  pose proof (index_walk_of_map_walk _ _ _ _ _ Hw) as Hi.
  pose proof (group_walk_str _ _ _ Hg) as Hstr.
  unfold index_lines. rewrite Hi. simpl. rewrite (sorted_by_id_spec _ Hstr). simpl.
  rewrite index_rows_spec; [done|].
  apply Forall_forall. intros e He%sorted_elem. by apply (proj1 (Forall_forall _ _) Hstr).
Qed.

(** X3: in every run in which [generate_map] returns, the rows of each
    category table are the collected records of its kind and no others,
    in ascending order of the identifier; records with the same
    identifier keep the order of collection, that of the paths (the
    sort is stable); the tables of the fixed kinds follow the order D,
    R, M, WP, FM, SOTA, MAP, and the domain-specific ones the ascending
    order of their codes.  The rows of the Entity Index keep the order
    of collection among equal identifiers in the same way. *)
Theorem tables_sorted_and_stable (p : pack) (today : date) (d : map_data) :
  collect_map safe_load strptime p today = Ok d ->
  (forall k rows, (k, rows) ∈ all_tables (by_kind d) ->
     rows ≡ₚ filter (fun e => kind_of e = k) (entities d)
     ∧ rows ≠ []
     ∧ StronglySorted (fun a b => str_leb (id_text a) (id_text b) = true) rows
     ∧ forall i, filter (fun e => id_text e = i) rows
                 = filter (fun e => id_text e = i)
                     (filter (fun e => kind_of e = k) (entities d)))
  ∧ (known_tables (by_kind d)).*1
    = filter (fun k => k ∈ kind_of <$> entities d) section_order
  ∧ StronglySorted (fun a b => str_leb a b = true) (extended_tables (by_kind d)).*1
  ∧ exists rows,
      index_lines safe_load p = Ok (index_head ++ (index_text <$> rows))
      ∧ forall i, filter (fun e => id_text e = i) rows
                  = filter (fun e => id_text e = i) (entities d).
Proof.
  intros Hd. pose proof (index_lines_sorted p today d Hd) as Hidx.
  apply collect_map_inv in Hd as (_ & Hg & _).
  split; [|split; [|split]].
  - intros k rows Hin.
    assert (k ∈ (all_tables (by_kind d)).*1) as Hk
      by (apply list_elem_of_fmap; by exists (k, rows)).
    apply all_tables_keys in Hk as [Hk _].
    apply (by_kind_is_Some _ _ _ Hg) in Hk as (e & He & Hke).
    rewrite (all_tables_rows _ _ _ _ Hg Hin).
    split; [apply sorted_perm|]. split; [|split].
    + intros Hnil.
      assert (e ∈ sorted id_text str_leb (filter (fun e => kind_of e = k) (entities d)))
        as Hin' by (by apply sorted_elem, list_elem_of_filter).
      rewrite Hnil in Hin'. by apply elem_of_nil in Hin'.
    + apply (sorted_ordered id_text str_leb str_leb_total str_leb_trans).
    + intros i. apply (sorted_stable id_text str_leb str_leb_refl).
  - rewrite known_tables_keys. apply list_filter_iff.
    intros k. rewrite (by_kind_is_Some _ _ _ Hg), list_elem_of_fmap.
    split; intros (e & ? & ?); by exists e.
  - rewrite extended_tables_keys. apply sorted_keys_ordered.
  - exists (sorted id_text str_leb (entities d)). split; [done|].
    intros i. apply (sorted_stable id_text str_leb str_leb_refl).
Qed.
End TableFacts.

(** ** When the two generators return, and on what they depend *)

Lemma parts_leb_antisym (a b : list string) :
  parts_leb a b = true -> parts_leb b a = true -> a = b.
Proof.
  revert b. induction a as [|x a IH]; intros [|y b]; simpl; try done.
  rewrite (String.compare_antisym y x).
  destruct (String.compare x y) eqn:Hxy; simpl; try done.
  apply String.compare_eq_iff in Hxy as ->. intros H1 H2. f_equal. by apply IH.
Qed.

Lemma NoDup_fmap_inj {A B} (f : A -> B) (l : list A) (x y : A) :
  NoDup (f <$> l) -> x ∈ l -> y ∈ l -> f x = f y -> x = y.
Proof.
  induction l as [|z l IH]; csimpl; intros Hnd Hx Hy Hxy; [by apply elem_of_nil in Hx|].
  apply NoDup_cons in Hnd as [Hz Hnd].
  apply elem_of_cons in Hx as [->|Hx]; apply elem_of_cons in Hy as [->|Hy].
  - done.
  - destruct Hz. rewrite Hxy. apply list_elem_of_fmap. by exists y.
  - destruct Hz. rewrite <- Hxy. apply list_elem_of_fmap. by exists x.
  - by apply IH.
Qed.

Lemma sorted_md_listing (p p' : pack) :
  files p ≡ₚ files p' -> NoDup (f_parts <$> files p) -> sorted_md p = sorted_md p'.
Proof.
  intros Hperm Hnd.
  apply (StronglySorted_unique_strong path_le);
    [|apply sorted_md_ordered..|].
  - intros x1 x2 H1%sorted_md_elem H2%sorted_md_elem H12 H21.
    rewrite <- Hperm in H2.
    apply (NoDup_fmap_inj f_parts (files p)); [done..|]. by apply parts_leb_antisym.
  - rewrite !sorted_md_perm. by rewrite Hperm.
Qed.

Lemma find_manifest_listing (p p' : pack) :
  files p ≡ₚ files p' -> NoDup (f_parts <$> files p) ->
  find_manifest p = find_manifest p'.
Proof.
  intros Hperm Hnd. unfold find_manifest.
  destruct (List.find _ (files p)) as [a|] eqn:Ha;
    destruct (List.find _ (files p')) as [b|] eqn:Hb; [| | |done].
  - apply find_some in Ha as [Ha Hpa]. apply find_some in Hb as [Hb Hpb].
    apply list_elem_of_In in Ha, Hb. rewrite <- Hperm in Hb.
    apply bool_decide_eq_true in Hpa, Hpb. f_equal.
    apply (NoDup_fmap_inj f_parts (files p)); [done..|]. congruence.
  - apply find_some in Ha as [Ha Hpa]. apply list_elem_of_In in Ha.
    rewrite Hperm in Ha. apply list_elem_of_In in Ha.
    by rewrite (find_none _ _ Hb a Ha) in Hpa.
  - apply find_some in Hb as [Hb Hpb]. apply list_elem_of_In in Hb.
    rewrite <- Hperm in Hb. apply list_elem_of_In in Hb.
    by rewrite (find_none _ _ Ha b Hb) in Hpb.
Qed.

Section ReturnFacts.
Variable safe_load : string -> yaml_outcome.
Variable strptime : string -> option date.

Lemma map_walk_none (root : string) (fs : list file)
    (es : list record) (ws : list string) :
  (forall f, f ∈ fs -> eligible f = true -> parse_frontmatter safe_load root f = Ok None) ->
  map_walk safe_load root fs es ws = Ok (es, ws).
Proof.
  induction fs as [|f fs IH]; intros Hall; simpl; [done|].
  assert (map_walk safe_load root fs es ws = Ok (es, ws)) as IH'
    by (apply IH; intros f' Hf'; apply Hall; by right).
  destruct (eligible f) eqn:He.
  - unfold eligible in He. apply andb_true_iff in He as [He H3].
    apply andb_true_iff in He as [H1 H2]. apply negb_true_iff in H1, H2, H3.
    rewrite H1, H2, H3. simpl.
    rewrite (Hall f) by (try left; unfold eligible; by rewrite H1, H2, H3). done.
  - apply eligible_false in He as [-> | ->]; [done|].
    by destruct (Py.startswith "_" (f_name f)).
Qed.

Lemma map_walk_returns (root : string) (fs : list file)
    (es : list record) (ws : list string) :
  (exists r, map_walk safe_load root fs es ws = Ok r) <->
  forall f, f ∈ fs -> eligible f = true -> parse_frontmatter safe_load root f ≠ Raise.
Proof.
  split.
  - revert es ws. induction fs as [|f fs IH]; intros es ws [r Hr] f' Hf' He;
      [by apply elem_of_nil in Hf'|].
    simpl in Hr.
    assert (forall es0 ws0 r0, map_walk safe_load root fs es0 ws0 = Ok r0 ->
              f' ∈ fs -> parse_frontmatter safe_load root f' ≠ Raise) as IH'
      by (intros es0 ws0 r0 H0 Hin; by apply (IH es0 ws0); [exists r0|..]).
    apply elem_of_cons in Hf' as [->|Hf'].
    + unfold eligible in He. apply andb_true_iff in He as [He H3].
      apply andb_true_iff in He as [H1 H2]. apply negb_true_iff in H1, H2, H3.
      rewrite H1, H2, H3 in Hr. simpl in Hr.
      by destruct (parse_frontmatter safe_load root f).
    + destruct (Py.startswith "_" (f_name f)); [by eapply IH'|].
      destruct (String.eqb (f_name f) manifest_name
                || String.eqb (f_name f) ontology_name); [by eapply IH'|].
      destruct (parse_frontmatter safe_load root f) as [[r0|]|]; simpl in Hr;
        [by eapply IH'..|done].
  - revert es ws. induction fs as [|f fs IH]; intros es ws Hall; simpl; [by eauto|].
    assert (forall es0 ws0, exists r, map_walk safe_load root fs es0 ws0 = Ok r) as IH'
      by (intros es0 ws0; apply IH; intros f' Hf'; apply Hall; by right).
    destruct (eligible f) eqn:He.
    + pose proof (Hall f ltac:(left) He) as Hf.
      unfold eligible in He. apply andb_true_iff in He as [He H3].
      apply andb_true_iff in He as [H1 H2]. apply negb_true_iff in H1, H2, H3.
      rewrite H1, H2, H3. simpl.
      destruct (parse_frontmatter safe_load root f) as [[r0|]|]; simpl; [apply IH'..|done].
    + apply eligible_false in He as [-> | ->]; [apply IH'|].
      destruct (Py.startswith "_" (f_name f)); apply IH'.
Qed.

Lemma group_walk_returns (es : list record) (m : gmap string (list record)) :
  (exists m', group_walk es m = Ok m') <->
  Forall (fun e => is_str (get_id e) = true) es.
Proof.
  split; [|apply group_walk_ok]. intros [m' H]. by apply group_walk_str in H.
Qed.

Lemma stale_walk_returns (today : date) (es : list record) (st : list (value * Z)) :
  (exists st', stale_walk strptime today es st = Ok st') <->
  Forall (fun e : record => forall t, e !! "last_updated" ≠ Some (VDatetime t)) es.
Proof.
  split; [|apply stale_walk_ok].
  revert st. induction es as [|e es IH]; intros st [st' H]; [by constructor|].
  simpl in H. destruct (stale_step strptime today e st) as [st1|] eqn:Hs; [|done].
  simpl in H. constructor; [|by apply (IH st1); exists st'].
  intros t Ht. unfold stale_step in Hs. by rewrite Ht in Hs.
Qed.

Lemma entities_of_walk (root : string) (fs : list file) (e : record) :
  e ∈ omap (record_of safe_load root) (filter (fun f => eligible f = true) fs) <->
  exists f, f ∈ fs ∧ eligible f = true ∧ parse_frontmatter safe_load root f = Ok (Some e).
Proof.
  rewrite list_elem_of_omap. split.
  - intros (f & [He Hf]%list_elem_of_filter & Hr). exists f. split; [done|]. split; [done|].
    unfold record_of in Hr.
    destruct (parse_frontmatter safe_load root f) as [[r|]|]; by simplify_eq.
  - intros (f & Hf & He & Hp). exists f. split; [by apply list_elem_of_filter|].
    unfold record_of. by rewrite Hp.
Qed.

Lemma parse_frontmatter_id (root : string) (f : file) (r : record) :
  parse_frontmatter safe_load root f = Ok (Some r) -> is_Some (r !! "id").
Proof.
  unfold parse_frontmatter. intros H.
  destruct (f_text f) as [content|]; [|done].
  destruct (Re.rmatch frontmatter_re content) as [[block rest]|]; [|done].
  destruct (safe_load block) as [[data|]| |]; [|done..].
  destruct (has_key "id" data) eqn:Hid; [|done]. apply has_key_true in Hid.
  destruct (has_key "name" _); [|destruct (derive_name content f)];
    injection H as <-; by rewrite !lookup_insert_ne.
Qed.

(** X10: where the fields of a record come from.  A record is only
    given for a readable file whose block the loader reads as a mapping
    with an identifier.  The parser always sets the field _filepath to
    the path of the file, also when the block has such a field; it
    keeps a name that the block gives, whatever its value, and
    otherwise sets the derived name, if there is one; the identifier
    and every other field are those of the block, unchanged. *)
Theorem record_fields (root : string) (f : file) (r : record) :
  parse_frontmatter safe_load root f = Ok (Some r) ->
  exists content block rest data,
    f_text f = Some content
    ∧ Re.rmatch frontmatter_re content = Some (block, rest)
    ∧ safe_load block = Loaded (Mapping data)
    ∧ is_Some (data !! "id")
    ∧ r !! "id" = data !! "id"
    ∧ r !! "_filepath" = Some (VStr (path_str root f))
    ∧ (forall k, k ≠ "_filepath" -> k ≠ "name" -> r !! k = data !! k)
    ∧ r !! "name" = match data !! "name" with
                    | Some v => Some v
                    | None => VStr <$> derive_name content f
                    end.
Proof.
  unfold parse_frontmatter. intros H.
  destruct (f_text f) as [content|]; [|done].
  destruct (Re.rmatch frontmatter_re content) as [[block rest]|] eqn:Hm; [|done].
  destruct (safe_load block) as [[data|]| |] eqn:Hl; [|done..].
  destruct (has_key "id" data) eqn:Hid; [|done].
  apply has_key_true in Hid.
  exists content, block, rest, data. do 4 (split; [done|]).
  unfold has_key in H. rewrite lookup_insert_ne in H by done.
  assert (forall n : string, (<["name" := VStr n]>
            (<["_filepath" := VStr (path_str root f)]> data) : record) !! "id"
          = data !! "id") as Hid2 by (intros n; by rewrite !lookup_insert_ne).
  destruct (data !! "name") as [v|] eqn:Hn;
    [|destruct (derive_name content f) as [name|]]; injection H as <-.
  - rewrite lookup_insert_eq, !lookup_insert_ne, Hn by done.
    do 2 (split; [done|]). split; [|done]. intros k H1 H2. by rewrite lookup_insert_ne.
  - rewrite lookup_insert_eq, Hid2, lookup_insert_ne, lookup_insert_eq by done.
    do 2 (split; [done|]). split; [|done]. intros k H1 H2. by rewrite !lookup_insert_ne.
  - rewrite lookup_insert_eq, !lookup_insert_ne, Hn by done.
    do 2 (split; [done|]). split; [|done]. intros k H1 H2. by rewrite lookup_insert_ne.
Qed.

(** X4: [generate_map] returns exactly when, among the documents the
    walk looks at, the parser raises on none, every identifier is a
    text and no field last_updated is a [datetime];
    [generate_entity_index] returns exactly when the first two hold.
    So the Entity Index is produced whenever the Navigation Map is.
    Files the walk skips (a name that starts with an underscore, the
    manifest, the ontology, names without .md) never matter. *)
Theorem generators_return (p : pack) (today : date) (domain : string) :
  ((exists text, generate_map safe_load strptime p domain today = Ok text)
     <-> parser_returns safe_load p ∧ text_ids safe_load p ∧ no_datetime safe_load p)
  ∧ ((exists text, generate_entity_index safe_load p = Ok text)
     <-> parser_returns safe_load p ∧ text_ids safe_load p)
  ∧ ((exists text, generate_map safe_load strptime p domain today = Ok text) ->
     exists text, generate_entity_index safe_load p = Ok text).
Proof.
  unfold parser_returns, text_ids, no_datetime, visited.
  set (es := omap (record_of safe_load (root p))
               (filter (fun f => eligible f = true) (sorted_md p))).
  assert (forall f r, parse_frontmatter safe_load (root p) f = Ok (Some r) ->
            is_str (get_id r) = true <-> exists s, r !! "id" = Some (VStr s)) as Hstr.
  { intros f r [v Hv]%parse_frontmatter_id.
    unfold get_id. rewrite Hv. simpl. destruct v as [s| | |]; simpl;
      split; try done; try (by intros [? ?]). by exists s. }
  assert (text_ids safe_load p <-> Forall (fun e => is_str (get_id e) = true) es) as Hids.
  { rewrite Forall_forall. split.
    - intros H e (f & Hf & He & Hp)%entities_of_walk. apply (Hstr f e Hp). by apply (H f).
    - intros H f r [Hf He] Hp. apply (Hstr f r Hp), H, entities_of_walk. by exists f. }
  assert (no_datetime safe_load p
          <-> Forall (fun e : record => forall t, e !! "last_updated" ≠ Some (VDatetime t)) es)
    as Hdt.
  { rewrite Forall_forall. split.
    - intros H e (f & Hf & He & Hp)%entities_of_walk t. by apply (H f).
    - intros H f r t [Hf He] Hp. apply H, entities_of_walk. by exists f. }
  assert (parser_returns safe_load p
          <-> exists ws, map_walk safe_load (root p) (sorted_md p) [] [] = Ok (es, ws))
    as Hwalk.
  { split.
    - intros H. destruct (proj2 (map_walk_returns (root p) (sorted_md p) [] []))
        as [[es' ws] Hw]; [intros f Hf He; by apply H|].
      exists ws. rewrite Hw. by apply map_walk_spec in Hw as [-> _].
    - intros [ws Hw] f [Hf He].
      apply (proj1 (map_walk_returns (root p) (sorted_md p) [] [])); [by eexists|done..]. }
  assert ((exists text, generate_map safe_load strptime p domain today = Ok text)
          <-> parser_returns safe_load p ∧ text_ids safe_load p ∧ no_datetime safe_load p)
    as Hmap.
  { rewrite Hwalk, Hids, Hdt. unfold generate_map, collect_map. split.
    - intros [text H].
      destruct (map_walk safe_load (root p) (sorted_md p) [] []) as [[es' ws]|] eqn:Hw;
        [|done].
      pose proof (map_walk_spec _ _ _ _ _ _ _ Hw) as [-> _]. simpl in H. fold es in H.
      destruct (group_walk es ∅) as [m|] eqn:Hg; [|done]. simpl in H.
      destruct (stale_walk strptime today es []) as [st|] eqn:Hs; [|done].
      split; [by exists ws|]. split.
      + apply (group_walk_returns es ∅). by exists m.
      + apply (stale_walk_returns today es []). by exists st.
    - intros ([ws Hw] & Hg & Hs). rewrite Hw. simpl.
      apply (group_walk_returns es ∅) in Hg as [m ->].
      apply (stale_walk_returns today es []) in Hs as [st ->]. simpl. by eexists. }
  assert ((exists text, generate_entity_index safe_load p = Ok text)
          <-> parser_returns safe_load p ∧ text_ids safe_load p) as Hindex.
  { rewrite Hwalk, Hids. unfold generate_entity_index, index_lines.
    rewrite <- (map_walk_index_walk safe_load (root p) (sorted_md p) [] []). split.
    - intros [text H].
      destruct (map_walk safe_load (root p) (sorted_md p) [] []) as [[es' ws]|] eqn:Hw;
        [|done].
      pose proof (map_walk_spec _ _ _ _ _ _ _ Hw) as [-> _]. simpl in H. fold es in H.
      split; [by exists ws|]. unfold sorted_by_id in H.
      destruct (forallb (fun e => is_str (get_id e)) es) eqn:Hf; [|done].
      apply Forall_forall. intros e He%list_elem_of_In.
      by apply (proj1 (forallb_forall _ _) Hf).
    - intros ([ws Hw] & Hs). rewrite Hw. simpl.
      rewrite (sorted_by_id_spec _ Hs). simpl.
      rewrite index_rows_spec; [by eexists|].
      apply Forall_forall. intros e He%sorted_elem.
      by apply (proj1 (Forall_forall _ _) Hs). }
  split; [done|]. split; [done|]. rewrite Hmap, Hindex. tauto.
Qed.

(** X5: when no document that the walk looks at has a record (an
    empty directory, or one with templates, a manifest and texts
    without a block only), both generators return: the Navigation Map
    is its header, the total row with 0 and the footer, without any
    table or section, and the Entity Index is the four lines of its
    table head. *)
Theorem no_records_outputs (p : pack) (today : date) (domain : string) :
  (forall f, f ∈ sorted_md p -> eligible f = true ->
             parse_frontmatter safe_load (root p) f = Ok None) ->
  generate_map safe_load strptime p domain today
    = Ok (Py.join (nl EmptyString)
            (header_lines domain (isoformat today)
             ++ ["| **Total** | **0** |"; EmptyString]
             ++ footer_lines (isoformat today)))
  ∧ generate_entity_index safe_load p = Ok (Py.join (nl EmptyString) index_head).
Proof.
  intros Hall.
  pose proof (map_walk_none (root p) (sorted_md p) [] [] Hall) as Hw. split.
  - unfold generate_map, collect_map. rewrite Hw. reflexivity.
  - unfold generate_entity_index, index_lines.
    rewrite <- (map_walk_index_walk safe_load (root p) (sorted_md p) [] []), Hw. done.
Qed.

(** X6: the two generators and the domain detector depend on the
    entries of the directory, not on the order in which the file system
    lists them: for two listings of the same entries, whose paths are
    all different, the documents are visited in the same order and the
    three functions give the same result. *)
Theorem listing_order_irrelevant (p p' : pack) (today : date) (domain : string) :
  root p = root p' ->
  root_name p = root_name p' ->
  files p ≡ₚ files p' ->
  NoDup (f_parts <$> files p) ->
  sorted_md p = sorted_md p'
  ∧ detect_domain safe_load p = detect_domain safe_load p'
  ∧ generate_map safe_load strptime p domain today
    = generate_map safe_load strptime p' domain today
  ∧ generate_entity_index safe_load p = generate_entity_index safe_load p'.
Proof.
  intros Hroot Hname Hperm Hnd.
  pose proof (sorted_md_listing p p' Hperm Hnd) as Hs.
  pose proof (find_manifest_listing p p' Hperm Hnd) as Hm.
  split; [done|]. split; [|split].
  - unfold detect_domain, manifest_domain. by rewrite Hm, Hs, Hroot, Hname.
  - unfold generate_map, collect_map. by rewrite Hs, Hroot.
  - unfold generate_entity_index, index_lines. by rewrite Hs, Hroot.
Qed.
End ReturnFacts.

(** ** Which block the frontmatter pattern captures *)

Lemma newline_is_space (c : ascii) : Py.is_newline c = true -> Py.is_space c = true.
Proof. unfold Py.is_newline. by intros ->%Ascii.eqb_eq. Qed.

Lemma strip_prefix_app (w s t x : string) :
  strip_prefix w s = Some x -> strip_prefix w (s +:+ t) = Some (x +:+ t).
Proof. rewrite !strip_prefix_Some. intros ->. by rewrite app_assoc_s. Qed.

(** The captured block holds no closing place. *)
Lemma find_close_minimal (s b r : string) :
  find_close s = Some (b, r) -> find_close b = None.
Proof.
  revert b r. induction s as [|c s IH]; intros b r; [done|]. cbn [find_close].
  destruct (strip_prefix (nl "---") (String c s)) as [rest|] eqn:Hp;
    [by intros [= <- <-]|].
  destruct (find_close s) as [[b' r']|] eqn:Hf; [|done]. intros [= <- <-].
  cbn [find_close]. rewrite (IH b' r' eq_refl).
  destruct (strip_prefix (nl "---") (String c b')) as [x|] eqn:Hb; [|done].
  apply find_close_sound in Hf. rewrite Hf, <- app_cons_s in Hp.
  by rewrite (strip_prefix_app _ _ _ _ Hb) in Hp.
Qed.

Lemma find_close_None (b : string) :
  find_close b = None <-> forall pre post, b ≠ pre +:+ nl ("---" +:+ post).
Proof.
  split.
  - intros Hn pre post ->. destruct (find_close_complete pre post) as [x Hx]. congruence.
  - intros H. destruct (find_close b) as [[pre post]|] eqn:Hf; [|done].
    apply find_close_sound in Hf. by destruct (H pre post).
Qed.

Lemma after_dashes_first_line (s b r : string) :
  after_dashes s = Some (b, r) ->
  forall u v, all_space u = true -> b ≠ u +:+ nl v.
Proof.
  induction s as [|c s IH]; [done|]. cbn [after_dashes].
  destruct (Py.is_space c) eqn:Hc.
  - destruct (after_dashes s) as [[b' r']|] eqn:Ha; simpl.
    + intros [= -> ->]. by apply IH.
    + destruct (Py.is_newline c); [|done].
      intros Hf%find_close_sound u v Hu ->.
      destruct (after_dashes_complete u v r Hu) as [x Hx].
      unfold nl in Hx, Hf. rewrite app_assoc_s, app_cons_s in Hf. congruence.
  - simpl. destruct (Py.is_newline c) eqn:Hn; [|done].
    apply newline_is_space in Hn. congruence.
Qed.

Lemma find_close_line (w s : string) :
  all_of Re.dot w = true ->
  find_close (w +:+ s)
  = match find_close s with Some (b, r) => Some (w +:+ b, r) | None => None end.
Proof.
  induction w as [|c w IH]; intros Hw.
  - rewrite app_nil_l_s. by destruct (find_close s) as [[b r]|].
  - cbn [all_of] in Hw. apply andb_true_iff in Hw as [Hc Hw].
    rewrite app_cons_s. cbn [find_close]. unfold nl at 1. rewrite strip_prefix_cons.
    unfold Re.dot, Py.is_newline in Hc. apply negb_true_iff in Hc.
    rewrite Ascii.eqb_sym, Hc, (IH Hw).
    destruct (find_close s) as [[b r]|]; by rewrite ?app_cons_s.
Qed.

Lemma find_close_break (s : string) :
  strip_prefix "---" s = None ->
  find_close (nl s)
  = match find_close s with Some (b, r) => Some (nl b, r) | None => None end.
Proof.
  intros H. unfold nl at 1. cbn [find_close]. unfold nl at 1.
  by rewrite strip_prefix_cons, Ascii.eqb_refl, H.
Qed.

Lemma strip_prefix_line (l s : string) :
  strip_prefix "---" l = None -> strip_prefix "---" (l +:+ nl s) = None.
Proof.
  intros H. destruct (strip_prefix "---" (l +:+ nl s)) as [x|] eqn:Hx; [|done].
  apply strip_prefix_Some in Hx.
  destruct l as [|c1 [|c2 [|c3 l]]]; rewrite ?app_cons_s, ?app_nil_l_s in Hx;
    unfold nl in Hx; try discriminate Hx.
  injection Hx as -> -> -> _. done.
Qed.

Lemma join_nl_cons (l l' : string) (ls : list string) :
  Py.join (nl EmptyString) (l :: l' :: ls) = l +:+ nl (Py.join (nl EmptyString) (l' :: ls)).
Proof. reflexivity. Qed.

Lemma strip_prefix_lines (l : string) (ls : list string) (t : string) :
  strip_prefix "---" l = None ->
  strip_prefix "---" (Py.join (nl EmptyString) (l :: ls) +:+ nl t) = None.
Proof.
  intros H. destruct ls as [|l' ls].
  - by apply strip_prefix_line.
  - rewrite join_nl_cons, app_assoc_s. unfold nl at 1. rewrite app_cons_s.
    by apply (strip_prefix_line l).
Qed.

Lemma find_close_lines (l : string) (ls : list string) (rest : string) :
  Forall block_line (l :: ls) ->
  find_close (Py.join (nl EmptyString) (l :: ls) +:+ nl ("---" +:+ rest))
  = Some (Py.join (nl EmptyString) (l :: ls), rest).
Proof.
  revert l. induction ls as [|l' ls IH]; intros l Hall;
    inversion Hall as [|? ? [Hl Hd] Hls]; subst.
  - change (Py.join (nl EmptyString) [l]) with l. rewrite (find_close_line l _ Hl).
    unfold nl at 1. cbn [find_close].
    rewrite (proj2 (strip_prefix_Some (nl "---") _ rest)) by done.
    by rewrite app_nil_r_s.
  - rewrite join_nl_cons, app_assoc_s. unfold nl at 1. rewrite app_cons_s.
    rewrite (find_close_line l _ Hl). fold (nl (Py.join (nl EmptyString) (l' :: ls)
                                                +:+ nl ("---" +:+ rest))).
    inversion Hls as [|? ? [Hl' Hd'] _]; subst.
    rewrite find_close_break by (by apply strip_prefix_lines).
    by rewrite (IH l' Hls).
Qed.

Lemma after_dashes_block (ws : string) (c : ascii) (t b r : string) :
  all_space ws = true -> Py.is_space c = false ->
  find_close (String c t) = Some (b, r) ->
  after_dashes (ws +:+ nl (String c t)) = Some (b, r).
Proof.
  intros Hws Hc Ht. induction ws as [|w ws IH].
  - rewrite app_nil_l_s. unfold nl at 1. cbn [after_dashes]. rewrite Hc.
    assert (Py.is_newline c = false) as Hn.
    { destruct (Py.is_newline c) eqn:Hn; [|done]. apply newline_is_space in Hn. congruence. }
    rewrite Hn. change (Py.is_space Py.newline) with true.
    change (Py.is_newline Py.newline) with true. cbv iota. cbn [Re.orelse]. exact Ht.
  - cbn [all_space] in Hws. apply andb_true_iff in Hws as [Hw Hws].
    rewrite app_cons_s. cbn [after_dashes]. rewrite Hw, (IH Hws). done.
Qed.

Lemma after_dashes_find (s b r : string) :
  after_dashes s = Some (b, r) -> exists t, find_close t = Some (b, r).
Proof.
  induction s as [|c s IH]; [done|]. cbn [after_dashes].
  intros [H|H]%orelse_Some.
  - destruct (Py.is_space c); [by apply IH|done].
  - destruct (Py.is_newline c); [by exists s|done].
Qed.

Lemma frontmatter_lines_match (ws : string) (c : ascii) (l : string)
    (ls : list string) (rest : string) :
  all_space ws = true ->
  Py.is_space c = false ->
  Forall block_line (String c l :: ls) ->
  Re.rmatch frontmatter_re
    ("---" +:+ ws
     +:+ nl (Py.join (nl EmptyString) (String c l :: ls) +:+ nl ("---" +:+ rest)))
  = Some (Py.join (nl EmptyString) (String c l :: ls), rest).
Proof.
  intros Hws Hc Hall. rewrite frontmatter_re_run.
  rewrite (proj2 (strip_prefix_Some "---" _
            (ws +:+ nl (Py.join (nl EmptyString) (String c l :: ls)
                        +:+ nl ("---" +:+ rest))))) by done.
  pose proof (find_close_lines _ _ rest Hall) as Hf.
  assert (exists t, Py.join (nl EmptyString) (String c l :: ls) +:+ nl ("---" +:+ rest)
                    = String c t) as [t Ht]
    by (destruct ls; rewrite ?join_nl_cons, ?app_cons_s; by eexists).
  rewrite Ht in Hf |- *. by apply after_dashes_block.
Qed.

(** X7: which block the parser takes.  A captured block never holds
    a newline followed by three hyphens (the block ends at the first
    one), and the white space at its start never holds a newline: blank
    lines after the opening hyphens are skipped, so a block never starts
    with a blank line that another line follows.  A block of one line can be
    blank or empty: between two lines of three hyphens, a line with one
    blank gives the block of that blank, and no line at all the empty
    block.  Conversely, when the text starts with three hyphens, white
    space and a newline, then has lines that hold no newline and start
    with no three hyphens, the first of them starting with a character
    that is no white space, and then a line that starts with three
    hyphens, the block is exactly these lines, and the rest is what
    follows the closing hyphens. *)
Theorem frontmatter_block_exact :
  (forall content block rest,
      Re.rmatch frontmatter_re content = Some (block, rest) ->
      (forall pre post, block ≠ pre +:+ nl ("---" +:+ post))
      ∧ (forall u v, all_space u = true -> block ≠ u +:+ nl v))
  ∧ (forall ws c l ls rest,
        all_space ws = true ->
        Py.is_space c = false ->
        Forall block_line (String c l :: ls) ->
        Re.rmatch frontmatter_re
          ("---" +:+ ws
           +:+ nl (Py.join (nl EmptyString) (String c l :: ls) +:+ nl ("---" +:+ rest)))
        = Some (Py.join (nl EmptyString) (String c l :: ls), rest))
  ∧ Re.rmatch frontmatter_re ("---" +:+ nl (" " +:+ nl "---")) = Some (" ", EmptyString)
  ∧ Re.rmatch frontmatter_re ("---" +:+ nl (nl "---")) = Some (EmptyString, EmptyString).
Proof.
  split; [|split; [|split; vm_compute; reflexivity]].
  - intros content block rest. rewrite frontmatter_re_run.
    destruct (strip_prefix "---" content) as [s'|]; [|done]. intros Ha. split.
    + apply find_close_None. destruct (after_dashes_find _ _ _ Ha) as [t Ht].
      exact (find_close_minimal t block rest Ht).
    + exact (after_dashes_first_line s' block rest Ha).
  - apply frontmatter_lines_match.
Qed.

(** ** The Pack ID label of the manifest *)

Lemma pack_id_re_eq : pack_id_re = Re.lit "Pack ID" ++ pack_id_tail.
Proof. reflexivity. Qed.

Lemma pushes_Closed (w s : string) : pushes w (Re.Closed s) = Re.Closed s.
Proof. by induction w. Qed.

Lemma at_most_one (c : ascii) (w : string) :
  all_of (Re.chr c) w = true -> String.length w <= 1 ->
  w = EmptyString \/ w = String c EmptyString.
Proof.
  destruct w as [|x [|y w]]; cbn [all_of String.length]; [by left| |lia].
  rewrite andb_true_r. unfold Re.chr. intros ->%Ascii.eqb_eq _. by right.
Qed.

Lemma pack_id_run_sound prev s code after :
  Re.run pack_id_re prev Re.NotOpen s = Some (code, after) -> pack_id_label s code after.
Proof.
  rewrite pack_id_re_eq, run_lit by done.
  destruct (strip_prefix "Pack ID" s) as [s1|] eqn:Hp; [|done].
  apply strip_prefix_Some in Hp as ->.
  unfold pack_id_tail, Re.star, Re.opt, Re.one. rewrite run_rep.
  intros (stars & s2 & -> & Hstars & _ & _ & H)%rep_sound.
  rewrite pushes_NotOpen, run_rep, rep_one in H.
  destruct s2 as [|c2 s3]; [done|]. unfold Re.chr at 1 in H.
  destruct (Ascii.eqb_spec ":" c2) as [<-|]; [|done].
  rewrite run_rep in H. apply rep_sound in H as (ws & s4 & -> & Hws & _ & _ & H).
  rewrite pushes_NotOpen, run_rep in H.
  apply rep_sound in H as (tick1 & s5 & -> & Ht1 & _ & Hl1 & H).
  rewrite pushes_NotOpen, run_group_open, run_rep in H.
  apply rep_sound in H as (w & s6 & -> & Hw & Hlo & Hhi & H).
  rewrite pushes_Opened, run_group_close, run_rep in H.
  apply rep_sound in H as (tick2 & s7 & -> & Ht2 & _ & Hl2 & H).
  rewrite pushes_Closed, run_end in H. simpl in H. rewrite rev_rev_app in H.
  injection H as <- <-.
  exists stars, ws, tick1, tick2. simpl in Hl1, Hl2, Hhi.
  split; [done|]. split; [done|]. split; [done|].
  split; [by apply at_most_one|]. split; [by apply at_most_one|]. split; [done|]. lia.
Qed.

Lemma pack_id_run_complete prev s code after :
  pack_id_label s code after -> is_Some (Re.run pack_id_re prev Re.NotOpen s).
Proof.
  intros (stars & ws & tick1 & tick2 & -> & Hstars & Hws & Ht1 & Ht2 & Hcode & Hlen).
  rewrite pack_id_re_eq, run_lit by done.
  rewrite (proj2 (strip_prefix_Some "Pack ID" _
            (stars +:+ ":" +:+ ws +:+ tick1 +:+ code +:+ tick2 +:+ after))) by done.
  unfold pack_id_tail, Re.star, Re.opt, Re.one. rewrite run_rep.
  apply rep_complete; [done|lia|done|]. rewrite pushes_NotOpen, run_rep, rep_one.
  change (":" +:+ ws +:+ tick1 +:+ code +:+ tick2 +:+ after)
    with (String ":" (ws +:+ tick1 +:+ code +:+ tick2 +:+ after)).
  cbv iota. unfold Re.chr at 1. rewrite Ascii.eqb_refl, run_rep.
  apply rep_complete; [done|lia|done|]. rewrite pushes_NotOpen, run_rep.
  apply rep_complete; [by destruct Ht1 as [->| ->]|lia|
                       by destruct Ht1 as [->| ->]; simpl; lia|].
  rewrite pushes_NotOpen, run_group_open, run_rep.
  apply rep_complete; [done|lia|simpl; lia|].
  rewrite pushes_Opened, run_group_close, run_rep.
  apply rep_complete; [by destruct Ht2 as [->| ->]|lia|
                       by destruct Ht2 as [->| ->]; simpl; lia|].
  rewrite pushes_Closed, run_end. by eexists.
Qed.

(** X8: the Pack ID label that [detect_domain] reads from the text of
    the manifest.  When the pattern is found, the text has, at some
    place, the words Pack ID, any number of asterisks, a colon, any
    white space, an optional backquote, and then the code that is
    returned, which consists of two to four upper-case letters; and
    every text with such a label gives some code.  A text without the
    words Pack ID gives none. *)
Theorem pack_id_label_found (content : string) :
  (forall code after,
      Re.search pack_id_re content = Some (code, after) ->
      all_of Py.is_upper code = true
      ∧ 2 <= String.length code <= 4
      ∧ exists pre s, content = pre +:+ s ∧ pack_id_label s code after)
  ∧ ((exists pre s code after, content = pre +:+ s ∧ pack_id_label s code after)
     -> is_Some (Re.search pack_id_re content))
  ∧ ((forall pre post, content ≠ pre +:+ "Pack ID" +:+ post)
     -> Re.search pack_id_re content = None).
Proof.
  split; [|split].
  - intros code after (pre & s & -> & H)%search_sound.
    apply pack_id_run_sound in H.
    pose proof H as (_ & _ & _ & _ & _ & _ & _ & _ & _ & Hup & Hlen).
    split; [done|]. split; [done|]. by exists pre, s.
  - intros (pre & s & code & after & -> & H). apply search_complete.
    by eapply pack_id_run_complete.
  - intros Hno. destruct (Re.search pack_id_re content) as [[code after]|] eqn:Hs; [|done].
    apply search_sound in Hs as (pre & s & -> & H).
    apply pack_id_run_sound in H as (stars & ws & t1 & t2 & -> & _).
    by destruct (Hno pre (stars +:+ ":" +:+ ws +:+ t1 +:+ code +:+ t2 +:+ after)).
Qed.

(** ** The Navigation Map is a document with a block of its own *)

Lemma one_line_pretty_N_go (x : N) (s : string) :
  all_of Re.dot s = true -> all_of Re.dot (pretty_N_go x s) = true.
Proof.
  revert s. induction (N.lt_wf_0 x) as [x _ IH]; intros s Hs.
  assert (x = 0 \/ 0 < x)%N as [->|Hx] by lia; [by rewrite pretty_N_go_0|].
  rewrite pretty_N_go_step by done. apply IH; [by apply N.div_lt|].
  cbn [all_of]. rewrite Hs, andb_true_r.
  unfold pretty_N_char. by repeat case_match.
Qed.

Lemma one_line_pretty_N (x : N) : all_of Re.dot (pretty x) = true.
Proof.
  unfold pretty, pretty_N. case_decide; [done|]. by apply one_line_pretty_N_go.
Qed.

Lemma one_line_pretty_Z (x : Z) : all_of Re.dot (pretty x) = true.
Proof.
  destruct x as [|q|q]; [done|apply one_line_pretty_N|].
  unfold pretty, pretty_Z. rewrite all_of_app. apply andb_true_iff. split; [done|].
  apply one_line_pretty_N.
Qed.

Lemma one_line_pad (n : nat) (s : string) :
  all_of Re.dot s = true -> all_of Re.dot (pad n s) = true.
Proof.
  intros Hs. unfold pad. rewrite all_of_app, Hs, andb_true_r.
  induction (n - String.length s) as [|k IH]; [done|]. simpl.
  destruct (replicate k "0") as [|z zs]; [done|].
  rewrite app_cons_s, app_nil_l_s. cbn [all_of]. by rewrite app_nil_l_s, IH.
Qed.

Lemma one_line_isoformat (d : date) : all_of Re.dot (isoformat d) = true.
Proof.
  unfold isoformat. rewrite !all_of_app.
  rewrite !one_line_pad by apply one_line_pretty_Z. done.
Qed.

Lemma join_nl_app (ls : list string) (x : string) (xs : list string) :
  ls ≠ [] ->
  Py.join (nl EmptyString) (ls ++ x :: xs)
  = Py.join (nl EmptyString) ls +:+ nl (Py.join (nl EmptyString) (x :: xs)).
Proof.
  induction ls as [|l ls IH]; [done|]. intros _. destruct ls as [|l' ls].
  - change ([l] ++ x :: xs) with (l :: x :: xs). by rewrite join_nl_cons.
  - change ((l :: l' :: ls) ++ x :: xs) with (l :: l' :: (ls ++ x :: xs)).
    rewrite !join_nl_cons. change (l' :: ls ++ x :: xs) with ((l' :: ls) ++ x :: xs).
    rewrite IH by done. unfold nl. by rewrite app_assoc_s, app_cons_s.
Qed.

Lemma render_map_block (domain : string) (today : date) (d : map_data) :
  all_of Re.dot domain = true ->
  exists rest,
    Re.rmatch frontmatter_re (Py.join (nl EmptyString) (render_map domain today d))
    = Some (map_block domain today, rest).
Proof.
  intros Hdom.
  assert (exists tail,
    render_map domain today d
    = [ "---"; "id: " +:+ domain +:+ ".MAP.001"; "name: Pack Navigation Map";
        "scope: full-pack"; "created: " +:+ isoformat today;
        "last_updated: " +:+ isoformat today; "generated: true" ]
      ++ "---" :: EmptyString :: tail) as [tail ->] by (by eexists).
  rewrite join_nl_app by done.
  exists (nl (Py.join (nl EmptyString) (EmptyString :: tail))).
  pose proof (one_line_isoformat today) as Hday.
  apply (frontmatter_lines_match EmptyString "i" ("d: " +:+ domain +:+ ".MAP.001")
           [ "name: Pack Navigation Map"; "scope: full-pack";
             "created: " +:+ isoformat today; "last_updated: " +:+ isoformat today;
             "generated: true" ]
           (nl (Py.join (nl EmptyString) (EmptyString :: tail)))); [done|done|].
  repeat (apply Forall_cons_2;
            [split; [cbn [all_of]; rewrite ?all_of_app, ?Hdom, ?Hday; reflexivity
                    |reflexivity]|]).
  apply Forall_nil_2.
Qed.

Lemma generate_map_text (safe_load : string -> yaml_outcome)
    (strptime : string -> option date) (p : pack) (domain : string) (today : date)
    (text : string) :
  generate_map safe_load strptime p domain today = Ok text ->
  exists d, collect_map safe_load strptime p today = Ok d
            ∧ text = Py.join (nl EmptyString) (render_map domain today d).
Proof.
  unfold generate_map. destruct (collect_map safe_load strptime p today) as [d|]; [|done].
  intros H. exists d. split; [done|].
  change (Ok (Py.join (nl EmptyString) (render_map domain today d)) = Ok text) in H.
  congruence.
Qed.

Section MapDocument.
Variable safe_load : string -> yaml_outcome.
Variable strptime : string -> option date.

(** X9: the text of the Navigation Map starts with a frontmatter
    block that the parser of the program recognizes: for a domain code
    without a newline, the block is the six lines from the identifier
    <domain>.MAP.001 to generated: true.  So, once written below the
    pack directory, the map is a document of the pack: when the loader
    reads the block as a mapping with an identifier and a name, the
    parser gives the record of the map, with these fields and the path
    of the file. *)
Theorem map_is_a_document (p : pack) (domain : string) (today : date) (text : string) :
  all_of Re.dot domain = true ->
  generate_map safe_load strptime p domain today = Ok text ->
  (exists rest, Re.rmatch frontmatter_re text = Some (map_block domain today, rest))
  ∧ forall root parts data,
      safe_load (map_block domain today) = Loaded (Mapping data) ->
      is_Some (data !! "id") ->
      is_Some (data !! "name") ->
      parse_frontmatter safe_load root (mkfile parts (Some text))
      = Ok (Some (<["_filepath" := VStr (path_str root (mkfile parts (Some text)))]> data)).
Proof.
  intros Hdom (d & _ & ->)%generate_map_text.
  destruct (render_map_block domain today d Hdom) as [rest Hm].
  split; [by exists rest|].
  intros root parts data Hl Hid Hname. unfold parse_frontmatter. cbn [f_text].
  rewrite Hm, Hl, (proj2 (has_key_true "id" data) Hid).
  assert (has_key "name"
            (<["_filepath" := VStr (path_str root
                 (mkfile parts
                    (Some (Py.join (nl EmptyString) (render_map domain today d)))))]>
               data) = true) as ->; [|done].
  apply has_key_true. by rewrite lookup_insert_ne.
Qed.
End MapDocument.

(** ** The warnings of the Navigation Map *)

Section WarningSection.
Variable safe_load : string -> yaml_outcome.
Variable strptime : string -> option date.

(** X11: in every run in which [generate_map] returns, the warnings
    are those of the visited documents that have a record without the
    key summary, one for each such document, in the order of the paths;
    a record that has the key, with whatever value, gives none.  Each
    warning names the identifier and the file name, and the text has it
    as a list item under the heading of the warnings. *)
Theorem warnings_section (p : pack) (today : date) (domain : string) (d : map_data) :
  collect_map safe_load strptime p today = Ok d ->
  (forall w, w ∈ warnings d <->
     exists f r, visited p f
       ∧ parse_frontmatter safe_load (root p) f = Ok (Some r)
       ∧ r !! "summary" = None
       ∧ w = "Missing `summary`: " +:+ py_str (get_id r) +:+ " (" +:+ f_name f +:+ ")")
  ∧ warnings d
    = omap (warning_for safe_load (root p))
        (filter (fun f => eligible f = true) (sorted_md p))
  ∧ length (warnings d)
    = length (filter (fun e : record => e !! "summary" = None) (entities d))
  ∧ (forall w, w ∈ warnings d -> ("- " +:+ w) ∈ render_map domain today d)
  ∧ (warnings d ≠ [] -> "## Warnings" ∈ render_map domain today d).
Proof.
  intros Hd. destruct (warnings_for_each_record _ _ _ _ _ Hd) as (He & Hw & Hlen & _).
  split; [|split; [done|split; [|split]]].
  - intros w. rewrite Hw, list_elem_of_omap. unfold visited. split.
    + intros (f & [Hel Hf]%list_elem_of_filter & Hwf). unfold warning_for, record_of in Hwf.
      destruct (parse_frontmatter safe_load (root p) f) as [[r|]|] eqn:Hp; [|done..].
      simpl in Hwf. destruct (has_key "summary" r) eqn:Hs; [done|].
      apply has_key_false in Hs. injection Hwf as <-. by exists f, r.
    + intros (f & r & [Hf Hel] & Hp & Hs & ->). exists f.
      split; [by apply list_elem_of_filter|].
      unfold warning_for, record_of. rewrite Hp. simpl.
      by rewrite (proj2 (has_key_false "summary" r) Hs).
  - rewrite Hlen. f_equal. apply list_filter_iff. intros e. by rewrite has_key_false.
  - intros w Hin. unfold render_map. rewrite !elem_of_app. do 5 right. left.
    unfold warning_lines. destruct (warnings d) as [|w0 ws]; [by apply elem_of_nil in Hin|].
    rewrite !elem_of_app. right. left. apply list_elem_of_fmap. by exists w.
  - intros Hne. unfold render_map. rewrite !elem_of_app. do 5 right. left.
    unfold warning_lines. destruct (warnings d) as [|w0 ws]; [done|]. left.
Qed.
End WarningSection.

(** ** The Entity Index of a run lists the map that the run wrote *)

Lemma split_sep_free (sep : ascii) (s : string) :
  all_of (fun c => negb (Ascii.eqb c sep)) s = true -> Py.split sep s = [s].
Proof.
  induction s as [|c s IH]; [done|]. cbn [all_of]. intros [Hc Hs]%andb_true_iff.
  apply negb_true_iff in Hc. cbn [Py.split]. by rewrite Hc, (IH Hs).
Qed.

Lemma length_app_s (a b : string) :
  String.length (a +:+ b) = String.length a + String.length b.
Proof. induction a as [|c a IH]; [done|]. rewrite app_cons_s. simpl. by rewrite IH. Qed.

Lemma rfind_dot_app (a b : string) :
  Py.rfind_dot (a +:+ b)
  = match Py.rfind_dot b with
    | Some i => Some (String.length a + i)
    | None => Py.rfind_dot a
    end.
Proof.
  induction a as [|c a IH].
  - rewrite app_nil_l_s. by destruct (Py.rfind_dot b).
  - rewrite app_cons_s. cbn [Py.rfind_dot String.length]. rewrite IH.
    by destruct (Py.rfind_dot b).
Qed.

Lemma substring_app_skip (a b : string) (i n : nat) :
  String.substring (String.length a + i) n (a +:+ b) = String.substring i n b.
Proof. induction a as [|c a IH]; [done|]. rewrite app_cons_s. simpl. apply IH. Qed.

Lemma app_inj_suffix (a b c d : string) :
  String.length b = String.length d -> a +:+ b = c +:+ d -> a = c ∧ b = d.
Proof.
  revert c. induction a as [|x a IH]; intros [|y c] Hlen; rewrite ?app_cons_s, ?app_nil_l_s.
  - done.
  - intros ->. simpl in Hlen. rewrite length_app_s in Hlen. lia.
  - intros <-. simpl in Hlen. rewrite length_app_s in Hlen. lia.
  - intros [= -> H]. by destruct (IH c Hlen H) as [-> ->].
Qed.

(** The map file is a document that the walks visit. *)
Lemma map_file_is_md (dom : string) (parts : list string) (t : option string) :
  List.last parts EmptyString = dom +:+ ".MAP.001.md" -> is_md (mkfile parts t) = true.
Proof.
  intros H. unfold is_md, f_name. cbn [f_parts]. rewrite H, rfind_dot_app.
  change (Py.rfind_dot ".MAP.001.md") with (Some 8). cbv iota.
  rewrite length_app_s.
  replace (String.length dom + String.length ".MAP.001.md" - (String.length dom + 8))
    with 3 by (simpl; lia).
  by rewrite substring_app_skip.
Qed.

Lemma map_file_eligible (dom : string) (parts : list string) (t : option string) :
  List.last parts EmptyString = dom +:+ ".MAP.001.md" ->
  Py.startswith "_" dom = false ->
  eligible (mkfile parts t) = true.
Proof.
  intros H Hu. unfold eligible, f_name. cbn [f_parts]. rewrite H.
  assert (Py.startswith "_" (dom +:+ ".MAP.001.md") = false) as ->.
  { destruct dom as [|c dom]; [done|]. unfold Py.startswith in *.
    rewrite app_cons_s. cbn [String.prefix] in Hu |- *.
    destruct (ascii_dec "_" c); [|done]. by destruct dom. }
  assert (String.eqb (dom +:+ ".MAP.001.md") manifest_name = false) as ->.
  { apply String.eqb_neq. intros Heq.
    change manifest_name with ("00-pack-" +:+ "manifest.md") in Heq.
    by apply app_inj_suffix in Heq as [_ Heq]. }
  assert (String.eqb (dom +:+ ".MAP.001.md") ontology_name = false) as ->; [|done].
  apply String.eqb_neq. intros Heq.
  change ontology_name with (EmptyString +:+ "ontology.md") in Heq.
  by apply app_inj_suffix in Heq as [_ Heq].
Qed.

Lemma file_code_parts (domain : value) :
  file_code (py_str domain) = true ->
  all_of Re.dot (py_str domain) = true
  ∧ Py.startswith "_" (py_str domain) = false
  ∧ map_parts domain = ["07-map"; py_str domain +:+ ".MAP.001.md"].
Proof.
  unfold file_code. intros [[H1 H2]%andb_true_iff H3%negb_true_iff]%andb_true_iff.
  split; [done|]. split; [done|]. unfold map_parts. rewrite split_sep_free; [done|].
  rewrite all_of_app, H2. reflexivity.
Qed.

Section IndexOfRun.
Variable safe_load : string -> yaml_outcome.
Variable strptime : string -> option date.

Lemma index_lines_inv (p : pack) (ls : list string) :
  index_lines safe_load p = Ok ls ->
  ls = index_head
       ++ (index_text <$> sorted id_text str_leb
             (omap (record_of safe_load (root p))
                (filter (fun f => eligible f = true) (sorted_md p)))).
Proof.
  unfold index_lines.
  rewrite <- (map_walk_index_walk safe_load (root p) (sorted_md p) [] []).
  destruct (map_walk safe_load (root p) (sorted_md p) [] []) as [[es ws]|] eqn:Hw; [|done].
  apply map_walk_spec in Hw as [-> _]. simpl. unfold sorted_by_id.
  destruct (forallb _ _) eqn:Hf; [|done]. simpl.
  rewrite index_rows_spec; [by intros [= <-]|].
  apply Forall_forall. intros e He%sorted_elem%list_elem_of_In.
  by apply (proj1 (forallb_forall _ _) Hf).
Qed.

(** X12: a run of [main] that returns prints, as its last text, an
    Entity Index that lists the map the run has just written, because
    the index is made after the map file is in place.  This holds when
    the domain code makes a file name that the walk visits (it has no
    newline, no slash and no leading underscore) and the loader reads
    the block of the map as a mapping with an identifier: the index has
    the row of a record with that identifier whose path is that of the
    map file. *)
Theorem main_indexes_the_map (w : world) (today : date) (prog arg : string)
    (more : list string) (fs : list file) (domain : value) (data : record) :
  w_dir w (w_resolve w arg) = Some fs ->
  detect_domain safe_load (mkpack (w_resolve w arg) (basename (w_resolve w arg)) fs)
    = Ok domain ->
  file_code (py_str domain) = true ->
  (main safe_load strptime (prog :: arg :: more) w today).2 = Returned ->
  safe_load (map_block (py_str domain) today) = Loaded (Mapping data) ->
  is_Some (data !! "id") ->
  exists (r : record) (rows : list string),
    last (main safe_load strptime (prog :: arg :: more) w today).1
      = Some (Py.join (nl EmptyString) (index_head ++ rows))
    ∧ index_text r ∈ rows
    ∧ r !! "id" = data !! "id"
    ∧ r !! "_filepath"
      = Some (VStr (w_resolve w arg +:+ "/07-map/" +:+ py_str domain +:+ ".MAP.001.md")).
Proof.
  intros Hdir Hdom Hcode Hret Hload Hid.
  apply file_code_parts in Hcode as (Hline & Hunder & Hparts).
  unfold main in Hret |- *. rewrite Hdir, Hdom in Hret |- *.
  destruct (generate_map safe_load strptime _ (py_str domain) today) as [text|] eqn:Hmap;
    [|done].
  destruct (w_write_ok w); [|done]. cbn [f_parts] in Hret |- *.
  fold (map_parts domain) in Hret |- *.
  set (p' := mkpack (w_resolve w arg) (basename (w_resolve w arg))
               (store (map_parts domain) text fs)) in *.
  destruct (generate_entity_index safe_load p') as [index|] eqn:Hidx; [|done].
  unfold generate_entity_index in Hidx.
  destruct (index_lines safe_load p') as [ls|] eqn:Hls; [|done].
  assert (index = Py.join (nl EmptyString) ls) as ->
    by (change (Ok (Py.join (nl EmptyString) ls) = Ok index) in Hidx; congruence).
  apply index_lines_inv in Hls.
  set (map_file := mkfile (map_parts domain) (Some text)).
  apply generate_map_text in Hmap as (d & _ & Htext).
  destruct (render_map_block (py_str domain) today d Hline) as [rest Hm].
  rewrite <- Htext in Hm.
  destruct (parse_frontmatter_record safe_load (root p') map_file text
              (map_block (py_str domain) today) rest data eq_refl Hm Hload Hid)
    as (r & Hr & Hrid & Hrpath & _).
  assert (List.last (map_parts domain) EmptyString = py_str domain +:+ ".MAP.001.md")
    as Hname by (by rewrite Hparts).
  assert (r ∈ omap (record_of safe_load (root p'))
                (filter (fun f => eligible f = true) (sorted_md p'))) as Hin.
  { apply list_elem_of_omap. exists map_file. split.
    - apply list_elem_of_filter. split; [by apply (map_file_eligible (py_str domain))|].
      unfold sorted_md, rglob_md. apply sorted_elem, list_elem_of_filter.
      split; [by apply (map_file_is_md (py_str domain))|]. left.
    - unfold record_of. by rewrite Hr. }
  exists r, (index_text <$> sorted id_text str_leb
               (omap (record_of safe_load (root p'))
                  (filter (fun f => eligible f = true) (sorted_md p')))).
  split; [|split; [|split; [done|]]].
  - rewrite <- Hls. cbn [fst]. by rewrite !app_assoc, last_snoc.
  - apply list_elem_of_fmap. exists r. split; [done|]. by apply sorted_elem.
  - rewrite Hrpath. unfold path_str, map_file. cbn [f_parts root p']. rewrite Hparts.
    reflexivity.
Qed.
End IndexOfRun.

(** ** The properties of the generators on the sample packs *)

(** X1 on [small_pack]: three kinds, one record each. *)
Lemma statistics_rows_witness :
  collect_map sample_yaml sample_strptime small_pack sample_today
    = Ok (sample_data small_pack)
  ∧ NoDup (stat_counts (by_kind (sample_data small_pack))).*1
  ∧ sum_list (stat_counts (by_kind (sample_data small_pack))).*2
    = length (entities (sample_data small_pack)).
Proof.
  assert (collect_map sample_yaml sample_strptime small_pack sample_today
          = Ok (sample_data small_pack)) as H by (by vm_compute).
  split; [exact H|].
  destruct (statistics_rows sample_yaml sample_strptime small_pack sample_today "DP"
              (sample_data small_pack) H) as (_ & Hnd & _ & Hsum & _).
  split; [exact Hnd|exact Hsum].
Defined.

(** X2 on the note of [small_pack]. *)
Lemma record_in_the_table_of_its_kind_witness :
  collect_map sample_yaml sample_strptime small_pack sample_today
    = Ok (sample_data small_pack)
  ∧ notes_record ∈ entities (sample_data small_pack)
  ∧ kind_of notes_record ≠ "CHR"
  ∧ kind_of notes_record ≠ "OA"
  ∧ table_occurrences notes_record (all_tables (by_kind (sample_data small_pack)))
    = occurrences notes_record (entities (sample_data small_pack))
  ∧ map_row notes_record ∈ render_map "DP" sample_today (sample_data small_pack).
Proof.
  assert (collect_map sample_yaml sample_strptime small_pack sample_today
          = Ok (sample_data small_pack)) as H1 by (by vm_compute).
  assert (notes_record ∈ entities (sample_data small_pack)) as H2
    by (apply (bool_decide_unpack _); by vm_compute).
  assert (kind_of notes_record ≠ "CHR") as H3
    by (apply (bool_decide_unpack _); by vm_compute).
  assert (kind_of notes_record ≠ "OA") as H4
    by (apply (bool_decide_unpack _); by vm_compute).
  split; [exact H1|]. split; [exact H2|]. split; [exact H3|]. split; [exact H4|].
  destruct (record_in_the_table_of_its_kind sample_yaml sample_strptime small_pack
              sample_today "DP" (sample_data small_pack) notes_record H1 H2 H3 H4)
    as (Hocc & _ & _ & _ & Hrow).
  split; [exact Hocc|exact Hrow].
Defined.

(** X3 on [small_pack]. *)
Lemma tables_sorted_and_stable_witness :
  collect_map sample_yaml sample_strptime small_pack sample_today
    = Ok (sample_data small_pack)
  ∧ (known_tables (by_kind (sample_data small_pack))).*1
    = filter (fun k => k ∈ kind_of <$> entities (sample_data small_pack)) section_order
  ∧ StronglySorted (fun a b => str_leb a b = true)
      (extended_tables (by_kind (sample_data small_pack))).*1.
Proof.
  assert (collect_map sample_yaml sample_strptime small_pack sample_today
          = Ok (sample_data small_pack)) as H by (by vm_compute).
  split; [exact H|].
  destruct (tables_sorted_and_stable sample_yaml sample_strptime small_pack sample_today
              (sample_data small_pack) H) as (_ & Hk & He & _).
  split; [exact Hk|exact He].
Defined.

(** X5 on a directory with a document without a block. *)
Lemma no_records_outputs_witness :
  (forall f, f ∈ sorted_md empty_pack -> eligible f = true ->
             parse_frontmatter sample_yaml (root empty_pack) f = Ok None)
  ∧ generate_map sample_yaml sample_strptime empty_pack "EM" sample_today
    = Ok (Py.join (nl EmptyString)
            (header_lines "EM" (isoformat sample_today)
             ++ ["| **Total** | **0** |"; EmptyString]
             ++ footer_lines (isoformat sample_today)))
  ∧ generate_entity_index sample_yaml empty_pack
    = Ok (Py.join (nl EmptyString) index_head).
Proof.
  assert (forall f, f ∈ sorted_md empty_pack -> eligible f = true ->
                    parse_frontmatter sample_yaml (root empty_pack) f = Ok None) as H.
  { intros f Hf _.
    assert (sorted_md empty_pack = [mkfile ["README.md"] (Some "No block here")]) as Hs
      by (vm_compute; reflexivity).
    rewrite Hs in Hf. apply list_elem_of_singleton in Hf as ->. vm_compute; reflexivity. }
  split; [exact H|].
  exact (no_records_outputs sample_yaml sample_strptime empty_pack sample_today "EM" H).
Defined.

(** X6 on [small_pack] and its entries listed in the reverse order. *)
Lemma listing_order_irrelevant_witness :
  root small_pack = root small_pack_relisted
  ∧ root_name small_pack = root_name small_pack_relisted
  ∧ files small_pack ≡ₚ files small_pack_relisted
  ∧ NoDup (f_parts <$> files small_pack)
  ∧ sorted_md small_pack = sorted_md small_pack_relisted
  ∧ generate_map sample_yaml sample_strptime small_pack "DP" sample_today
    = generate_map sample_yaml sample_strptime small_pack_relisted "DP" sample_today.
Proof.
  assert (files small_pack ≡ₚ files small_pack_relisted) as H3
    by (symmetry; apply reverse_Permutation).
  assert (NoDup (f_parts <$> files small_pack)) as H4
    by (apply (bool_decide_unpack _); by vm_compute).
  split; [reflexivity|]. split; [reflexivity|]. split; [exact H3|]. split; [exact H4|].
  destruct (listing_order_irrelevant sample_yaml sample_strptime small_pack
              small_pack_relisted sample_today "DP" eq_refl eq_refl H3 H4)
    as (Hs & _ & Hm & _).
  split; [exact Hs|exact Hm].
Defined.

(** X9 on the map of [small_pack]. *)
Lemma map_is_a_document_witness :
  all_of Re.dot "DP" = true
  ∧ generate_map sample_yaml sample_strptime small_pack "DP" sample_today
    = Ok (Py.join (nl EmptyString) (render_map "DP" sample_today (sample_data small_pack)))
  ∧ exists rest,
      Re.rmatch frontmatter_re
        (Py.join (nl EmptyString) (render_map "DP" sample_today (sample_data small_pack)))
      = Some (map_block "DP" sample_today, rest).
Proof.
  assert (generate_map sample_yaml sample_strptime small_pack "DP" sample_today
          = Ok (Py.join (nl EmptyString)
                  (render_map "DP" sample_today (sample_data small_pack)))) as H
    by (vm_compute; reflexivity).
  split; [reflexivity|]. split; [exact H|].
  exact (proj1 (map_is_a_document sample_yaml sample_strptime small_pack "DP" sample_today
                  _ eq_refl H)).
Defined.

(** X10 on the note of [small_pack]. *)
Lemma record_fields_witness :
  parse_frontmatter sample_yaml "/packs/dp"
    (mkfile ["notes.md"] (Some (doc "id: NOTES" "Some notes")))
    = Ok (Some notes_record)
  ∧ notes_record !! "_filepath"
    = Some (VStr (path_str "/packs/dp"
                    (mkfile ["notes.md"] (Some (doc "id: NOTES" "Some notes"))))).
Proof.
  assert (parse_frontmatter sample_yaml "/packs/dp"
            (mkfile ["notes.md"] (Some (doc "id: NOTES" "Some notes")))
          = Ok (Some notes_record)) as H by (vm_compute; reflexivity).
  split; [exact H|].
  destruct (record_fields sample_yaml _ _ _ H)
    as (content & block & rest & data & _ & _ & _ & _ & _ & Hpath & _).
  exact Hpath.
Defined.

(** X11 on [small_pack], whose note and method have no summary. *)
Lemma warnings_section_witness :
  collect_map sample_yaml sample_strptime small_pack sample_today
    = Ok (sample_data small_pack)
  ∧ length (warnings (sample_data small_pack))
    = length (filter (fun e : record => e !! "summary" = None)
                (entities (sample_data small_pack))).
Proof.
  assert (collect_map sample_yaml sample_strptime small_pack sample_today
          = Ok (sample_data small_pack)) as H by (by vm_compute).
  split; [exact H|].
  destruct (warnings_section sample_yaml sample_strptime small_pack sample_today "DP"
              (sample_data small_pack) H) as (_ & _ & Hlen & _).
  exact Hlen.
Defined.

(** X12 on the run in the directory /packs/empty. *)
Lemma main_indexes_the_map_witness :
  w_dir empty_world (w_resolve empty_world "/packs/empty") = Some (files empty_pack)
  ∧ detect_domain sample_yaml
      (mkpack (w_resolve empty_world "/packs/empty")
         (basename (w_resolve empty_world "/packs/empty")) (files empty_pack))
    = Ok (VStr "EM")
  ∧ file_code (py_str (VStr "EM")) = true
  ∧ (main sample_yaml sample_strptime ["generate-map.py"; "/packs/empty"] empty_world
       sample_today).2 = Returned
  ∧ sample_yaml (map_block (py_str (VStr "EM")) sample_today) = Loaded (Mapping em_map_data)
  ∧ is_Some (em_map_data !! "id")
  ∧ exists (r : record) (rows : list string),
      last (main sample_yaml sample_strptime ["generate-map.py"; "/packs/empty"]
              empty_world sample_today).1
        = Some (Py.join (nl EmptyString) (index_head ++ rows))
      ∧ index_text r ∈ rows
      ∧ r !! "id" = em_map_data !! "id"
      ∧ r !! "_filepath"
        = Some (VStr (w_resolve empty_world "/packs/empty" +:+ "/07-map/"
                      +:+ py_str (VStr "EM") +:+ ".MAP.001.md")).
Proof.
  assert (w_dir empty_world (w_resolve empty_world "/packs/empty")
          = Some (files empty_pack)) as H1 by reflexivity.
  assert (detect_domain sample_yaml
            (mkpack (w_resolve empty_world "/packs/empty")
               (basename (w_resolve empty_world "/packs/empty")) (files empty_pack))
          = Ok (VStr "EM")) as H2 by (vm_compute; reflexivity).
  assert (file_code (py_str (VStr "EM")) = true) as H3 by reflexivity.
  assert ((main sample_yaml sample_strptime ["generate-map.py"; "/packs/empty"] empty_world
             sample_today).2 = Returned) as H4 by (vm_compute; reflexivity).
  assert (sample_yaml (map_block (py_str (VStr "EM")) sample_today)
          = Loaded (Mapping em_map_data)) as H5 by (vm_compute; reflexivity).
  assert (is_Some (em_map_data !! "id")) as H6 by (by eexists).
  split; [exact H1|]. split; [exact H2|]. split; [exact H3|]. split; [exact H4|].
  split; [exact H5|]. split; [exact H6|].
  exact (main_indexes_the_map sample_yaml sample_strptime empty_world sample_today
           "generate-map.py" "/packs/empty" [] (files empty_pack) (VStr "EM") em_map_data
           H1 H2 H3 H4 H5 H6).
Defined.

(** X4 on [small_pack]: both generators return, so the three conditions
    hold of it. *)
Lemma generators_return_witness :
  (exists text, generate_map sample_yaml sample_strptime small_pack "DP" sample_today
                = Ok text)
  ∧ parser_returns sample_yaml small_pack
  ∧ text_ids sample_yaml small_pack
  ∧ no_datetime sample_yaml small_pack
  ∧ exists text, generate_entity_index sample_yaml small_pack = Ok text.
Proof.
  assert (exists text, generate_map sample_yaml sample_strptime small_pack "DP" sample_today
                       = Ok text) as H by (eexists; vm_compute; reflexivity).
  destruct (generators_return sample_yaml sample_strptime small_pack sample_today "DP")
    as (Hmap & _ & Hidx).
  split; [exact H|].
  destruct (proj1 Hmap H) as (H1 & H2 & H3).
  split; [exact H1|]. split; [exact H2|]. split; [exact H3|]. exact (Hidx H).
Defined.

(** X7 on a document whose opening line ends in a blank. *)
Lemma frontmatter_block_exact_witness :
  all_space " " = true
  ∧ Py.is_space "i" = false
  ∧ Forall block_line ["id: DP.M.001"; "name: Extraction"]
  ∧ Re.rmatch frontmatter_re
      ("---" +:+ " "
       +:+ nl (Py.join (nl EmptyString) ["id: DP.M.001"; "name: Extraction"]
               +:+ nl ("---" +:+ nl "Text")))
    = Some (Py.join (nl EmptyString) ["id: DP.M.001"; "name: Extraction"], nl "Text").
Proof.
  assert (Forall block_line ["id: DP.M.001"; "name: Extraction"]) as H
    by (repeat (apply Forall_cons_2; [split; reflexivity|]); apply Forall_nil_2).
  split; [reflexivity|]. split; [reflexivity|]. split; [exact H|].
  exact (proj1 (proj2 frontmatter_block_exact) " " "i"%char "d: DP.M.001"
           ["name: Extraction"] (nl "Text") eq_refl eq_refl H).
Defined.

(** X8 on the label of the manifest of [labelled_pack]. *)
Lemma pack_id_label_found_witness :
  Re.search pack_id_re ("# Manifest" +:+ nl "**Pack ID**: `DP`" +:+ nl "Text")
    = Some ("DP", nl "Text")
  ∧ all_of Py.is_upper "DP" = true
  ∧ 2 <= String.length "DP" <= 4.
Proof.
  assert (Re.search pack_id_re ("# Manifest" +:+ nl "**Pack ID**: `DP`" +:+ nl "Text")
          = Some ("DP", nl "Text")) as H by (vm_compute; reflexivity).
  split; [exact H|].
  destruct (proj1 (pack_id_label_found _) "DP" (nl "Text") H) as (Hup & Hlen & _).
  split; [exact Hup|exact Hlen].
Defined.

(** ** A time stamp as the day of the last update *)

(** C4 fails when a record has a time stamp as [last_updated].  A
    [datetime] is a [date] for the test of line 203, and the difference
    of line 207 between the day of the run and a [datetime] raises:
    whenever a visited document has such a record, [generate_map] raises
    and there is no staleness table at all.  In [datetime_pack] the
    method DP.M.002 has a plain date 307 days before the day of the run:
    alone in a pack it has its entry and its row, as the specification
    says; beside the method DP.M.006, whose last update is a time stamp
    of the same day, it has none, because [generate_map] raises. *)
Theorem datetime_last_updated_raises :
  (forall (safe_load : string -> yaml_outcome) (strptime : string -> option date)
          (p : pack) (today : date) (domain : string) (f : file) (r : record) (t : string),
      visited p f ->
      parse_frontmatter safe_load (root p) f = Ok (Some r) ->
      r !! "last_updated" = Some (VDatetime t) ->
      generate_map safe_load strptime p domain today = Raise)
  ∧ sorted_md datetime_pack = [dated_file; datetime_file]
  ∧ parse_frontmatter datetime_yaml (root datetime_pack) dated_file
    = Ok (Some dated_record)
  ∧ parse_frontmatter datetime_yaml (root datetime_pack) datetime_file
    = Ok (Some datetime_record)
  ∧ dated_record !! "last_updated" = Some (VDate (mkdate 2026 1 1))
  ∧ days_between sample_today (mkdate 2026 1 1) = 307%Z
  ∧ stale_entry sample_strptime sample_today dated_record = Some (VStr "DP.M.002", 307%Z)
  ∧ stale <$> collect_map datetime_yaml sample_strptime dated_pack sample_today
    = Ok [(VStr "DP.M.002", 307%Z)]
  ∧ render_map "DP" sample_today
      <$> collect_map datetime_yaml sample_strptime dated_pack sample_today
    = Ok [ "---"; "id: DP.MAP.001"; "name: Pack Navigation Map"; "scope: full-pack";
           "created: 2026-11-04"; "last_updated: 2026-11-04"; "generated: true"; "---";
           EmptyString; "# [DP.MAP.001] Pack Navigation Map"; EmptyString;
           "> Auto-generated from frontmatter on 2026-11-04. Do not edit manually.";
           EmptyString; "---"; EmptyString; "## Statistics"; EmptyString;
           "| Kind | Count |"; "|------|-------|";
           "| Methods (M) | 1 |"; "| **Total** | **1** |"; EmptyString;
           "## Methods"; EmptyString;
           "| ID | Name | Summary | Status |"; "|----|------|---------|--------|";
           "| DP.M.002 | A | " +:+ dash +:+ " | " +:+ dash +:+ " |"; EmptyString;
           "## Warnings"; EmptyString;
           "- Missing `summary`: DP.M.002 (DP.M.002-a.md)"; EmptyString;
           "## Staleness Warnings (>90 days since update)"; EmptyString;
           "| ID | Days Since Update |"; "|----|-------------------|";
           "| DP.M.002 | 307 |"; EmptyString;
           "---"; EmptyString;
           "*Generated by `scripts/generate-map.py` on 2026-11-04*" ]
  ∧ datetime_record !! "last_updated" = Some (VDatetime "2026-01-01 10:00:00")
  ∧ stale_step sample_strptime sample_today datetime_record [(VStr "DP.M.002", 307%Z)]
    = Raise
  ∧ collect_map datetime_yaml sample_strptime datetime_pack sample_today = Raise
  ∧ generate_map datetime_yaml sample_strptime datetime_pack "DP" sample_today = Raise.
Proof.
  split.
  - intros safe_load strptime p today domain f r t [Hf He] Hp Ht.
    destruct (generate_map safe_load strptime p domain today) as [text|] eqn:Hg; [|done].
    exfalso. apply generate_map_text in Hg as (d & Hd & _).
    apply collect_map_inv in Hd as (Hw & _ & Hs).
    apply map_walk_spec in Hw as [Hes _]. simpl in Hes.
    assert (r ∈ entities d) as Hin
      by (rewrite Hes; apply entities_of_walk; by exists f).
    assert (Forall (fun e : record => forall t, e !! "last_updated" ≠ Some (VDatetime t))
              (entities d)) as Hall
      by (apply (stale_walk_returns strptime today (entities d) []); by eexists).
    by apply (proj1 (Forall_forall _ _) Hall r Hin t).
  - split; [vm_compute; reflexivity|]. split; [vm_compute; reflexivity|].
    split; [vm_compute; reflexivity|]. split; [vm_compute; reflexivity|].
    split; [vm_compute; reflexivity|]. split; [vm_compute; reflexivity|].
    split; [vm_compute; reflexivity|]. repeat split; vm_compute; reflexivity.
Qed.
